(** * KpilexifManager: a verification model of the EXIF accessor layer

    The development embeds [kpilexifmanager/baseclass.py] and
    [kpilexifmanager/pilexifmgr.py].  Python values are a tagged union
    ([pyval]); a Python [str] is its sequence of Unicode code points and a
    [bytes] object a list of bytes; dictionaries are finite maps keyed by
    ints and strs; exceptions are explicit ([result]); the manager object is
    a record threaded through every method.  Python floats are idealised as
    exact rationals ([Q]).  Dictionaries are held by value; where the
    identity of a dictionary object matters (one dictionary stored under two
    keys), the module [Objects] models them as objects in a heap.

    External libraries (Pillow, piexif, kmarotools.convert, pathlib, the
    codecs of the standard library) are not part of the sources.  The codecs
    and pathlib are modelled after their documented behaviour; Pillow and
    piexif I/O is a parameter ([World]); the unit conversions are an
    interface ([Convert]) with one reference instance. *)

From Stdlib Require Import ZArith NArith QArith Qabs Qround Lia List.
From Stdlib Require Import Strings.Byte String Ascii.
From stdpp Require Import gmap strings fin_maps option list.

#[local] Open Scope Z_scope.

(* ===================================================================== *)
(** * Results and exceptions *)
(* ===================================================================== *)

(** The exception classes that the modelled code can meet.  An
    [AssertionError] carries its message (empty for a bare [assert]). *)
Inductive exn :=
| KeyError
| IndexError
| TypeError
| ValueError
| UnicodeDecodeError
| UnicodeEncodeError
| ZeroDivisionError
| AttributeError
| AssertionError (msg : list N)
| OSError
| UnidentifiedImageError
| StructError
| OtherError (name : string).

(** [except ValueError] also catches the subclasses of [ValueError]. *)
Definition is_ValueError (e : exn) : bool :=
  match e with
  | ValueError | UnicodeDecodeError | UnicodeEncodeError => true
  | _ => false
  end.

(** [except OSError]; [PIL.UnidentifiedImageError] derives from [OSError]. *)
Definition is_OSError (e : exn) : bool :=
  match e with
  | OSError | UnidentifiedImageError => true
  | _ => false
  end.

(** [except TypeError] *)
Definition is_TypeError (e : exn) : bool :=
  match e with TypeError => true | _ => false end.

(** [except struct.error] *)
Definition is_StructError (e : exn) : bool :=
  match e with StructError => true | _ => false end.

Inductive result (A : Type) :=
| Ok (a : A)
| Raise (e : exn).
Arguments Ok {A} a.
Arguments Raise {A} e.

Definition rbind {A B} (m : result A) (k : A → result B) : result B :=
  match m with
  | Ok a => k a
  | Raise e => Raise e
  end.

#[global] Instance result_ret : MRet result := @Ok.
#[global] Instance result_bind : MBind result := λ A B k m, rbind m k.

Definition of_option {A} (e : exn) (o : option A) : result A :=
  match o with
  | Some a => Ok a
  | None => Raise e
  end.

Definition is_Ok {A} (r : result A) : Prop := ∃ a, r = Ok a.

(* ===================================================================== *)
(** * Python strings and bytes *)
(* ===================================================================== *)

(** A Python [str] is a sequence of code points in [0, 0x10FFFF]. *)
Abbreviation pystr := (list N).

Definition py (s : string) : pystr :=
  map N_of_ascii (list_ascii_of_string s).

Definition pyb (s : string) : list byte := list_byte_of_string s.

Definition pystr_ok (s : pystr) : Prop := Forall (λ c, (c < 0x110000)%N) s.

Definition is_surrogate (c : N) : bool := ((0xD800 <=? c) && (c <=? 0xDFFF))%N.

#[global] Instance byte_eq_decision : EqDecision byte := Byte.byte_eq_dec.

Definition byte_of (n : N) : byte :=
  match Byte.of_N (n mod 256) with
  | Some b => b
  | None => x00
  end.

(** ** [str.join], [str.split], [str.upper], [in] on strings *)

(** [sep.join(parts)] *)
Fixpoint join (sep : pystr) (parts : list pystr) : pystr :=
  match parts with
  | [] => []
  | [x] => x
  | x :: rest => x ++ sep ++ join sep rest
  end.

(** [s.split(c)] for a one-character separator [c]. *)
Fixpoint split (c : N) (s : pystr) : list pystr :=
  match s with
  | [] => [[]]
  | x :: r =>
      if (x =? c)%N then [] :: split c r
      else match split c r with
           | h :: t => (x :: h) :: t
           | [] => [[x]]
           end
  end.

(** [s.split(c, maxsplit=1)] for a one-character separator [c]. *)
Fixpoint split_once (c : N) (s : pystr) : list pystr :=
  match s with
  | [] => [[]]
  | x :: r =>
      if (x =? c)%N then [[]; r]
      else match split_once c r with
           | h :: t => (x :: h) :: t
           | [] => [[x]]
           end
  end.

(** [s.upper()].  Only the ASCII letters are mapped; Python also maps
    non-ASCII letters, of which only U+0131 and U+017F reach ASCII (I and
    S), letters that occur in none of the extensions compared below. *)
Definition upper_char (c : N) : N :=
  if ((0x61 <=? c) && (c <=? 0x7A))%N then (c - 0x20)%N else c.

Definition upper (s : pystr) : pystr := map upper_char s.

Fixpoint starts_with (p s : pystr) : bool :=
  match p, s with
  | [], _ => true
  | _ :: _, [] => false
  | a :: p', b :: s' => (a =? b)%N && starts_with p' s'
  end.

(** [sub in s] on two strs *)
Fixpoint str_contains (sub s : pystr) : bool :=
  starts_with sub s ||
  match s with
  | [] => false
  | _ :: s' => str_contains sub s'
  end.

(** ** The UTF-8 codec (strict) *)

Definition utf8_encode_char (c : N) : option (list byte) :=
  (if c <? 0x80 then Some [byte_of c]
   else if c <? 0x800 then
     Some [byte_of (0xC0 + c / 64); byte_of (0x80 + c mod 64)]
   else if c <? 0x10000 then
     if is_surrogate c then None
     else Some [byte_of (0xE0 + c / 4096);
                byte_of (0x80 + (c / 64) mod 64);
                byte_of (0x80 + c mod 64)]
   else if c <? 0x110000 then
     Some [byte_of (0xF0 + c / 262144);
           byte_of (0x80 + (c / 4096) mod 64);
           byte_of (0x80 + (c / 64) mod 64);
           byte_of (0x80 + c mod 64)]
   else None)%N.

(** [s.encode('utf-8')]; [None] stands for [UnicodeEncodeError]. *)
Fixpoint utf8_encode (s : pystr) : option (list byte) :=
  match s with
  | [] => Some []
  | c :: r =>
      match utf8_encode_char c, utf8_encode r with
      | Some b, Some br => Some (b ++ br)
      | _, _ => None
      end
  end.

Definition in_range (lo hi : N) (b : byte) : bool :=
  ((lo <=? Byte.to_N b) && (Byte.to_N b <=? hi))%N.

Definition cont (b : byte) : N := (Byte.to_N b - 0x80)%N.

(** [b.decode('utf-8')]; [None] stands for [UnicodeDecodeError].  The
    accepted byte sequences are those of the Unicode standard's table of
    well-formed UTF-8. *)
Fixpoint utf8_decode (l : list byte) : option pystr :=
  match l with
  | [] => Some []
  | b0 :: r =>
      let n0 := Byte.to_N b0 in
      if (n0 <? 0x80)%N then cons n0 <$> utf8_decode r
      else match r with
      | b1 :: r1 =>
          if in_range 0xC2 0xDF b0 then
            if in_range 0x80 0xBF b1
            then cons ((n0 - 0xC0) * 64 + cont b1)%N <$> utf8_decode r1
            else None
          else match r1 with
          | b2 :: r2 =>
              if in_range 0xE0 0xEF b0 then
                if (if (n0 =? 0xE0)%N then in_range 0xA0 0xBF b1
                    else if (n0 =? 0xED)%N then in_range 0x80 0x9F b1
                    else in_range 0x80 0xBF b1)
                   && in_range 0x80 0xBF b2
                then cons ((n0 - 0xE0) * 4096 + cont b1 * 64 + cont b2)%N
                       <$> utf8_decode r2
                else None
              else match r2 with
              | b3 :: r3 =>
                  if in_range 0xF0 0xF4 b0 then
                    if (if (n0 =? 0xF0)%N then in_range 0x90 0xBF b1
                        else if (n0 =? 0xF4)%N then in_range 0x80 0x8F b1
                        else in_range 0x80 0xBF b1)
                       && in_range 0x80 0xBF b2 && in_range 0x80 0xBF b3
                    then cons ((n0 - 0xF0) * 262144 + cont b1 * 4096
                               + cont b2 * 64 + cont b3)%N
                           <$> utf8_decode r3
                    else None
                  else None
              | [] => None
              end
          | [] => None
          end
      | [] => None
      end
  end.

(** ** The UTF-16 codec (strict, with byte-order mark) *)

(** 16-bit code units of one code point; [None] for a lone surrogate. *)
Definition utf16_units_char (c : N) : option (list N) :=
  (if c <? 0x10000 then
     if is_surrogate c then None else Some [c]
   else if c <? 0x110000 then
     Some [0xD800 + (c - 0x10000) / 1024; 0xDC00 + (c - 0x10000) mod 1024]
   else None)%N.

Fixpoint utf16_units (s : pystr) : option (list N) :=
  match s with
  | [] => Some []
  | c :: r =>
      match utf16_units_char c, utf16_units r with
      | Some u, Some ur => Some (u ++ ur)
      | _, _ => None
      end
  end.

(** The two bytes of a code unit, in the byte order [big]. *)
Definition unit_bytes (big : bool) (u : N) : list byte :=
  if big then [byte_of (u / 256); byte_of u] else [byte_of u; byte_of (u / 256)].

Definition bom (big : bool) : list byte :=
  if big then [xfe; xff] else [xff; xfe].

(** [s.encode('utf-16')] on a host whose native byte order is [big]: a
    byte-order mark followed by the code units in native order. *)
Definition utf16_encode (big : bool) (s : pystr) : option (list byte) :=
  us ← utf16_units s; Some (bom big ++ concat (map (unit_bytes big) us)).

Definition unit_of (big : bool) (b0 b1 : byte) : N :=
  (if big then Byte.to_N b0 * 256 + Byte.to_N b1
   else Byte.to_N b1 * 256 + Byte.to_N b0)%N.

(** Pairs of bytes to code units; a trailing odd byte is "truncated data". *)
Fixpoint units_of_bytes (big : bool) (l : list byte) : option (list N) :=
  match l with
  | [] => Some []
  | [_] => None
  | b0 :: b1 :: r => cons (unit_of big b0 b1) <$> units_of_bytes big r
  end.

Definition is_high (u : N) : bool := ((0xD800 <=? u) && (u <=? 0xDBFF))%N.
Definition is_low (u : N) : bool := ((0xDC00 <=? u) && (u <=? 0xDFFF))%N.

(** Code units to code points; unpaired surrogates are illegal. *)
Fixpoint utf16_points (us : list N) : option pystr :=
  match us with
  | [] => Some []
  | u :: r =>
      if is_high u then
        match r with
        | lo :: r' =>
            if is_low lo
            then cons (0x10000 + (u - 0xD800) * 1024 + (lo - 0xDC00))%N
                   <$> utf16_points r'
            else None
        | [] => None
        end
      else if is_low u then None
      else cons u <$> utf16_points r
  end.

(** [b.decode('utf-16')] on a host whose native byte order is [big]: a
    leading byte-order mark selects the byte order and is dropped; without
    one the native order is used. *)
Definition utf16_decode (big : bool) (l : list byte) : option pystr :=
  match l with
  | xff :: xfe :: r => units_of_bytes false r ≫= utf16_points
  | xfe :: xff :: r => units_of_bytes true r ≫= utf16_points
  | _ => units_of_bytes big l ≫= utf16_points
  end.

(* ===================================================================== *)
(** * Paths (pathlib) *)
(* ===================================================================== *)

Record Path := mkPath { parent : pystr; name : pystr }.

(** [s.rfind(c)], counting from index [i] *)
Fixpoint rfind_from (i : Z) (c : N) (s : pystr) : Z :=
  match s with
  | [] => -1
  | x :: r =>
      let j := rfind_from (i + 1) c r in
      if 0 <=? j then j else if (x =? c)%N then i else -1
  end.

(** [PurePath.suffix]: the final component's last dot-part, empty when the
    only dot is leading or trailing. *)
Definition suffix (p : Path) : pystr :=
  let i := rfind_from 0 0x2E%N (name p) in
  if (0 <? i) && (i <? Z.of_nat (length (name p)) - 1)
  then drop (Z.to_nat i) (name p)
  else [].

(** [base.joinpath(filename)] for a relative, single-component file name *)
Definition joinpath (base : pystr) (filename : pystr) : Path :=
  mkPath base filename.


(* ===================================================================== *)
(** * Python values *)
(* ===================================================================== *)

(** Dictionary keys are ints or strs. *)
Abbreviation pykey := (Z + list N)%type.
Abbreviation KInt := (@inl Z (list N)).
Abbreviation KStr := (@inr Z (list N)).

(** The values that metadata holds: what Pillow puts in [img.info], what
    piexif loads, and what the setters store. *)
#[warnings="-register-all"]
Inductive pyval :=
| PNone
| PInt (z : Z)
| PFloat (q : Q)
| PStr (s : list N)
| PBytes (b : list byte)
| PTuple (l : list pyval)
| PDict (d : gmap (Z + list N) pyval).

Abbreviation pydict := (gmap (Z + list N) pyval).

(** Sequence indexing [l[i]], negative indices counting from the end. *)
Definition seq_index {A} (l : list A) (i : Z) : result A :=
  let n := Z.of_nat (length l) in
  if (0 <=? i) && (i <? n) then of_option IndexError (l !! Z.to_nat i)
  else if (- n <=? i) && (i <? 0) then of_option IndexError (l !! Z.to_nat (n + i))
  else Raise IndexError.

(** [v[k]] *)
Definition py_getitem (v : pyval) (k : pykey) : result pyval :=
  match v with
  | PDict d => of_option KeyError (d !! k)
  | PTuple l =>
      match k with
      | inl i => seq_index l i
      | inr _ => Raise TypeError
      end
  | PStr s =>
      match k with
      | inl i => c ← seq_index s i; Ok (PStr [c])
      | inr _ => Raise TypeError
      end
  | PBytes b =>
      match k with
      | inl i => c ← seq_index b i; Ok (PInt (Z.of_N (Byte.to_N c)))
      | inr _ => Raise TypeError
      end
  | PNone | PInt _ | PFloat _ => Raise TypeError
  end.

(** [v[k] = x]: only dictionaries support item assignment. *)
Definition py_setitem (v : pyval) (k : pykey) (x : pyval) : result pyval :=
  match v with
  | PDict d => Ok (PDict (<[k := x]> d))
  | _ => Raise TypeError
  end.

(** [x == k] for a key [k] (an int or a str) *)
Definition eq_key (k : pykey) (x : pyval) : bool :=
  match k, x with
  | inl i, PInt z => z =? i
  | inl i, PFloat q => Qeq_bool q (inject_Z i)
  | inr s, PStr s' => bool_decide (s' = s)
  | _, _ => false
  end.

(** [k in v] *)
Definition py_contains (k : pykey) (v : pyval) : result bool :=
  match v with
  | PDict d => Ok (bool_decide (is_Some (d !! k)))
  | PTuple l => Ok (existsb (eq_key k) l)
  | PStr s =>
      match k with
      | inr sub => Ok (str_contains sub s)
      | inl _ => Raise TypeError
      end
  | PBytes b =>
      match k with
      | inl i =>
          if (0 <=? i) && (i <? 256)
          then Ok (existsb (λ c, Z.of_N (Byte.to_N c) =? i) b)
          else Raise ValueError
      | inr _ => Raise TypeError
      end
  | PNone | PInt _ | PFloat _ => Raise TypeError
  end.

(** [v == b] for a bytes literal [b]: only a bytes object can be equal. *)
Definition eq_bytes (v : pyval) (b : list byte) : bool :=
  match v with
  | PBytes b' => bool_decide (b' = b)
  | _ => false
  end.

(** [v == i] for an int literal [i] *)
Definition eq_int (v : pyval) (i : Z) : bool := eq_key (inl i) v.

Definition as_number (v : pyval) : option Q :=
  match v with
  | PInt z => Some (inject_Z z)
  | PFloat q => Some q
  | _ => None
  end.

(** True division [a / b], a float.  The quotient is exact: the rounding of
    the float, and the OverflowError of an int quotient beyond the range of a
    float, are left out; the theorems that divide stored ints bound them. *)
Definition py_truediv (a b : pyval) : result Q :=
  match as_number a, as_number b with
  | Some x, Some y =>
      if Qeq_bool y 0 then Raise ZeroDivisionError else Ok (Qred (x / y))
  | _, _ => Raise TypeError
  end.

(** [int(x)] on a float: truncation towards zero. *)
Definition int_of_float (x : Q) : Z := Z.quot (Qnum x) (Z.pos (Qden x)).

Definition byte_of_item (v : pyval) : result byte :=
  match v with
  | PInt z =>
      if (0 <=? z) && (z <? 256) then Ok (byte_of (Z.to_N z)) else Raise ValueError
  | _ => Raise TypeError
  end.

Fixpoint bytes_of_items (l : list pyval) : result (list byte) :=
  match l with
  | [] => Ok []
  | v :: r => b ← byte_of_item v; bs ← bytes_of_items r; Ok (b :: bs)
  end.

(** [bytes(v)].  For a dictionary Python iterates its keys in insertion
    order, which a finite map does not record: the keys are taken in the
    map's own order. *)
Definition py_bytes (v : pyval) : result (list byte) :=
  match v with
  | PBytes b => Ok b
  | PTuple l => bytes_of_items l
  | PInt n => if n <? 0 then Raise ValueError else Ok (replicate (Z.to_nat n) x00)
  | PDict d =>
      bytes_of_items
        (map (λ kv, match fst kv with inl i => PInt i | inr s => PStr s end)
           (map_to_list d))
  | PNone | PFloat _ | PStr _ => Raise TypeError
  end.

(** [v.decode('utf-8')]: a method of bytes objects only. *)
Definition py_decode_utf8 (v : pyval) : result pystr :=
  match v with
  | PBytes b => of_option UnicodeDecodeError (utf8_decode b)
  | _ => Raise AttributeError
  end.

(** [s.encode('utf-8')] *)
Definition py_encode_utf8 (s : pystr) : result pyval :=
  b ← of_option UnicodeEncodeError (utf8_encode s); Ok (PBytes b).

(* ===================================================================== *)
(** * piexif tag numbers *)
(* ===================================================================== *)

Module piexif.
Module ImageIFD.
Definition ImageDescription : Z := 270.
Definition Make : Z := 271.
Definition Model : Z := 272.
Definition Orientation : Z := 274.
Definition Software : Z := 305.
Definition Artist : Z := 315.
Definition Copyright : Z := 33432.
Definition XPKeywords : Z := 40094.
End ImageIFD.
Module ExifIFD.
Definition ExifVersion : Z := 36864.
Definition DateTimeOriginal : Z := 36867.
Definition DateTimeDigitized : Z := 36868.
Definition SubSecTimeOriginal : Z := 37521.
Definition SubSecTimeDigitized : Z := 37522.
End ExifIFD.
Module GPSIFD.
Definition GPSVersionID : Z := 0.
Definition GPSLatitudeRef : Z := 1.
Definition GPSLatitude : Z := 2.
Definition GPSLongitudeRef : Z := 3.
Definition GPSLongitude : Z := 4.
Definition GPSAltitudeRef : Z := 5.
Definition GPSAltitude : Z := 6.
End GPSIFD.
End piexif.

(* ===================================================================== *)
(** * The conversion helpers (kmarotools.basics.convert) *)
(* ===================================================================== *)

Record datetime := mkDatetime {
  year : Z; month : Z; day : Z; hour : Z; minute : Z; second : Z
}.

(** The interface of the conversion module that the manager calls.  The
    module is an external package; the manager is verified against any
    implementation of this signature. *)
Class Convert := {
  (** [str2datetime(s, date_sep, datetime_sep, time_sep)] *)
  str2datetime : pystr → pystr → pystr → pystr → result datetime;
  (** [datetime2str(dt, date_sep, datetime_sep, time_sep)] *)
  datetime2str : datetime → pystr → pystr → pystr → pystr;
  (** [deg2dms_zone(deg, (zone_pos, zone_neg))]: degrees, minutes, seconds
      and the zone *)
  deg2dms_zone : Q → pystr * pystr → Z * Z * Q * pystr;
  (** [dms_zone2deg(degs, mins, secs, zone_positive)] *)
  dms_zone2deg : Q → Q → Q → bool → Q
}.

(** Modelled from the spec: the conversion module is not among the sources;
    the spec describes it as the conversion between
    degrees-minutes-seconds with a hemisphere and signed decimal degrees,
    and datetime string parsing.  This reference implementation is used
    where a concrete run of the manager is evaluated. *)
Module convert.

Definition dms2deg (degs mins secs : Q) : Q :=
  Qred (degs + mins / inject_Z 60 + secs / inject_Z 3600)%Q.

Definition dms_zone2deg (degs mins secs : Q) (zone_positive : bool) : Q :=
  if zone_positive then dms2deg degs mins secs
  else Qred (- dms2deg degs mins secs)%Q.

Definition deg2dms_zone (deg : Q) (zones : pystr * pystr)
  : Z * Z * Q * pystr :=
  let a := Qabs deg in
  let d := Qfloor a in
  let rest := ((a - inject_Z d) * inject_Z 60)%Q in
  let m := Qfloor rest in
  let s := Qred ((rest - inject_Z m) * inject_Z 60)%Q in
  (d, m, s, if Qle_bool 0 deg then fst zones else snd zones).

(** [w] decimal digits of [n], zero padded *)
Fixpoint digits (w : nat) (n : Z) : pystr :=
  match w with
  | O => []
  | S w' => digits w' (n / 10) ++ [(0x30 + Z.to_N (n mod 10))%N]
  end.

Definition datetime2str (dt : datetime) (date_sep datetime_sep time_sep : pystr)
  : pystr :=
  digits 4 (year dt) ++ date_sep ++ digits 2 (month dt) ++ date_sep
    ++ digits 2 (day dt) ++ datetime_sep ++ digits 2 (hour dt) ++ time_sep
    ++ digits 2 (minute dt) ++ time_sep ++ digits 2 (second dt).

(** read exactly [w] decimal digits *)
Fixpoint take_digits (w : nat) (acc : Z) (s : pystr) : option (Z * pystr) :=
  match w with
  | O => Some (acc, s)
  | S w' =>
      match s with
      | c :: r =>
          if ((0x30 <=? c) && (c <=? 0x39))%N
          then take_digits w' (acc * 10 + Z.of_N (c - 0x30)) r
          else None
      | [] => None
      end
  end.

Fixpoint strip_prefix (p s : pystr) : option pystr :=
  match p, s with
  | [], _ => Some s
  | a :: p', b :: s' => if (a =? b)%N then strip_prefix p' s' else None
  | _ :: _, [] => None
  end.

Definition is_leap (y : Z) : bool :=
  ((y mod 4 =? 0) && negb (y mod 100 =? 0)) || (y mod 400 =? 0).

Definition days_in_month (y m : Z) : Z :=
  if m =? 2 then (if is_leap y then 29 else 28)
  else if (m =? 4) || (m =? 6) || (m =? 9) || (m =? 11) then 30
  else 31.

Definition valid_datetime (dt : datetime) : bool :=
  (1 <=? year dt) && (1 <=? month dt) && (month dt <=? 12)
  && (1 <=? day dt) && (day dt <=? days_in_month (year dt) (month dt))
  && (hour dt <? 24) && (minute dt <? 60) && (second dt <? 60).

Definition parse_datetime (s date_sep datetime_sep time_sep : pystr)
  : option datetime :=
  '(y, s) ← take_digits 4 0 s;
  s ← strip_prefix date_sep s;
  '(mo, s) ← take_digits 2 0 s;
  s ← strip_prefix date_sep s;
  '(d, s) ← take_digits 2 0 s;
  s ← strip_prefix datetime_sep s;
  '(h, s) ← take_digits 2 0 s;
  s ← strip_prefix time_sep s;
  '(mi, s) ← take_digits 2 0 s;
  s ← strip_prefix time_sep s;
  '(se, s) ← take_digits 2 0 s;
  let dt := mkDatetime y mo d h mi se in
  if bool_decide (s = []) && valid_datetime dt then Some dt else None.

Definition str2datetime (s date_sep datetime_sep time_sep : pystr)
  : result datetime :=
  of_option ValueError (parse_datetime s date_sep datetime_sep time_sep).

End convert.

#[global] Instance reference_convert : Convert := {|
  str2datetime := convert.str2datetime;
  datetime2str := convert.datetime2str;
  deg2dms_zone := convert.deg2dms_zone;
  dms_zone2deg := convert.dms_zone2deg
|}.

(* ===================================================================== *)
(** * The environment: Pillow and piexif *)
(* ===================================================================== *)

(** What the manager asks of the imaging and EXIF libraries and of the
    file system.  [image_open] yields the items of [Image.open(f).info] in
    iteration order. *)
Record World := mkWorld {
  image_open : Path → result (list (pystr * pyval));
  piexif_load : pyval → result pyval;
  piexif_dump : pyval → result (list byte);
  piexif_insert : list byte → Path → Path → result unit;
  itername : Path → Path
}.

(* ===================================================================== *)
(** * The manager object *)
(* ===================================================================== *)

Inductive LogRecord :=
| LogLoading (file : Path)
| LogWriting (file_name file_parent : pystr).

Record Manager := mkManager {
  _log_enabled : bool;
  log : list LogRecord;
  metadata : pyval;
  _filepath : option Path;
  _temporal_keywords : list pystr
}.

Definition with_metadata (md : pyval) (st : Manager) : Manager :=
  mkManager (_log_enabled st) (log st) md (_filepath st) (_temporal_keywords st).

Definition with_log (r : LogRecord) (st : Manager) : Manager :=
  mkManager (_log_enabled st) (log st ++ [r]) (metadata st) (_filepath st)
    (_temporal_keywords st).

(** Methods run in a state-and-exception monad over the manager. *)
Definition M (A : Type) : Type := Manager → result A * Manager.

Definition mbindM {A B} (m : M A) (k : A → M B) : M B :=
  λ st, match m st with
        | (Ok a, st') => k a st'
        | (Raise e, st') => (Raise e, st')
        end.

#[global] Instance M_ret : MRet M := λ A a st, (Ok a, st).
#[global] Instance M_bind : MBind M := λ A B k m, mbindM m k.

(** an expression that only reads the object *)
Definition lift {A} (r : result A) : M A := λ st, (r, st).

Definition EDITABLE_EXTENSIONS : list pystr := [py "JPG"; py "JPEG"].
Definition READABLE_EXTENSIONS : list pystr := EDITABLE_EXTENSIONS ++ [py "PNG"].

(** [__init__] *)
Definition init (logger : bool) : Manager :=
  mkManager logger [] (PDict ∅) None [].

(** The host: [str.encode('utf-16')] and a mark-less [decode('utf-16')] use
    the platform's native byte order. *)
Class Platform := { big_endian : bool }.

#[global] Instance little_endian_host : Platform := {| big_endian := false |}.

(* ===================================================================== *)
(** * baseclass.py: PrivateTools *)
(* ===================================================================== *)

(** The loop of [_load_metadata] over the items of [img.info]. *)
Fixpoint load_items (w : World) (items : list (pystr * pyval)) (data_dict : pydict)
  : result pydict :=
  match items with
  | [] => Ok data_dict
  | (kwd, raw) :: rest =>
      match piexif_load w raw with
      | Ok loaded => load_items w rest (<[KStr kwd := loaded]> data_dict)
      | Raise e =>
          if is_OSError e || is_TypeError e || is_ValueError e
          then load_items w rest (<[KStr kwd := raw]> data_dict)
          else if is_StructError e
          then load_items w rest (<[KStr kwd := PDict ∅]> data_dict)
          else Raise e
      end
  end.

Definition _load_metadata (w : World) (file2load : Path) : result pydict :=
  info ← image_open w file2load;
  load_items w info ∅.

(** [for kwd in list(data_dict.keys()): if kwd != 'exif': exif_dict[kwd] = data_dict[kwd]] *)
Fixpoint merge_items (items : list (pykey * pyval)) (exif_dict : pyval)
  : result pyval :=
  match items with
  | [] => Ok exif_dict
  | (kwd, v) :: rest =>
      if bool_decide (kwd ≠ KStr (py "exif"))
      then exif_dict' ← py_setitem exif_dict kwd v; merge_items rest exif_dict'
      else merge_items rest exif_dict
  end.

(** [for kwd in kwds2add: if kwd not in exif_dict: exif_dict[kwd] = {}] *)
Fixpoint add_basic (kwds2add : list pystr) (exif_dict : pyval) : result pyval :=
  match kwds2add with
  | [] => Ok exif_dict
  | kwd :: rest =>
      present ← py_contains (KStr kwd) exif_dict;
      if (present : bool) then add_basic rest exif_dict
      else exif_dict' ← py_setitem exif_dict (KStr kwd) (PDict ∅);
           add_basic rest exif_dict'
  end.

Definition basic_keywords : list pystr := [py "Exif"; py "0th"; py "1st"; py "GPS"].

Definition _load_exif_data (w : World) (file2load : Path) (add_basic_keywords : bool)
  : result pyval :=
  data_dict ← _load_metadata w file2load;
  let exif_dict :=
    match data_dict !! KStr (py "exif") with
    | Some v => v
    | None => PDict ∅
    end in
  exif_dict ← merge_items (map_to_list data_dict) exif_dict;
  if add_basic_keywords then add_basic basic_keywords exif_dict else Ok exif_dict.

(** [a[i][j]] *)
Definition getitem2 (a : pyval) (i j : pykey) : result pyval :=
  x ← py_getitem a i; py_getitem x j.

Section Manager.
Context {C : Convert} {P : Platform}.

Definition _gps2val (gps_metadata_tuple : pyval) (zone_positive : bool) : result Q :=
  n ← getitem2 gps_metadata_tuple (KInt 0) (KInt 0);
  d ← getitem2 gps_metadata_tuple (KInt 0) (KInt 1);
  degs ← py_truediv n d;
  n ← getitem2 gps_metadata_tuple (KInt 1) (KInt 0);
  d ← getitem2 gps_metadata_tuple (KInt 1) (KInt 1);
  mins ← py_truediv n d;
  n ← getitem2 gps_metadata_tuple (KInt 2) (KInt 0);
  d ← getitem2 gps_metadata_tuple (KInt 2) (KInt 1);
  secs ← py_truediv n d;
  Ok (dms_zone2deg degs mins secs zone_positive).

(* =================================================================== *)
(** * pilexifmgr.py: PilExifManager *)
(* =================================================================== *)

(** [self.metadata[ifd][tag]] *)
Definition tag_value (st : Manager) (ifd : pystr) (tag : Z) : result pyval :=
  getitem2 (metadata st) (KStr ifd) (KInt tag).

(** [self.metadata[ifd][tag] = v]: the dictionary under [ifd] is updated.
    A [Manager] holds its dictionaries by value, so this is the assignment
    of the code when the dictionary under [ifd] is no other entry's
    dictionary; [Objects.store_tag] is the assignment on dictionary
    objects. *)
Definition store_tag (ifd : pystr) (tag : Z) (v : pyval) : M unit :=
  λ st,
    match (x ← py_getitem (metadata st) (KStr ifd);
           x' ← py_setitem x (KInt tag) v;
           py_setitem (metadata st) (KStr ifd) x') with
    | Ok md => (Ok tt, with_metadata md st)
    | Raise e => (Raise e, st)
    end.

Definition get_gps_data (st : Manager) : result (Q * Q * Q * bool) :=
  meta_dat ← tag_value st (py "GPS") piexif.GPSIFD.GPSLatitude;
  zbn ← tag_value st (py "GPS") piexif.GPSIFD.GPSLatitudeRef;
  let zone_positive := eq_bytes zbn (pyb "N") in
  lat ← _gps2val meta_dat zone_positive;
  meta_dat ← tag_value st (py "GPS") piexif.GPSIFD.GPSLongitude;
  zbn ← tag_value st (py "GPS") piexif.GPSIFD.GPSLongitudeRef;
  let zone_positive := eq_bytes zbn (pyb "E") in
  lon ← _gps2val meta_dat zone_positive;
  meta_dat ← tag_value st (py "GPS") piexif.GPSIFD.GPSAltitude;
  alt_ref ← tag_value st (py "GPS") piexif.GPSIFD.GPSAltitudeRef;
  n ← py_getitem meta_dat (KInt 0);
  d ← py_getitem meta_dat (KInt 1);
  alt ← py_truediv n d;
  let msl := eq_int alt_ref 1 in
  Ok (lat, lon, alt, msl).

(** [try: self.get_gps_data(); return True / except KeyError: pass;
    return False] *)
Definition has_gps_data (st : Manager) : result bool :=
  match get_gps_data st with
  | Ok _ => Ok true
  | Raise KeyError => Ok false
  | Raise e => Raise e
  end.

Definition has_date_original (st : Manager) : result bool :=
  exif ← py_getitem (metadata st) (KStr (py "Exif"));
  py_contains (KInt piexif.ExifIFD.DateTimeOriginal) exif.

Definition has_date_digitized (st : Manager) : result bool :=
  exif ← py_getitem (metadata st) (KStr (py "Exif"));
  py_contains (KInt piexif.ExifIFD.DateTimeDigitized) exif.

(** [datetime.datetime(1, 1, 1)] *)
Definition sentinel : datetime := mkDatetime 1 1 1 0 0 0.

(** [try: return str2datetime(dttkn.decode('utf-8'), ":", " ", ":") /
    except ValueError: return datetime(1, 1, 1)] *)
Definition parse_date (dttkn : pyval) : result datetime :=
  match (s ← py_decode_utf8 dttkn; str2datetime s (py ":") (py " ") (py ":")) with
  | Ok dt => Ok dt
  | Raise e => if is_ValueError e then Ok sentinel else Raise e
  end.

Definition get_date_original (st : Manager) : result datetime :=
  dttkn ← tag_value st (py "Exif") piexif.ExifIFD.DateTimeOriginal;
  parse_date dttkn.

Definition get_date_digitized (st : Manager) : result datetime :=
  dttkn ← tag_value st (py "Exif") piexif.ExifIFD.DateTimeDigitized;
  parse_date dttkn.

Definition has_valid_date_original (st : Manager) : result bool :=
  has ← has_date_original st;
  if (has : bool) then dt ← get_date_original st; Ok (negb (year dt =? 1))
  else Ok false.

Definition has_valid_date_digitized (st : Manager) : result bool :=
  has ← has_date_digitized st;
  if (has : bool) then dt ← get_date_digitized st; Ok (negb (year dt =? 1))
  else Ok false.

Definition reading_err_msg (file : Path) : pystr :=
  py "File '" ++ name file ++ py "' not compatible with metadata reading"
    ++ py " [Compatible Formats = ('JPG', 'JPEG', 'PNG')]".

Definition load_file (w : World) (file : Path) : M unit :=
  λ st,
    let st := if _log_enabled st then with_log (LogLoading file) st else st in
    if negb (bool_decide (upper (drop 1 (suffix file)) ∈ READABLE_EXTENSIONS))
    then (Raise (AssertionError (reading_err_msg file)), st)
    else
      let st := mkManager (_log_enabled st) (log st) (metadata st) (Some file) [] in
      match _load_exif_data w file true with
      | Ok md => (Ok tt, with_metadata md st)
      | Raise e => (Raise e, st)
      end.

Definition writing_err_msg : pystr :=
  py "File not compatible with metadata writing"
    ++ py " [Compatible Formats = ('JPG', 'JPEG')]".

Definition save_file (w : World) (filename : pystr) (overwrite : bool) : M unit :=
  λ st,
    match _filepath st with
    | None => (Raise (AssertionError []), st)
    | Some fp =>
        let sfx := upper (drop 1 (suffix fp)) in
        if negb (bool_decide (sfx ∉ EDITABLE_EXTENSIONS))
        then (Raise (AssertionError writing_err_msg), st)
        else
          match piexif_dump w (metadata st) with
          | Raise e => (Raise e, st)
          | Ok exif_bytes =>
              let base_path := parent fp in
              let output_file :=
                if bool_decide (filename ≠ []) then joinpath base_path filename
                else fp in
              let output_file :=
                if negb overwrite then itername w output_file else output_file in
              let st :=
                if _log_enabled st
                then with_log (LogWriting (name output_file) (parent output_file)) st
                else st in
              (piexif_insert w exif_bytes fp output_file, st)
          end
    end.

Definition clear_metadata : M unit :=
  λ st, (Ok tt, with_metadata (PDict ∅) st).

(** [has0th and (tag in self.metadata['0th'])], with
    [has0th = '0th' in self.metadata] *)
Definition has_0th_tag (st : Manager) (tag : Z) : result bool :=
  has0th ← py_contains (KStr (py "0th")) (metadata st);
  if (has0th : bool)
  then ifd ← py_getitem (metadata st) (KStr (py "0th")); py_contains (KInt tag) ifd
  else Ok false.

Definition get_keywords (st : Manager) : result (list pystr) :=
  let kwd_idx := piexif.ImageIFD.XPKeywords in
  present ← has_0th_tag st kwd_idx;
  if (present : bool) then
    v ← tag_value st (py "0th") kwd_idx;
    tags_bytes ← py_bytes v;
    decoded ← of_option UnicodeDecodeError (utf16_decode big_endian tags_bytes);
    tags_str ← seq_index (split_once 0%N decoded) 0;
    Ok (split 0x3B%N tags_str)
  else Ok [].

Definition get_camera_maker (st : Manager) : result pyval :=
  present ← has_0th_tag st piexif.ImageIFD.Make;
  if (present : bool) then tag_value st (py "0th") piexif.ImageIFD.Make
  else Ok (PStr []).

Definition get_camera_model (st : Manager) : result pyval :=
  present ← has_0th_tag st piexif.ImageIFD.Model;
  if (present : bool) then tag_value st (py "0th") piexif.ImageIFD.Model
  else Ok (PStr []).

Definition get_description (st : Manager) : result pyval :=
  let idx_dsc := piexif.ImageIFD.ImageDescription in
  present ← has_0th_tag st idx_dsc;
  if (present : bool) then tag_value st (py "0th") idx_dsc
  else Ok (PStr []).

Definition get_copyright (st : Manager) : result pyval :=
  let idx_cpr := piexif.ImageIFD.Copyright in
  present ← has_0th_tag st idx_cpr;
  if (present : bool) then tag_value st (py "0th") idx_cpr
  else Ok (PStr []).

Definition set_date_original (new_datetime : datetime) : M unit :=
  let datetime2add := datetime2str new_datetime (py ":") (py " ") (py ":") in
  store_tag (py "Exif") piexif.ExifIFD.SubSecTimeOriginal (PBytes (pyb "00"));;
  v ← lift (py_encode_utf8 datetime2add);
  store_tag (py "Exif") piexif.ExifIFD.DateTimeOriginal v.

Definition set_date_digitized (new_datetime : datetime) : M unit :=
  let datetime2add := datetime2str new_datetime (py ":") (py " ") (py ":") in
  store_tag (py "Exif") piexif.ExifIFD.SubSecTimeDigitized (PBytes (pyb "00"));;
  v ← lift (py_encode_utf8 datetime2add);
  store_tag (py "Exif") piexif.ExifIFD.DateTimeDigitized v.

Definition set_artist (artist : pystr) : M unit :=
  v ← lift (py_encode_utf8 artist);
  store_tag (py "0th") piexif.ImageIFD.Artist v.

Definition set_camera_maker (camera_maker : pystr) : M unit :=
  v ← lift (py_encode_utf8 camera_maker);
  store_tag (py "0th") piexif.ImageIFD.Make v.

Definition set_camera_model (camera_model : pystr) : M unit :=
  v ← lift (py_encode_utf8 camera_model);
  store_tag (py "0th") piexif.ImageIFD.Model v.

Definition set_copyright (img_copyright : pystr) : M unit :=
  v ← lift (py_encode_utf8 img_copyright);
  store_tag (py "0th") piexif.ImageIFD.Copyright v.

(** the default of [version] is ["0220"] *)
Definition set_exif_version (version : pystr) : M unit :=
  v ← lift (py_encode_utf8 version);
  store_tag (py "Exif") piexif.ExifIFD.ExifVersion v.

Definition set_software (software : pystr) : M unit :=
  v ← lift (py_encode_utf8 software);
  store_tag (py "0th") piexif.ImageIFD.Software v.

Definition set_orientation (orientation : Z) : M unit :=
  store_tag (py "0th") piexif.ImageIFD.Orientation (PInt orientation).

(** [(a, 1)], [(int(x * 100), 100)].  The product is exact here and
    rounded in the code, and [int] raises there on an infinite float or a
    NaN: the theorems about the stored pair ask that [x * 100] be a whole
    number ([exact_hundredths]). *)
Definition whole (a : Z) : pyval := PTuple [PInt a; PInt 1].
Definition hundredths (x : Q) : pyval :=
  PTuple [PInt (int_of_float (x * inject_Z 100)%Q); PInt 100].

Definition set_gps_data (lat lon alt : Q) (mean_sea_level : bool) : M unit :=
  let '(lat_d, lat_m, lat_s, lat_z) := deg2dms_zone lat (py "N", py "S") in
  let '(lon_d, lon_m, lon_s, lon_z) := deg2dms_zone lon (py "E", py "W") in
  let gps_lat := PTuple [whole lat_d; whole lat_m; hundredths lat_s] in
  let gps_log := PTuple [whole lon_d; whole lon_m; hundredths lon_s] in
  store_tag (py "GPS") piexif.GPSIFD.GPSVersionID
    (PTuple [PInt 2; PInt 2; PInt 0; PInt 0]);;
  store_tag (py "GPS") piexif.GPSIFD.GPSAltitudeRef
    (PInt (if mean_sea_level then 1 else 0));;
  store_tag (py "GPS") piexif.GPSIFD.GPSLatitudeRef (PStr lat_z);;
  store_tag (py "GPS") piexif.GPSIFD.GPSLongitudeRef (PStr lon_z);;
  store_tag (py "GPS") piexif.GPSIFD.GPSLatitude gps_lat;;
  store_tag (py "GPS") piexif.GPSIFD.GPSLongitude gps_log;;
  store_tag (py "GPS") piexif.GPSIFD.GPSAltitude (hundredths alt).

(** [keywords] is a list of strs ([assert isinstance(keywords, list)]) *)
Definition add_keywords (keywords : list pystr) (overwrite : bool) : M unit :=
  λ st,
    let new_keywords :=
      if negb overwrite then
        let new_keys2add :=
          filter (λ kwd, kwd ∉ _temporal_keywords st) keywords in
        join (py ";") (_temporal_keywords st ++ new_keys2add)
      else join (py ";") keywords in
    match utf16_encode big_endian new_keywords with
    | None => (Raise UnicodeEncodeError, st)
    | Some utf16_keywords =>
        store_tag (py "0th") piexif.ImageIFD.XPKeywords (PBytes utf16_keywords) st
    end.

End Manager.

(* ===================================================================== *)
(** * Calls on a manager, reachable states, and well-formed metadata *)
(* ===================================================================== *)

(** The mutators of tag entries, with their arguments. *)
Inductive Setter :=
| SetDateOriginal (new_datetime : datetime)
| SetDateDigitized (new_datetime : datetime)
| SetArtist (artist : pystr)
| SetCameraMaker (camera_maker : pystr)
| SetCameraModel (camera_model : pystr)
| SetCopyright (img_copyright : pystr)
| SetExifVersion (version : pystr)
| SetSoftware (software : pystr)
| SetOrientation (orientation : Z)
| SetGpsData (lat lon alt : Q) (mean_sea_level : bool)
| AddKeywords (keywords : list pystr) (overwrite : bool).

(** The IFD a setter writes to. *)
Definition target_ifd (s : Setter) : pystr :=
  match s with
  | SetDateOriginal _ | SetDateDigitized _ | SetExifVersion _ => py "Exif"
  | SetGpsData _ _ _ _ => py "GPS"
  | _ => py "0th"
  end.

(** The tags a setter writes. *)
Definition own_tags (s : Setter) : list Z :=
  match s with
  | SetDateOriginal _ =>
      [piexif.ExifIFD.SubSecTimeOriginal; piexif.ExifIFD.DateTimeOriginal]
  | SetDateDigitized _ =>
      [piexif.ExifIFD.SubSecTimeDigitized; piexif.ExifIFD.DateTimeDigitized]
  | SetArtist _ => [piexif.ImageIFD.Artist]
  | SetCameraMaker _ => [piexif.ImageIFD.Make]
  | SetCameraModel _ => [piexif.ImageIFD.Model]
  | SetCopyright _ => [piexif.ImageIFD.Copyright]
  | SetExifVersion _ => [piexif.ExifIFD.ExifVersion]
  | SetSoftware _ => [piexif.ImageIFD.Software]
  | SetOrientation _ => [piexif.ImageIFD.Orientation]
  | SetGpsData _ _ _ _ =>
      [piexif.GPSIFD.GPSVersionID; piexif.GPSIFD.GPSAltitudeRef;
       piexif.GPSIFD.GPSLatitudeRef; piexif.GPSIFD.GPSLongitudeRef;
       piexif.GPSIFD.GPSLatitude; piexif.GPSIFD.GPSLongitude;
       piexif.GPSIFD.GPSAltitude]
  | AddKeywords _ _ => [piexif.ImageIFD.XPKeywords]
  end.

(** Any operation a client can perform on the object: a method call or an
    assignment to the public attribute [metadata]. *)
Inductive Call :=
| CallSetter (s : Setter)
| CallLoadFile (w : World) (file : Path)
| CallSaveFile (w : World) (filename : pystr) (overwrite : bool)
| CallClearMetadata
| AssignMetadata (md : pyval).

Section Calls.
Context {C : Convert} {P : Platform}.

Definition run_setter (s : Setter) : M unit :=
  match s with
  | SetDateOriginal dt => set_date_original dt
  | SetDateDigitized dt => set_date_digitized dt
  | SetArtist a => set_artist a
  | SetCameraMaker a => set_camera_maker a
  | SetCameraModel a => set_camera_model a
  | SetCopyright a => set_copyright a
  | SetExifVersion a => set_exif_version a
  | SetSoftware a => set_software a
  | SetOrientation o => set_orientation o
  | SetGpsData lat lon alt msl => set_gps_data lat lon alt msl
  | AddKeywords kws ow => add_keywords kws ow
  end.

Definition run_call (c : Call) : M unit :=
  match c with
  | CallSetter s => run_setter s
  | CallLoadFile w file => load_file w file
  | CallSaveFile w filename overwrite => save_file w filename overwrite
  | CallClearMetadata => clear_metadata
  | AssignMetadata md => λ st, (Ok tt, with_metadata md st)
  end.

(** The states a manager can be in: those produced from a fresh object
    by any sequence of calls, whether they return or raise. *)
Inductive reachable : Manager → Prop :=
| reach_init logger : reachable (init logger)
| reach_call st c : reachable st → reachable (snd (run_call c st)).

(** [frame ifd tags st st']: going from [st] to [st'], only the entries
    [tags] of [metadata[ifd]] may have changed. *)
Definition frame (ifd : pystr) (tags : list Z) (st st' : Manager) : Prop :=
  (∀ k, k ≠ KStr ifd →
        py_getitem (metadata st') k = py_getitem (metadata st) k)
  ∧ (∀ t, t ∉ (KInt <$> tags) →
          getitem2 (metadata st') (KStr ifd) t = getitem2 (metadata st) (KStr ifd) t)
  ∧ _log_enabled st' = _log_enabled st
  ∧ log st' = log st
  ∧ _filepath st' = _filepath st
  ∧ _temporal_keywords st' = _temporal_keywords st.

End Calls.

Definition is_dict (v : pyval) : bool :=
  match v with PDict _ => true | _ => false end.

(** The metadata that [_load_exif_data] builds from the loaded items
    [data_dict] when the 'exif' item is a dictionary [exif] (or is missing,
    [exif] then being empty): the other items, then the entries of [exif],
    then an empty dictionary for each basic keyword still missing. *)
Definition merged_lookup (data_dict exif : pydict) (k : pykey) : option pyval :=
  let merged :=
    if decide (k = KStr (py "exif")) then exif !! k
    else match data_dict !! k with
         | Some v => Some v
         | None => exif !! k
         end in
  match merged with
  | Some v => Some v
  | None => if decide (k ∈ KStr <$> basic_keywords) then Some (PDict ∅) else None
  end.

(** An EXIF rational as piexif holds it: a pair of 32-bit ints with a
    non-zero denominator. *)
Definition is_rational (v : pyval) : bool :=
  match v with
  | PTuple [PInt n; PInt d] =>
      (Z.abs n <? 2 ^ 32) && negb (d =? 0) && (Z.abs d <? 2 ^ 32)
  | _ => false
  end.

Definition is_rational3 (v : pyval) : bool :=
  match v with
  | PTuple [a; b; c] => is_rational a && is_rational b && is_rational c
  | _ => false
  end.

Definition six_gps_tags : list Z :=
  [piexif.GPSIFD.GPSLatitude; piexif.GPSIFD.GPSLatitudeRef;
   piexif.GPSIFD.GPSLongitude; piexif.GPSIFD.GPSLongitudeRef;
   piexif.GPSIFD.GPSAltitude; piexif.GPSIFD.GPSAltitudeRef].

(** The metadata contains 'GPS', mapped to a tag dictionary that holds all
    six tags read by [get_gps_data]. *)
Definition gps_tags_present (st : Manager) : bool :=
  match metadata st with
  | PDict m =>
      match m !! KStr (py "GPS") with
      | Some (PDict d) =>
          forallb (λ t, bool_decide (is_Some (d !! KInt t))) six_gps_tags
      | _ => false
      end
  | _ => false
  end.

Definition check_tag (d : pydict) (tag : Z) (ok : pyval → bool) : bool :=
  match d !! KInt tag with
  | Some v => ok v
  | None => true
  end.

(** The metadata is a dictionary; 'GPS', when present, is a tag dictionary
    whose latitude and longitude, when present, are triples of rationals
    and whose altitude, when present, is a rational. *)
Definition gps_well_formed (st : Manager) : bool :=
  match metadata st with
  | PDict m =>
      match m !! KStr (py "GPS") with
      | None => true
      | Some (PDict d) =>
          check_tag d piexif.GPSIFD.GPSLatitude is_rational3
          && check_tag d piexif.GPSIFD.GPSLongitude is_rational3
          && check_tag d piexif.GPSIFD.GPSAltitude is_rational
      | Some _ => false
      end
  | _ => false
  end.

(** The metadata is a dictionary in which '0th', when present, is a tag
    dictionary. *)
Definition ifd0_well_formed (st : Manager) : bool :=
  match metadata st with
  | PDict m =>
      match m !! KStr (py "0th") with
      | None | Some (PDict _) => true
      | Some _ => false
      end
  | _ => false
  end.

(** The XPKeywords entry, when there is one, converts to bytes that are
    well-formed UTF-16. *)
Definition keywords_decodable {P : Platform} (st : Manager) : bool :=
  match getitem2 (metadata st) (KStr (py "0th")) (KInt piexif.ImageIFD.XPKeywords) with
  | Ok v =>
      match py_bytes v with
      | Ok b => bool_decide (is_Some (utf16_decode big_endian b))
      | Raise _ => false
      end
  | Raise _ => true
  end.

(** A Unicode scalar value: a code point that is not a surrogate. *)
Definition scalar (c : N) : Prop := (c < 0x110000)%N ∧ is_surrogate c = false.

(** A keyword that survives the encoding: a str of scalar values without
    ';' and without NUL. *)
Definition plain_keyword (k : pystr) : Prop :=
  Forall (λ c, scalar c ∧ c ≠ 0x3B%N ∧ c ≠ 0%N) k.

(** [parses_as v dt]: the value [v] is a bytes object that decodes (UTF-8) to
    a str which the conversion module parses as the datetime [dt]. *)
Definition parses_as {C : Convert} (v : pyval) (dt : datetime) : Prop :=
  ∃ b s, v = PBytes b ∧ utf8_decode b = Some s
         ∧ str2datetime s (py ":") (py " ") (py ":") = Ok dt.

(* ===================================================================== *)
(** * Sample states and worlds *)
(* ===================================================================== *)

Module Samples.

(** the metadata of a file without EXIF data, as [load_file] leaves it *)
Definition blank_metadata : pyval :=
  PDict (<[KStr (py "Exif") := PDict ∅]>
        (<[KStr (py "0th") := PDict ∅]>
        (<[KStr (py "1st") := PDict ∅]>
        (<[KStr (py "GPS") := PDict ∅]> ∅)))).

Definition blank : Manager :=
  mkManager false [] blank_metadata (Some (mkPath (py "/photos") (py "a.jpg"))) [].

(** a DateTimeOriginal entry that is not a date *)
Definition undated : Manager :=
  with_metadata
    (PDict {[ KStr (py "Exif") :=
                PDict {[ KInt piexif.ExifIFD.DateTimeOriginal :=
                           PBytes (pyb "no date at all") ]} ]})
    blank.


Definition rational (n d : Z) : pyval := PTuple [PInt n; PInt d].

(** GPS tags as piexif loads them: 40 deg 26' 46.00" N, 79 deg 58' 56.00" W,
    altitude 372.50 *)
Definition located : Manager :=
  with_metadata
    (PDict {[ KStr (py "GPS") :=
                PDict (<[KInt piexif.GPSIFD.GPSLatitudeRef := PBytes (pyb "N")]>
                      (<[KInt piexif.GPSIFD.GPSLatitude :=
                           PTuple [rational 40 1; rational 26 1; rational 4600 100]]>
                      (<[KInt piexif.GPSIFD.GPSLongitudeRef := PBytes (pyb "W")]>
                      (<[KInt piexif.GPSIFD.GPSLongitude :=
                           PTuple [rational 79 1; rational 58 1; rational 5600 100]]>
                      (<[KInt piexif.GPSIFD.GPSAltitudeRef := PInt 0]>
                      (<[KInt piexif.GPSIFD.GPSAltitude := rational 37250 100]> ∅)))))) ]})
    blank.

(** GPS tags written by a receiver without a fix: every rational is 0/0 *)
Definition without_fix : Manager :=
  with_metadata
    (PDict {[ KStr (py "GPS") :=
                PDict (<[KInt piexif.GPSIFD.GPSLatitudeRef := PBytes (pyb "N")]>
                      (<[KInt piexif.GPSIFD.GPSLatitude :=
                           PTuple [rational 0 0; rational 0 0; rational 0 0]]>
                      (<[KInt piexif.GPSIFD.GPSLongitudeRef := PBytes (pyb "E")]>
                      (<[KInt piexif.GPSIFD.GPSLongitude :=
                           PTuple [rational 0 0; rational 0 0; rational 0 0]]>
                      (<[KInt piexif.GPSIFD.GPSAltitudeRef := PInt 0]>
                      (<[KInt piexif.GPSIFD.GPSAltitude := rational 0 0]> ∅)))))) ]})
    blank.


(** an XPKeywords entry of odd length, as piexif loads a damaged tag *)
Definition truncated_keywords : Manager :=
  with_metadata
    (PDict {[ KStr (py "0th") :=
                PDict {[ KInt piexif.ImageIFD.XPKeywords :=
                           PTuple [PInt 115; PInt 0; PInt 101] ]} ]})
    blank.

(** a PNG whose text chunk is named '0th': the entry is a str *)
Definition textual_0th : Manager :=
  with_metadata (PDict {[ KStr (py "0th") := PStr (py "a note") ]}) blank.


Definition photo : Path := mkPath (py "/photos") (py "a.jpg").
Definition scan : Path := mkPath (py "/photos") (py "scan.png").

(** what piexif makes of the EXIF block of the samples: the five IFDs and
    the thumbnail *)
Definition gps_ifd : pyval :=
  PDict {[ KInt piexif.GPSIFD.GPSLatitudeRef := PBytes (pyb "N") ]}.
Definition exif_block : pydict :=
  <[KStr (py "0th") := PDict {[ KInt piexif.ImageIFD.Make := PBytes (pyb "Canon") ]}]>
    (<[KStr (py "Exif") := PDict ∅]>
    (<[KStr (py "GPS") := gps_ifd]>
    (<[KStr (py "Interop") := PDict ∅]>
    (<[KStr (py "1st") := PDict ∅]>
    (<[KStr (py "thumbnail") := PNone]> ∅))))).

(** [piexif.load]: bytes are parsed; a str is taken for a file name, and
    there is no such file; anything else cannot be sliced *)
Definition load_block (v : pyval) : result pyval :=
  match v with
  | PBytes _ => Ok (PDict exif_block)
  | PStr _ => Raise OSError
  | _ => Raise TypeError
  end.

(** a JPEG with a JFIF header and an EXIF block *)
Definition jpeg_world : World :=
  mkWorld (λ _, Ok [(py "jfif", PInt 257); (py "exif", PBytes (pyb "Exif"))])
    load_block (λ _, Ok []) (λ _ _ _, Ok tt) (λ p, p).


(** a PNG without EXIF data: its only item is the resolution *)
Definition bare_world : World :=
  mkWorld (λ _, Ok [(py "dpi", PTuple [PInt 72; PInt 72])])
    load_block (λ _, Ok []) (λ _ _ _, Ok tt) (λ p, p).

End Samples.

(* ===================================================================== *)
(** * Dictionary objects and sharing *)
(* ===================================================================== *)

(** [self.metadata[ifd][tag] = v] assigns into the dictionary object that
    [self.metadata[ifd]] evaluates to: a dictionary stored under several keys
    changes under all of them.  [Manager] holds every dictionary by value, and
    so describes the states in which no dictionary object is shared.  The
    model below gives dictionaries an identity: a value is either held in one
    place only, or it is a reference to a dictionary object, which any number
    of entries may hold and which is updated in place. *)
Module Objects.

(** [Imm v]: the value [v], held in this place only (its dictionaries, if
    any, are no one else's).  [Ref l]: the dictionary object at location
    [l]. *)
Inductive oval :=
| Imm (v : pyval)
| Ref (l : positive).

(** The dictionary objects, by location. *)
Definition heap : Type := positive → gmap pykey oval.

(** [h] with the object at [l] replaced by [d] *)
Definition update_object (l : positive) (d : gmap pykey oval) (h : heap) : heap :=
  λ l', if decide (l' = l) then d else h l'.

Record Manager := mkManager {
  _log_enabled : bool;
  log : list LogRecord;
  metadata : oval;
  _filepath : option Path;
  _temporal_keywords : list pystr;
  objects : heap
}.

Definition with_metadata (md : oval) (st : Manager) : Manager :=
  mkManager (_log_enabled st) (log st) md (_filepath st) (_temporal_keywords st)
    (objects st).

Definition with_objects (h : heap) (st : Manager) : Manager :=
  mkManager (_log_enabled st) (log st) (metadata st) (_filepath st)
    (_temporal_keywords st) h.

Definition M (A : Type) : Type := Manager → result A * Manager.

Definition mbindM {A B} (m : M A) (k : A → M B) : M B :=
  λ st, match m st with
        | (Ok a, st') => k a st'
        | (Raise e, st') => (Raise e, st')
        end.

#[global] Instance M_ret : MRet M := λ A a st, (Ok a, st).
#[global] Instance M_bind : MBind M := λ A B k m, mbindM m k.

Definition lift {A} (r : result A) : M A := λ st, (r, st).

(** [v[k]] *)
Definition lookup_item (h : heap) (v : oval) (k : pykey) : result oval :=
  match v with
  | Imm x => x' ← py_getitem x k; Ok (Imm x')
  | Ref l => of_option KeyError (h l !! k)
  end.

(** [self.metadata[k]] and [self.metadata[k][t]] *)
Definition entry (st : Manager) (k : pykey) : result oval :=
  lookup_item (objects st) (metadata st) k.

Definition entry2 (st : Manager) (k t : pykey) : result oval :=
  x ← entry st k; lookup_item (objects st) x t.

Section Manager.
Context {C : Convert} {P : Platform}.

(** [self.metadata[ifd][tag]] *)
Definition tag_value (st : Manager) (ifd : pystr) (tag : Z) : result oval :=
  entry2 st (KStr ifd) (KInt tag).

(** [self.metadata[ifd][tag] = v].  When [self.metadata[ifd]] is a
    dictionary object, that object is updated, whoever else holds it; a
    dictionary held by value is updated where it is held. *)
Definition store_tag (ifd : pystr) (tag : Z) (v : pyval) : M unit :=
  λ st,
    match metadata st with
    | Imm md =>
        match (x ← py_getitem md (KStr ifd);
               x' ← py_setitem x (KInt tag) v;
               py_setitem md (KStr ifd) x') with
        | Ok md' => (Ok tt, with_metadata (Imm md') st)
        | Raise e => (Raise e, st)
        end
    | Ref l0 =>
        match objects st l0 !! KStr ifd with
        | None => (Raise KeyError, st)
        | Some (Imm x) =>
            match py_setitem x (KInt tag) v with
            | Ok x' =>
                (Ok tt,
                 with_objects
                   (update_object l0 (<[KStr ifd := Imm x']> (objects st l0))
                      (objects st)) st)
            | Raise e => (Raise e, st)
            end
        | Some (Ref l) =>
            (Ok tt,
             with_objects
               (update_object l (<[KInt tag := Imm v]> (objects st l)) (objects st)) st)
        end
    end.

Definition set_date_original (new_datetime : datetime) : M unit :=
  let datetime2add := datetime2str new_datetime (py ":") (py " ") (py ":") in
  store_tag (py "Exif") piexif.ExifIFD.SubSecTimeOriginal (PBytes (pyb "00"));;
  v ← lift (py_encode_utf8 datetime2add);
  store_tag (py "Exif") piexif.ExifIFD.DateTimeOriginal v.

Definition set_date_digitized (new_datetime : datetime) : M unit :=
  let datetime2add := datetime2str new_datetime (py ":") (py " ") (py ":") in
  store_tag (py "Exif") piexif.ExifIFD.SubSecTimeDigitized (PBytes (pyb "00"));;
  v ← lift (py_encode_utf8 datetime2add);
  store_tag (py "Exif") piexif.ExifIFD.DateTimeDigitized v.

Definition set_artist (artist : pystr) : M unit :=
  v ← lift (py_encode_utf8 artist);
  store_tag (py "0th") piexif.ImageIFD.Artist v.

Definition set_camera_maker (camera_maker : pystr) : M unit :=
  v ← lift (py_encode_utf8 camera_maker);
  store_tag (py "0th") piexif.ImageIFD.Make v.

Definition set_camera_model (camera_model : pystr) : M unit :=
  v ← lift (py_encode_utf8 camera_model);
  store_tag (py "0th") piexif.ImageIFD.Model v.

Definition set_copyright (img_copyright : pystr) : M unit :=
  v ← lift (py_encode_utf8 img_copyright);
  store_tag (py "0th") piexif.ImageIFD.Copyright v.

Definition set_exif_version (version : pystr) : M unit :=
  v ← lift (py_encode_utf8 version);
  store_tag (py "Exif") piexif.ExifIFD.ExifVersion v.

Definition set_software (software : pystr) : M unit :=
  v ← lift (py_encode_utf8 software);
  store_tag (py "0th") piexif.ImageIFD.Software v.

Definition set_orientation (orientation : Z) : M unit :=
  store_tag (py "0th") piexif.ImageIFD.Orientation (PInt orientation).

Definition set_gps_data (lat lon alt : Q) (mean_sea_level : bool) : M unit :=
  let '(lat_d, lat_m, lat_s, lat_z) := deg2dms_zone lat (py "N", py "S") in
  let '(lon_d, lon_m, lon_s, lon_z) := deg2dms_zone lon (py "E", py "W") in
  let gps_lat := PTuple [whole lat_d; whole lat_m; hundredths lat_s] in
  let gps_log := PTuple [whole lon_d; whole lon_m; hundredths lon_s] in
  store_tag (py "GPS") piexif.GPSIFD.GPSVersionID
    (PTuple [PInt 2; PInt 2; PInt 0; PInt 0]);;
  store_tag (py "GPS") piexif.GPSIFD.GPSAltitudeRef
    (PInt (if mean_sea_level then 1 else 0));;
  store_tag (py "GPS") piexif.GPSIFD.GPSLatitudeRef (PStr lat_z);;
  store_tag (py "GPS") piexif.GPSIFD.GPSLongitudeRef (PStr lon_z);;
  store_tag (py "GPS") piexif.GPSIFD.GPSLatitude gps_lat;;
  store_tag (py "GPS") piexif.GPSIFD.GPSLongitude gps_log;;
  store_tag (py "GPS") piexif.GPSIFD.GPSAltitude (hundredths alt).

Definition add_keywords (keywords : list pystr) (overwrite : bool) : M unit :=
  λ st,
    let new_keywords :=
      if negb overwrite then
        let new_keys2add :=
          filter (λ kwd, kwd ∉ _temporal_keywords st) keywords in
        join (py ";") (_temporal_keywords st ++ new_keys2add)
      else join (py ";") keywords in
    match utf16_encode big_endian new_keywords with
    | None => (Raise UnicodeEncodeError, st)
    | Some utf16_keywords =>
        store_tag (py "0th") piexif.ImageIFD.XPKeywords (PBytes utf16_keywords) st
    end.

Definition run_setter (s : Setter) : M unit :=
  match s with
  | SetDateOriginal dt => set_date_original dt
  | SetDateDigitized dt => set_date_digitized dt
  | SetArtist a => set_artist a
  | SetCameraMaker a => set_camera_maker a
  | SetCameraModel a => set_camera_model a
  | SetCopyright a => set_copyright a
  | SetExifVersion a => set_exif_version a
  | SetSoftware a => set_software a
  | SetOrientation o => set_orientation o
  | SetGpsData lat lon alt msl => set_gps_data lat lon alt msl
  | AddKeywords kws ow => add_keywords kws ow
  end.

End Manager.

(** [reach h v l]: the value [v] leads to the dictionary object at [l]: it
    is that object, or a dictionary that holds, at any depth, that object. *)
Inductive reach (h : heap) : oval → positive → Prop :=
| reach_here l : reach h (Ref l) l
| reach_step l k v l' : h l !! k = Some v → reach h v l' → reach h (Ref l) l'.

(** The dictionary under the key [ifd] is not shared: when the metadata is a
    dictionary object, no dictionary holds that object, and the dictionary
    object under [ifd], if it is one, is held by the metadata dictionary under
    [ifd] and by nothing else. *)
Definition unshared (st : Manager) (ifd : pystr) : Prop :=
  ∀ l0, metadata st = Ref l0 →
    (∀ l' k, objects st l' !! k ≠ Some (Ref l0))
    ∧ (∀ l l' k, objects st l0 !! KStr ifd = Some (Ref l) →
                 objects st l' !! k = Some (Ref l) → l' = l0 ∧ k = KStr ifd).

(** [frame ifd tags st st']: going from [st] to [st'], every entry of the
    metadata other than [ifd] is the same value or the same object, holds the
    same entries, and leads to unchanged dictionary objects only; only the
    entries [tags] of [metadata[ifd]] may have changed; and when
    [metadata[ifd]] is a dictionary object it is the only dictionary object
    that may have changed. *)
Definition frame (ifd : pystr) (tags : list Z) (st st' : Manager) : Prop :=
  (∀ k, k ≠ KStr ifd → entry st' k = entry st k)
  ∧ (∀ k t, k ≠ KStr ifd → entry2 st' k t = entry2 st k t)
  ∧ (∀ k v l', k ≠ KStr ifd → entry st k = Ok v → reach (objects st) v l' →
               objects st' l' = objects st l')
  ∧ (∀ t, t ∉ (KInt <$> tags) → entry2 st' (KStr ifd) t = entry2 st (KStr ifd) t)
  ∧ (∀ l, entry st (KStr ifd) = Ok (Ref l) →
          entry st' (KStr ifd) = Ok (Ref l)
          ∧ ∀ l', l' ≠ l → objects st' l' = objects st l')
  ∧ _log_enabled st' = _log_enabled st
  ∧ log st' = log st
  ∧ _filepath st' = _filepath st
  ∧ _temporal_keywords st' = _temporal_keywords st.

End Objects.

(** A manager that holds every dictionary by value, as a state of the object
    model: nothing is shared. *)
Definition by_value (h : Objects.heap) (st : Manager) : Objects.Manager :=
  Objects.mkManager (_log_enabled st) (log st) (Objects.Imm (metadata st))
    (_filepath st) (_temporal_keywords st) h.

(** [step ifd tags m]: on a state without sharing, [m] keeps the frame and
    shares nothing. *)
Definition step {A} (ifd : pystr) (tags : list Z) (m : Objects.M A) : Prop :=
  ∀ st, Objects.unshared st ifd →
        Objects.frame ifd tags st (snd (m st)) ∧ Objects.unshared (snd (m st)) ifd.

(** [sim m' m]: the method [m'] of the object model does on a by-value
    state what [m] does in the value model. *)
Definition sim {A} (m' : Objects.M A) (m : M A) : Prop :=
  ∀ h st, m' (by_value h st) = (fst (m st), by_value h (snd (m st))).

Module ObjectSamples.

(** [d = {}; metadata = {'0th': d, 'Exif': d, '1st': {}, 'GPS': {}}]: one
    dictionary object under two keys *)
Definition shared_entries : gmap pykey Objects.oval :=
  <[KStr (py "0th") := Objects.Ref 2]>
    (<[KStr (py "Exif") := Objects.Ref 2]>
    (<[KStr (py "1st") := Objects.Ref 3]>
    (<[KStr (py "GPS") := Objects.Ref 4]> ∅))).

Definition shared : Objects.Manager :=
  Objects.mkManager false [] (Objects.Ref 1) None []
    (λ l, if decide (l = 1%positive) then shared_entries else ∅).

(** the metadata of a file without EXIF data: four distinct dictionaries *)
Definition separate_entries : gmap pykey Objects.oval :=
  <[KStr (py "0th") := Objects.Ref 2]>
    (<[KStr (py "Exif") := Objects.Ref 3]>
    (<[KStr (py "1st") := Objects.Ref 4]>
    (<[KStr (py "GPS") := Objects.Ref 5]> ∅))).

Definition separate : Objects.Manager :=
  Objects.mkManager false [] (Objects.Ref 1) None []
    (λ l, if decide (l = 1%positive) then separate_entries else ∅).

End ObjectSamples.

(* ===================================================================== *)
(** * More definitions used by the further properties *)
(* ===================================================================== *)

(** The str that a setter encodes: its text argument, the date as the
    conversion module writes it, or the joined keywords; empty for the
    setters that encode nothing. *)
Definition encoded_text {C : Convert} (s : Setter) (st : Manager) : pystr :=
  match s with
  | SetDateOriginal dt | SetDateDigitized dt =>
      datetime2str dt (py ":") (py " ") (py ":")
  | SetArtist a | SetCameraMaker a | SetCameraModel a | SetCopyright a
  | SetExifVersion a | SetSoftware a => a
  | SetOrientation _ | SetGpsData _ _ _ _ => []
  | AddKeywords keywords overwrite =>
      if negb overwrite then
        join (py ";")
          (_temporal_keywords st
             ++ filter (λ kwd, kwd ∉ _temporal_keywords st) keywords)
      else join (py ";") keywords
  end.

(** The date setters store the SubSecTime tag before they encode the date;
    every other setter encodes before it stores. *)
Definition stores_first (s : Setter) : bool :=
  match s with
  | SetDateOriginal _ | SetDateDigitized _ => true
  | _ => false
  end.

(** A binary64 floating-point number (a Python float that is finite). *)
Definition binary64 (x : Q) : Prop :=
  ∃ m e : Z, Z.abs m < 2 ^ 53 ∧ -1074 <= e <= 971
             ∧ (x == inject_Z m * (2 # 1) ^ e)%Q.

(** [x] is a float whose hundredfold is the whole number [n], itself a
    float: the product [x * 100] is then exact in floating point, [int]
    of it is [n], and [n / 100] is [x] again. *)
Definition exact_hundredths (x : Q) (n : Z) : Prop :=
  binary64 x ∧ (x * inject_Z 100 == inject_Z n)%Q ∧ Z.abs n < 2 ^ 53.

(** What [_load_metadata] stores for an item [raw] of [img.info]: the
    dictionary piexif loads; the item itself when piexif raises
    UnidentifiedImageError, TypeError, ValueError or OSError; an empty
    dictionary on [struct.error]; nothing ([None]) when piexif raises
    anything else, which [_load_metadata] does not catch. *)
Definition item_value (w : World) (raw : pyval) : option pyval :=
  match piexif_load w raw with
  | Ok loaded => Some loaded
  | Raise e =>
      if is_OSError e || is_TypeError e || is_ValueError e then Some raw
      else if is_StructError e then Some (PDict ∅)
      else None
  end.

Module MoreSamples.

(** a host with the other byte order *)
Definition big_endian_host : Platform := {| big_endian := true |}.

(** a file that is not there: [Image.open] raises FileNotFoundError, an
    OSError *)
Definition missing_world : World :=
  mkWorld (λ _, Raise OSError) Samples.load_block (λ _, Ok []) (λ _ _ _, Ok tt)
    (λ p, p).

(** a JPEG whose EXIF block piexif rejects with a ValueError *)
Definition corrupt_world : World :=
  mkWorld (λ _, Ok [(py "jfif", PInt 257); (py "exif", PBytes (pyb "Exif"))])
    (λ v, match v with PBytes _ => Raise ValueError | _ => Raise TypeError end)
    (λ _, Ok []) (λ _ _ _, Ok tt) (λ p, p).

(** XPKeywords as piexif loads what Windows writes: the UTF-16
    little-endian code units of "sea;sun" and a NUL, as a tuple of ints *)
Definition windows_keywords : Manager :=
  with_metadata
    (PDict {[ KStr (py "0th") :=
                PDict {[ KInt piexif.ImageIFD.XPKeywords :=
                           PTuple (map PInt [115; 0; 101; 0; 97; 0; 59; 0;
                                             115; 0; 117; 0; 110; 0; 0; 0]) ]} ]})
    Samples.blank.

Definition leap_day : datetime := mkDatetime 2020 2 29 10 11 12.

(** a DateTimeOriginal entry that is a str *)
Definition textual_date : Manager :=
  with_metadata
    (PDict {[ KStr (py "Exif") :=
                PDict {[ KInt piexif.ExifIFD.DateTimeOriginal :=
                           PStr (py "2020:02:29 10:11:12") ]} ]})
    Samples.blank.

(** "Caf", e with an acute accent, and a camera emoji *)
Definition accented : pystr := py "Caf" ++ [0xE9%N; 0x20%N; 0x1F4F7%N].

End MoreSamples.

(* ===================================================================== *)
(** * Properties *)
(* ===================================================================== *)

(** Closed decidable facts are settled by evaluation. *)
Ltac by_evaluation :=
  match goal with
  | |- ?G => refine (@bool_decide_unpack G _ _); vm_compute; exact I
  end.

(** Evaluates the list of a [Forall] goal and checks its elements one by
    one. *)
Ltac scalar_values :=
  lazymatch goal with
  | |- Forall ?P ?l =>
      let l' := eval vm_compute in l in
      change (Forall P l'); repeat constructor
  end.

Ltac unfold_monad :=
  unfold mbind, mret, M_bind, M_ret, mbindM, result_bind, result_ret, rbind, lift in *.

(** ** Writing one tag *)

Section StoreTag.
Context {C : Convert} {P : Platform}.

Lemma store_tag_cases ifd tag v st :
  (∃ m d, metadata st = PDict m ∧ m !! KStr ifd = Some (PDict d)
          ∧ store_tag ifd tag v st
            = (Ok tt, with_metadata
                        (PDict (<[KStr ifd := PDict (<[KInt tag := v]> d)]> m)) st))
  ∨ (∃ e, store_tag ifd tag v st = (Raise e, st)).
Proof.
  unfold store_tag. destruct (metadata st) as [| | | | | |m] eqn:Hmd; simpl;
    try (right; eexists; reflexivity).
  unfold_monad. simpl.
  destruct (m !! KStr ifd) as [x|] eqn:Hx; simpl; [|right; eauto].
  destruct x; simpl; try (right; eexists; reflexivity).
  left. eauto.
Qed.

Lemma frame_refl ifd tags st : frame ifd tags st st.
Proof. unfold frame. tauto. Qed.

Lemma frame_trans ifd tags st1 st2 st3 :
  frame ifd tags st1 st2 → frame ifd tags st2 st3 → frame ifd tags st1 st3.
Proof.
  intros (A1 & A2 & A3 & A4 & A5 & A6) (B1 & B2 & B3 & B4 & B5 & B6).
  repeat split; try congruence.
  - intros k Hk. rewrite B1, A1; auto.
  - intros t Ht. rewrite B2, A2; auto.
Qed.

Lemma frame_store_tag ifd tags tag v st :
  tag ∈ tags → frame ifd tags st (snd (store_tag ifd tag v st)).
Proof.
  intros Hin.
  destruct (store_tag_cases ifd tag v st) as [(m & d & Hmd & Hd & ->)|[e ->]];
    [|apply frame_refl].
  simpl. unfold frame. simpl. rewrite Hmd. repeat split; trivial.
  - intros k Hk. simpl. rewrite lookup_insert_ne; congruence.
  - intros t Ht. unfold getitem2. simpl. unfold_monad.
    rewrite lookup_insert_eq, Hd. simpl.
    rewrite lookup_insert_ne; [done|].
    intros <-. apply Ht. apply list_elem_of_fmap. eauto.
Qed.

Lemma frame_bind {A B} ifd tags (m : M A) (k : A → M B) :
  (∀ st, frame ifd tags st (snd (m st))) →
  (∀ a st, frame ifd tags st (snd (k a st))) →
  ∀ st, frame ifd tags st (snd ((m ≫= k) st)).
Proof.
  intros Hm Hk st. unfold_monad. specialize (Hm st).
  destruct (m st) as [[a|e] st']; simpl in *; [|done].
  eapply frame_trans; [exact Hm|apply Hk].
Qed.

Lemma frame_lift {A} ifd tags (r : result A) st :
  frame ifd tags st (snd (lift r st)).
Proof. apply frame_refl. Qed.

Lemma frame_add_keywords kws ow st :
  frame (py "0th") [piexif.ImageIFD.XPKeywords] st (snd (add_keywords kws ow st)).
Proof.
  unfold add_keywords.
  destruct (utf16_encode _ _); [|apply frame_refl].
  apply frame_store_tag. set_solver.
Qed.

Ltac frame_steps :=
  repeat first
    [ apply frame_bind; [|intros ?]
    | intros ?; apply frame_lift
    | intros ?; apply frame_store_tag; set_solver ].

(** Each setter leaves everything but its own tags as it was. *)
Lemma run_setter_frame s st :
  frame (target_ifd s) (own_tags s) st (snd (run_setter s st)).
Proof.
  revert st.
  destruct s as [dt|dt|a|a|a|a|a|a|o|lat lon alt msl|kws ow]; simpl; intros st;
    try (unfold set_date_original, set_date_digitized, set_artist,
           set_camera_maker, set_camera_model, set_copyright, set_exif_version,
           set_software, set_orientation; revert st; frame_steps; fail).
  - unfold set_gps_data.
    destruct (deg2dms_zone lat _) as [[[? ?] ?] ?].
    destruct (deg2dms_zone lon _) as [[[? ?] ?] ?].
    revert st. frame_steps.
  - apply frame_add_keywords.
Qed.

Lemma filter_not_in_nil (l : list pystr) :
  filter (λ kwd, kwd ∉ @nil pystr) l = l.
Proof.
  induction l as [|x l IH]; [done|].
  rewrite filter_cons_True by apply not_elem_of_nil. by rewrite IH.
Qed.

(** No operation appends to the temporal keywords. *)
Lemma reachable_no_temporal_keywords st :
  reachable st → _temporal_keywords st = [].
Proof.
  induction 1 as [|st c Hr IH]; [done|].
  destruct c as [s|w file|w filename overwrite| |md]; simpl.
  - destruct (run_setter_frame s st) as (_ & _ & _ & _ & _ & ->). done.
  - unfold load_file.
    destruct (negb _); [by destruct (_log_enabled st)|].
    by destruct (_load_exif_data _ _ _).
  - unfold save_file. destruct (_filepath st); [|done].
    destruct (negb _); [done|].
    destruct (piexif_dump _ _); [|done].
    by destruct (_log_enabled st).
  - done.
  - done.
Qed.

End StoreTag.

Section SetterClaims.
Context {C : Convert} {P : Platform}.

(** Reading back a tag that was just stored. *)
Lemma store_tag_read ifd tag v st st' :
  store_tag ifd tag v st = (Ok tt, st') →
  tag_value st' ifd tag = Ok v.
Proof.
  destruct (store_tag_cases ifd tag v st) as [(m & d & Hmd & Hd & ->)|[e ->]];
    [|discriminate].
  intros [= <-]. unfold tag_value, getitem2. simpl. unfold_monad.
  rewrite lookup_insert_eq. simpl. by rewrite lookup_insert_eq.
Qed.

(** A store succeeds exactly on a tag dictionary. *)
Lemma store_tag_ok ifd tag v st d :
  py_getitem (metadata st) (KStr ifd) = Ok (PDict d) →
  ∃ st', store_tag ifd tag v st = (Ok tt, st').
Proof.
  intros Hd.
  destruct (store_tag_cases ifd tag v st) as [(m & d' & Hmd & Hd' & ->)|[e He]];
    [eauto|].
  exfalso. unfold store_tag in He. rewrite Hd in He.
  destruct (metadata st) as [| | | | | |m]; try discriminate Hd.
  simpl in He. discriminate He.
Qed.

End SetterClaims.

(* ===================================================================== *)
(** ** The setters on dictionary objects *)
(* ===================================================================== *)

Section ObjectFrame.
Context {C : Convert} {P : Platform}.

Ltac unfold_obj :=
  unfold mbind, mret, Objects.M_bind, Objects.M_ret, Objects.mbindM, result_bind,
    result_ret, rbind, Objects.lift in *.

Lemma update_object_eq l d (h : Objects.heap) : Objects.update_object l d h l = d.
Proof. unfold Objects.update_object. by destruct (decide (l = l)). Qed.

Lemma update_object_ne l l' d (h : Objects.heap) : l' ≠ l → Objects.update_object l d h l' = h l'.
Proof. unfold Objects.update_object. by destruct (decide (l' = l)). Qed.

Lemma update_object_ref l key x (h : Objects.heap) l' k a :
  Objects.update_object l (<[key := Objects.Imm x]> (h l)) h l' !! k
  = Some (Objects.Ref a) →
  h l' !! k = Some (Objects.Ref a).
Proof.
  unfold Objects.update_object. destruct (decide (l' = l)) as [->|Hne]; [|done].
  intros H. by apply lookup_insert_Some in H as [[_ [=]]|[_ H]].
Qed.

(** What one reaches through unchanged objects, one still reaches. *)
Lemma reach_unchanged (h h' : Objects.heap) v l' :
  (∀ x, Objects.reach h v x → h' x = h x) →
  Objects.reach h v l' → Objects.reach h' v l'.
Proof.
  intros Hsame Hr. revert Hsame.
  induction Hr as [l|l k v l' Hk Hr IH]; intros Hsame; [constructor|].
  apply Objects.reach_step with k v.
  - rewrite Hsame; [done|constructor].
  - apply IH. intros x Hx. apply Hsame. by apply Objects.reach_step with k v.
Qed.

(** Without sharing, an entry other than [ifd] leads neither to the metadata
    dictionary nor to the dictionary under [ifd]. *)
Lemma reach_avoids st ifd l0 v l' :
  Objects.unshared st ifd → Objects.metadata st = Objects.Ref l0 →
  (∀ a, v = Objects.Ref a →
        a ≠ l0 ∧ Objects.objects st l0 !! KStr ifd ≠ Some (Objects.Ref a)) →
  Objects.reach (Objects.objects st) v l' →
  l' ≠ l0 ∧ Objects.objects st l0 !! KStr ifd ≠ Some (Objects.Ref l').
Proof.
  intros Hun Hmd Hv Hr. destruct (Hun l0 Hmd) as [Hself Hother].
  induction Hr as [l|l k v l' Hk Hr IH]; [by apply Hv|].
  destruct (Hv l eq_refl) as [Hl Hx]. apply IH. intros a ->. split.
  - intros ->. by apply (Hself l k).
  - intros Ha. destruct (Hother a l k Ha Hk) as [-> _]. done.
Qed.

Lemma other_entry_avoids st ifd l0 k v l' :
  Objects.unshared st ifd → Objects.metadata st = Objects.Ref l0 →
  k ≠ KStr ifd → Objects.objects st l0 !! k = Some v →
  Objects.reach (Objects.objects st) v l' →
  l' ≠ l0 ∧ Objects.objects st l0 !! KStr ifd ≠ Some (Objects.Ref l').
Proof.
  intros Hun Hmd Hk Hv. apply reach_avoids; [done..|].
  destruct (Hun l0 Hmd) as [Hself Hother]. intros a ->. split.
  - intros ->. by apply (Hself l0 k).
  - intros Ha. by destruct (Hother a l0 k Ha Hv) as [_ ?].
Qed.

Lemma obj_frame_refl ifd tags st : Objects.frame ifd tags st st.
Proof. unfold Objects.frame. split_and!; auto. Qed.

Lemma obj_frame_trans ifd tags st1 st2 st3 :
  Objects.frame ifd tags st1 st2 → Objects.frame ifd tags st2 st3 →
  Objects.frame ifd tags st1 st3.
Proof.
  intros (A1 & A2 & A3 & A4 & A5 & A6 & A7 & A8 & A9)
         (B1 & B2 & B3 & B4 & B5 & B6 & B7 & B8 & B9).
  unfold Objects.frame. split_and!; try congruence.
  - intros k Hk. rewrite B1, A1; auto.
  - intros k t Hk. rewrite B2, A2; auto.
  - intros k v l' Hk Hv Hr. rewrite <- (A3 k v l' Hk Hv Hr).
    apply (B3 k v l' Hk); [by rewrite A1|].
    apply reach_unchanged with (Objects.objects st1); [|done].
    intros x Hx. by apply (A3 k v x).
  - intros t Ht. rewrite B4, A4; auto.
  - intros l Hl. destruct (A5 l Hl) as [A5a A5b]. destruct (B5 l A5a) as [B5a B5b].
    split; [done|]. intros l' Hl'. rewrite B5b, A5b; auto.
Qed.

(** One store on a state without sharing: the frame holds and nothing
    becomes shared. *)
Lemma obj_frame_store_tag ifd tags tag v st :
  tag ∈ tags → Objects.unshared st ifd →
  Objects.frame ifd tags st (snd (Objects.store_tag ifd tag v st))
  ∧ Objects.unshared (snd (Objects.store_tag ifd tag v st)) ifd.
Proof.
  intros Hin Hun. unfold Objects.store_tag.
  destruct (Objects.metadata st) as [md|l0] eqn:Hmd.
  - (* the metadata is held by value *)
    destruct md as [| | | | | |m]; simpl;
      try (split; [apply obj_frame_refl|exact Hun]).
    unfold_obj. simpl.
    destruct (m !! KStr ifd) as [x|] eqn:Hx; simpl;
      [|split; [apply obj_frame_refl|exact Hun]].
    destruct x as [| | | | | |d]; simpl;
      try (split; [apply obj_frame_refl|exact Hun]).
    split; [|intros l0; simpl; discriminate].
    unfold Objects.frame, Objects.entry2, Objects.entry. simpl. rewrite Hmd. simpl.
    split_and!; trivial.
    + intros k Hk. by rewrite lookup_insert_ne by congruence.
    + intros k t Hk. by rewrite lookup_insert_ne by congruence.
    + intros t Ht. unfold_obj. rewrite lookup_insert_eq, Hx. simpl.
      rewrite lookup_insert_ne; [done|].
      intros <-. apply Ht. apply list_elem_of_fmap. eauto.
    + intros l. rewrite Hx. discriminate.
  - (* the metadata is a dictionary object *)
    destruct (Hun l0 Hmd) as [Hself Hother].
    destruct (Objects.objects st l0 !! KStr ifd) as [[x|l]|] eqn:Hx;
      [| |split; [apply obj_frame_refl|exact Hun]].
    + (* the IFD is held by value in the metadata dictionary *)
      destruct x as [| | | | | |d]; simpl;
        try (split; [apply obj_frame_refl|exact Hun]).
      split.
      * unfold Objects.frame, Objects.entry2, Objects.entry. simpl. rewrite Hmd. simpl.
        rewrite update_object_eq. split_and!; trivial.
        -- intros k Hk. by rewrite lookup_insert_ne by congruence.
        -- intros k t Hk. rewrite lookup_insert_ne by congruence.
           destruct (Objects.objects st l0 !! k) as [[y|l']|] eqn:Hk'; simpl; trivial.
           rewrite update_object_ne; [done|].
           intros ->. by apply (Hself l0 k).
        -- intros k w l' Hk Hw Hr. rewrite update_object_ne; [done|].
           destruct (Objects.objects st l0 !! k) as [w'|] eqn:Hk'; [|discriminate].
           injection Hw as <-.
           by destruct (other_entry_avoids st ifd l0 k w' l' Hun Hmd Hk Hk' Hr).
        -- intros t Ht. rewrite lookup_insert_eq, Hx. simpl. unfold_obj.
           rewrite lookup_insert_ne; [done|].
           intros <-. apply Ht. apply list_elem_of_fmap. eauto.
        -- intros l. rewrite Hx. discriminate.
      * intros l1. simpl. rewrite Hmd. intros [= <-]. split.
        -- intros l' k Hk. apply update_object_ref in Hk. by apply (Hself l' k).
        -- intros l l' k. rewrite update_object_eq, lookup_insert_eq. discriminate.
    + (* the IFD is a dictionary object *)
      assert (Hl : l ≠ l0) by (intros ->; by apply (Hself l0 (KStr ifd))).
      split.
      * unfold Objects.frame, Objects.entry2, Objects.entry. simpl. rewrite Hmd. simpl.
        rewrite update_object_ne by done. split_and!; trivial.
        -- intros k t Hk.
           destruct (Objects.objects st l0 !! k) as [[y|l']|] eqn:Hk'; simpl; trivial.
           rewrite update_object_ne; [done|].
           intros ->. by destruct (Hother l l0 k eq_refl Hk').
        -- intros k w l' Hk Hw Hr. rewrite update_object_ne; [done|].
           destruct (Objects.objects st l0 !! k) as [w'|] eqn:Hk'; [|discriminate].
           injection Hw as <-.
           destruct (other_entry_avoids st ifd l0 k w' l' Hun Hmd Hk Hk' Hr)
             as [_ Hne].
           intros ->. by rewrite Hx in Hne.
        -- intros t Ht. rewrite Hx. simpl.
           rewrite update_object_eq.
           rewrite lookup_insert_ne; [done|].
           intros <-. apply Ht. apply list_elem_of_fmap. eauto.
        -- intros l1. rewrite Hx. intros [= <-]. split; [done|].
           intros l' Hl'. by rewrite update_object_ne.
      * intros l1. simpl. rewrite Hmd. intros [= <-]. split.
        -- intros l' k Hk. apply update_object_ref in Hk. by apply (Hself l' k).
        -- intros l1 l' k. rewrite update_object_ne by done. rewrite Hx.
           intros [= <-] Hk. apply update_object_ref in Hk.
           by apply (Hother l l' k).
Qed.

Lemma step_store_tag ifd tags tag v :
  tag ∈ tags → step ifd tags (Objects.store_tag ifd tag v).
Proof. intros Hin st Hun. by apply obj_frame_store_tag. Qed.

Lemma step_lift {A} ifd tags (r : result A) : step ifd tags (Objects.lift r).
Proof. intros st Hun. split; [apply obj_frame_refl|exact Hun]. Qed.

Lemma step_bind {A B} ifd tags (m : Objects.M A) (k : A → Objects.M B) :
  step ifd tags m → (∀ a, step ifd tags (k a)) → step ifd tags (m ≫= k).
Proof.
  intros Hm Hk st Hun. unfold_obj. destruct (Hm st Hun) as [Hf Hu].
  destruct (m st) as [[a|e] st']; simpl in *; [|done].
  destruct (Hk a st' Hu) as [Hf' Hu'].
  split; [by eapply obj_frame_trans|done].
Qed.

Lemma step_add_keywords kws ow :
  step (py "0th") [piexif.ImageIFD.XPKeywords] (Objects.add_keywords kws ow).
Proof.
  intros st Hun. unfold Objects.add_keywords.
  destruct (utf16_encode _ _); [|split; [apply obj_frame_refl|exact Hun]].
  apply obj_frame_store_tag; [set_solver|done].
Qed.

Ltac step_steps :=
  repeat first
    [ apply step_bind; [|intros ?]
    | apply step_lift
    | apply step_store_tag; set_solver ].

Lemma obj_run_setter_step s :
  step (target_ifd s) (own_tags s) (Objects.run_setter s).
Proof.
  destruct s as [dt|dt|a|a|a|a|a|a|o|lat lon alt msl|kws ow]; simpl;
    try (unfold Objects.set_date_original, Objects.set_date_digitized,
           Objects.set_artist, Objects.set_camera_maker, Objects.set_camera_model,
           Objects.set_copyright, Objects.set_exif_version, Objects.set_software,
           Objects.set_orientation; step_steps; fail).
  - unfold Objects.set_gps_data.
    destruct (deg2dms_zone lat _) as [[[? ?] ?] ?].
    destruct (deg2dms_zone lon _) as [[[? ?] ?] ?].
    step_steps.
  - apply step_add_keywords.
Qed.

(** ** The value model is the object model without sharing *)

Lemma by_value_store_tag h ifd tag v (st : Manager) :
  Objects.store_tag ifd tag v (by_value h st)
  = (fst (store_tag ifd tag v st), by_value h (snd (store_tag ifd tag v st))).
Proof.
  unfold Objects.store_tag, store_tag. simpl.
  by destruct (_ ≫= _).
Qed.

Lemma sim_store_tag ifd tag v : sim (Objects.store_tag ifd tag v) (store_tag ifd tag v).
Proof. intros h st. apply by_value_store_tag. Qed.

Lemma sim_lift {A} (r : result A) : sim (Objects.lift r) (lift r).
Proof. by intros h st. Qed.

Lemma sim_bind {A B} (m' : Objects.M A) m (k' : A → Objects.M B) k :
  sim m' m → (∀ a, sim (k' a) (k a)) → sim (m' ≫= k') (m ≫= k).
Proof.
  intros Hm Hk h st. unfold_obj. unfold_monad. rewrite Hm.
  destruct (m st) as [[a|e] st']; simpl; [apply Hk|done].
Qed.

Ltac sim_steps :=
  repeat first
    [ apply sim_bind; [|intros ?]
    | apply sim_lift
    | apply sim_store_tag ].

Lemma by_value_run_setter s : sim (Objects.run_setter s) (run_setter s).
Proof.
  destruct s as [dt|dt|a|a|a|a|a|a|o|lat lon alt msl|kws ow]; simpl;
    try (unfold Objects.set_date_original, Objects.set_date_digitized,
           Objects.set_artist, Objects.set_camera_maker, Objects.set_camera_model,
           Objects.set_copyright, Objects.set_exif_version, Objects.set_software,
           Objects.set_orientation, set_date_original, set_date_digitized,
           set_artist, set_camera_maker, set_camera_model, set_copyright,
           set_exif_version, set_software, set_orientation; sim_steps; fail).
  - unfold Objects.set_gps_data, set_gps_data.
    destruct (deg2dms_zone lat _) as [[[? ?] ?] ?].
    destruct (deg2dms_zone lon _) as [[[? ?] ?] ?].
    sim_steps.
  - intros h st. unfold Objects.add_keywords, add_keywords. simpl.
    destruct (utf16_encode _ _); [apply by_value_store_tag|done].
Qed.

(** C9 (setter frame property), with dictionaries as objects: when the
    dictionary under the target IFD key is not shared (no dictionary holds
    the metadata dictionary, and the dictionary under the IFD key is held by
    the metadata dictionary under that key and by nothing else), each setter
    modifies only its own tag entries ([own_tags]) within its single target
    IFD ([target_ifd]), whether it returns or raises: every other entry of
    the metadata is the same value or the same object, holds the same entries
    and leads to unchanged dictionary objects only; every other tag of the
    target IFD reads the same; the dictionary object under the target IFD key
    is the only dictionary object that may have changed; and no other field
    of the manager changes.  The date setters have the date tag and the
    matching SubSecTime tag as their own tags. *)
Theorem setters_touch_only_their_own_tags (s : Setter) (st : Objects.Manager) :
  Objects.unshared st (target_ifd s) →
  let st' := snd (Objects.run_setter s st) in
  (∀ k, k ≠ KStr (target_ifd s) → Objects.entry st' k = Objects.entry st k)
  ∧ (∀ k t, k ≠ KStr (target_ifd s) → Objects.entry2 st' k t = Objects.entry2 st k t)
  ∧ (∀ k v l', k ≠ KStr (target_ifd s) → Objects.entry st k = Ok v →
               Objects.reach (Objects.objects st) v l' →
               Objects.objects st' l' = Objects.objects st l')
  ∧ (∀ t, t ∉ (KInt <$> own_tags s) →
          Objects.entry2 st' (KStr (target_ifd s)) t
          = Objects.entry2 st (KStr (target_ifd s)) t)
  ∧ (∀ l, Objects.entry st (KStr (target_ifd s)) = Ok (Objects.Ref l) →
          Objects.entry st' (KStr (target_ifd s)) = Ok (Objects.Ref l)
          ∧ ∀ l', l' ≠ l → Objects.objects st' l' = Objects.objects st l')
  ∧ Objects._log_enabled st' = Objects._log_enabled st
  ∧ Objects.log st' = Objects.log st
  ∧ Objects._filepath st' = Objects._filepath st
  ∧ Objects._temporal_keywords st' = Objects._temporal_keywords st.
Proof. intros Hun. exact (proj1 (obj_run_setter_step s st Hun)). Qed.

End ObjectFrame.

(** C9 as stated fails on the code: with one dictionary object under '0th'
    and under 'Exif', [set_artist], whose target is '0th', also changes
    [metadata['Exif']], where the Artist tag was absent and then holds the
    encoded name. *)
Lemma setters_change_a_shared_dictionary :
  let s := SetArtist (py "me") in
  let st := ObjectSamples.shared in
  let st' := snd (Objects.run_setter s st) in
  is_Ok (Objects.entry st (KStr (target_ifd s)))
  ∧ KStr (py "Exif") ≠ KStr (target_ifd s)
  ∧ Objects.entry2 st (KStr (py "Exif")) (KInt piexif.ImageIFD.Artist)
    = Raise KeyError
  ∧ Objects.entry2 st' (KStr (py "Exif")) (KInt piexif.ImageIFD.Artist)
    = Ok (Objects.Imm (PBytes (pyb "me")))
  ∧ ¬ (∀ k t, k ≠ KStr (target_ifd s) →
              Objects.entry2 st' k t = Objects.entry2 st k t).
Proof.
  assert (H1 : Objects.entry2 ObjectSamples.shared (KStr (py "Exif"))
                 (KInt piexif.ImageIFD.Artist) = Raise KeyError)
    by (vm_compute; reflexivity).
  assert (H2 : Objects.entry2
                 (snd (Objects.run_setter (SetArtist (py "me")) ObjectSamples.shared))
                 (KStr (py "Exif")) (KInt piexif.ImageIFD.Artist)
               = Ok (Objects.Imm (PBytes (pyb "me"))))
    by (vm_compute; reflexivity).
  cbv zeta. split; [eexists; vm_compute; reflexivity|].
  split; [by_evaluation|]. split; [exact H1|]. split; [exact H2|].
  intros H.
  specialize (H (KStr (py "Exif")) (KInt piexif.ImageIFD.Artist)
                ltac:(by_evaluation)).
  rewrite H1, H2 in H. discriminate.
Qed.

(** C9 at a sample state, four distinct IFD dictionaries: [set_artist]
    leaves the entries of the other IFDs and the other dictionary objects as
    they were. *)
Lemma setters_touch_only_their_own_tags_witness :
  (∀ k t, k ≠ KStr (py "0th") →
          Objects.entry2
            (snd (Objects.run_setter (SetArtist (py "me")) ObjectSamples.separate))
            k t
          = Objects.entry2 ObjectSamples.separate k t)
  ∧ (∀ l', l' ≠ 2%positive →
           Objects.objects
             (snd (Objects.run_setter (SetArtist (py "me")) ObjectSamples.separate))
             l'
           = Objects.objects ObjectSamples.separate l').
Proof.
  assert (Hun : Objects.unshared ObjectSamples.separate
                  (target_ifd (SetArtist (py "me")))); [|split].
  2: exact (proj1 (proj2 (setters_touch_only_their_own_tags
                             (SetArtist (py "me")) ObjectSamples.separate Hun))).
  2: exact (proj2 (proj1 (proj2 (proj2 (proj2 (proj2
              (setters_touch_only_their_own_tags
                 (SetArtist (py "me")) ObjectSamples.separate Hun)))))
              2%positive eq_refl)).
  change (target_ifd (SetArtist (py "me"))) with (py "0th").
  intros l0 [= <-].
  assert (Hobj : ∀ l' k a,
            Objects.objects ObjectSamples.separate l' !! k = Some (Objects.Ref a) →
            l' = 1%positive
            ∧ ObjectSamples.separate_entries !! k = Some (Objects.Ref a)).
  { intros l' k a. unfold ObjectSamples.separate, Objects.objects.
    destruct (decide (l' = 1%positive)) as [->|_]; [done|].
    by rewrite lookup_empty. }
  split.
  - intros l' k H. apply Hobj in H as [_ H].
    unfold ObjectSamples.separate_entries in H.
    repeat (apply lookup_insert_Some in H as [[_ [=]]|[_ H]]).
    by rewrite lookup_empty in H.
  - intros l l' k Hl H. apply Hobj in Hl as [_ Hl]. apply Hobj in H as [-> H].
    split; [done|]. unfold ObjectSamples.separate_entries in *.
    rewrite lookup_insert_eq in Hl. injection Hl as <-.
    destruct (decide (k = KStr (py "0th"))) as [->|Hk]; [done|].
    rewrite lookup_insert_ne in H by congruence.
    repeat (apply lookup_insert_Some in H as [[_ [=]]|[_ H]]).
    by rewrite lookup_empty in H.
Defined.

(* ===================================================================== *)
(** ** Loading and saving: the extension checks *)
(* ===================================================================== *)

Section FileClaims.
Context {C : Convert} {P : Platform}.

(** C6 (reading is restricted to JPEG/PNG): when the suffix of the path,
    without its dot and upper-cased, is not in [READABLE_EXTENSIONS],
    [load_file] raises an AssertionError; the outcome is the same in
    every world (the file is not touched), and the metadata, the file
    path and the temporal keywords of the manager are what they were. *)
Theorem load_file_rejects_unreadable_extension
  (w : World) (file : Path) (st : Manager) :
  upper (drop 1 (suffix file)) ∉ READABLE_EXTENSIONS →
  ∃ st', load_file w file st = (Raise (AssertionError (reading_err_msg file)), st')
         ∧ (∀ w', load_file w' file st = load_file w file st)
         ∧ metadata st' = metadata st
         ∧ _filepath st' = _filepath st
         ∧ _temporal_keywords st' = _temporal_keywords st.
Proof.
  intros Hext. unfold load_file.
  rewrite bool_decide_eq_false_2 by exact Hext. simpl.
  eexists. split; [reflexivity|].
  split; [reflexivity|].
  by destruct (_log_enabled st).
Qed.

(** The format check of [save_file] is [assert sfx not in
    EDITABLE_EXTENSIONS]: it fails on every editable extension. *)
Lemma save_file_fails_on_editable (w : World) filename overwrite st fp :
  _filepath st = Some fp →
  upper (drop 1 (suffix fp)) ∈ EDITABLE_EXTENSIONS →
  save_file w filename overwrite st = (Raise (AssertionError writing_err_msg), st).
Proof.
  intros Hfp Hin. unfold save_file. rewrite Hfp.
  rewrite bool_decide_eq_false_2; [done|]. by intros Hn.
Qed.

(** ... and passes on every other extension: the EXIF block is dumped
    and inserted. *)
Lemma save_file_passes_on_others (w : World) overwrite st fp b :
  _filepath st = Some fp →
  upper (drop 1 (suffix fp)) ∉ EDITABLE_EXTENSIONS →
  piexif_dump w (metadata st) = Ok b →
  fst (save_file w [] overwrite st)
  = piexif_insert w b fp (if negb overwrite then itername w fp else fp).
Proof.
  intros Hfp Hin Hb. unfold save_file. rewrite Hfp, Hb.
  rewrite bool_decide_eq_true_2 by exact Hin. simpl.
  by destruct overwrite, (_log_enabled st).
Qed.

(** C2 (writing supports JPEG): the claim fails on the code.  With a
    loaded file named photo.jpg, [save_file] raises the AssertionError of
    its format check, in every world and whatever the metadata; with a
    file named scan.png the check passes and the EXIF block is dumped and
    inserted.  The assertion tests [sfx not in EDITABLE_EXTENSIONS],
    against its own message. *)
Theorem save_file_rejects_jpg_accepts_png
  (w : World) (filename : pystr) (overwrite le : bool) (lg : list LogRecord)
  (md : pyval) (dir : pystr) (tk : list pystr) (b : list byte) :
  save_file w filename overwrite
    (mkManager le lg md (Some (mkPath dir (py "photo.jpg"))) tk)
  = (Raise (AssertionError writing_err_msg),
     mkManager le lg md (Some (mkPath dir (py "photo.jpg"))) tk)
  ∧ fst (save_file (mkWorld (image_open w) (piexif_load w) (λ _, Ok b)
                      (λ _ _ _, Ok tt) (itername w))
           [] true
           (mkManager le lg md (Some (mkPath dir (py "scan.png"))) tk))
    = Ok tt.
Proof.
  split.
  - apply save_file_fails_on_editable with (fp := mkPath dir (py "photo.jpg")).
    + reflexivity.
    + by_evaluation.
  - erewrite save_file_passes_on_others; [reflexivity|reflexivity| |reflexivity].
    by_evaluation.
Qed.

End FileClaims.

(** A file named notes.txt is refused, and the manager is as it was. *)
Lemma load_file_rejects_unreadable_extension_witness :
  ∃ st', load_file Samples.jpeg_world (mkPath (py "/photos") (py "notes.txt"))
           Samples.blank
         = (Raise (AssertionError
                     (reading_err_msg (mkPath (py "/photos") (py "notes.txt")))), st')
         ∧ (∀ w', load_file w' (mkPath (py "/photos") (py "notes.txt")) Samples.blank
                  = load_file Samples.jpeg_world
                      (mkPath (py "/photos") (py "notes.txt")) Samples.blank)
         ∧ metadata st' = metadata Samples.blank
         ∧ _filepath st' = _filepath Samples.blank
         ∧ _temporal_keywords st' = _temporal_keywords Samples.blank.
Proof.
  apply (load_file_rejects_unreadable_extension Samples.jpeg_world
           (mkPath (py "/photos") (py "notes.txt")) Samples.blank).
  by_evaluation.
Defined.

(* ===================================================================== *)
(** ** Dates *)
(* ===================================================================== *)

Section DateClaims.
Context {C : Convert} {P : Platform}.

Lemma parse_date_sentinel b s e :
  utf8_decode b = Some s →
  str2datetime s (py ":") (py " ") (py ":") = Raise e →
  is_ValueError e = true →
  parse_date (PBytes b) = Ok sentinel.
Proof.
  intros Hb Hs He. unfold parse_date. simpl. rewrite Hb. simpl.
  unfold_monad. rewrite Hs. by rewrite He.
Qed.

(** Undecodable bytes end in the sentinel as well: [UnicodeDecodeError]
    is a [ValueError]. *)
Lemma parse_date_undecodable b :
  utf8_decode b = None → parse_date (PBytes b) = Ok sentinel.
Proof. intros Hb. unfold parse_date. simpl. by rewrite Hb. Qed.

(** A value under [tag] of the 'Exif' entry that reads as a bytes object
    makes the membership test total. *)
Lemma bytes_tag_contains_total st tag b :
  tag_value st (py "Exif") tag = Ok (PBytes b) →
  ∃ exif has, py_getitem (metadata st) (KStr (py "Exif")) = Ok exif
              ∧ py_contains (KInt tag) exif = Ok has.
Proof.
  unfold tag_value, getitem2. unfold_monad.
  destruct (py_getitem (metadata st) _) as [exif|]; [|discriminate].
  intros Hv. exists exif.
  destruct exif as [| | |s|bs|l|d]; simpl in *; try discriminate; eauto.
  - destruct (seq_index s tag); discriminate.
  - destruct (seq_index bs tag); discriminate.
Qed.

Lemma valid_iff (has : result bool) (got : result datetime) :
  (has ≫= λ h : bool, if h then dt ← got; Ok (negb (year dt =? 1)) else Ok false)
  = Ok true
  ↔ has = Ok true ∧ ∃ dt, got = Ok dt ∧ year dt ≠ 1.
Proof.
  unfold_monad. destruct has as [[|]|e]; simpl.
  - destruct got as [dt|e]; simpl.
    + destruct (Z.eqb_spec (year dt) 1) as [Hy|Hy]; simpl; split.
      * discriminate.
      * intros (_ & dt' & [= <-] & Hne). done.
      * eauto.
      * done.
    + split; [discriminate|]. by intros (_ & dt & ? & _).
  - split; [discriminate|]. by intros (? & _).
  - split; [discriminate|]. by intros (? & _).
Qed.

(** [parse_date] returns a datetime of another year than 1 only by parsing
    one. *)
Lemma parse_date_valid v dt :
  year dt ≠ 1 → parse_date v = Ok dt ↔ parses_as v dt.
Proof.
  intros Hy. unfold parse_date, parses_as. split.
  - destruct v as [| | | |b| |]; simpl; try discriminate.
    destruct (utf8_decode b) as [s|] eqn:Hb; simpl.
    + unfold_monad.
      destruct (str2datetime s _ _ _) as [dt'|e] eqn:Hs.
      * intros [= ->]. eauto.
      * destruct (is_ValueError e); [|discriminate].
        intros [= <-]. by destruct Hy.
    + intros [= <-]. by destruct Hy.
  - intros (b & s & -> & Hb & Hs). simpl. rewrite Hb. simpl. unfold_monad.
    by rewrite Hs.
Qed.

(** The validity check, for either date tag: it is True exactly when the
    membership test on [metadata['Exif']] is True and the entry under the tag
    parses as a datetime of another year than 1. *)
Lemma valid_date_cases (st : Manager) (tag : Z) :
  (has ← (exif ← py_getitem (metadata st) (KStr (py "Exif"));
          py_contains (KInt tag) exif);
   if (has : bool)
   then dt ← (dttkn ← tag_value st (py "Exif") tag; parse_date dttkn);
        Ok (negb (year dt =? 1))
   else Ok false) = Ok true
  ↔ (∃ exif, py_getitem (metadata st) (KStr (py "Exif")) = Ok exif
             ∧ py_contains (KInt tag) exif = Ok true)
    ∧ ∃ v dt, tag_value st (py "Exif") tag = Ok v ∧ parses_as v dt ∧ year dt ≠ 1.
Proof.
  rewrite valid_iff. split.
  - intros [Hhas (dt & Hget & Hy)]. split.
    + unfold_monad.
      destruct (py_getitem (metadata st) _) as [exif|]; [eauto|discriminate].
    + unfold_monad. destruct (tag_value st _ tag) as [v|]; [|discriminate].
      exists v, dt. split; [done|]. split; [|done]. by apply parse_date_valid.
  - intros [(exif & Hx & Hc) (v & dt & Hv & Hp & Hy)]. split.
    + unfold_monad. by rewrite Hx.
    + exists dt. split; [|done]. rewrite Hv. unfold_monad.
      by apply parse_date_valid.
Qed.

(** On a tag dictionary the membership test is the presence of the key. *)
Lemma valid_date_in_dict (st : Manager) (d : pydict) (tag : Z) :
  py_getitem (metadata st) (KStr (py "Exif")) = Ok (PDict d) →
  (exif ← py_getitem (metadata st) (KStr (py "Exif")); py_contains (KInt tag) exif)
  = Ok (bool_decide (is_Some (d !! KInt tag)))
  ∧ ((has ← (exif ← py_getitem (metadata st) (KStr (py "Exif"));
             py_contains (KInt tag) exif);
      if (has : bool)
      then dt ← (dttkn ← tag_value st (py "Exif") tag; parse_date dttkn);
           Ok (negb (year dt =? 1))
      else Ok false) = Ok true
     ↔ ∃ v dt, d !! KInt tag = Some v ∧ parses_as v dt ∧ year dt ≠ 1).
Proof.
  intros Hd. split; [by rewrite Hd|].
  rewrite valid_date_cases. unfold tag_value, getitem2. rewrite Hd. simpl.
  split.
  - intros [_ (v & dt & Hv & Hp & Hy)]. exists v, dt.
    destruct (d !! KInt tag); [|discriminate]. injection Hv as ->. done.
  - intros (v & dt & Hv & Hp & Hy). split.
    + eexists. split; [done|]. simpl. rewrite Hv.
      by rewrite bool_decide_eq_true_2.
    + exists v, dt. by rewrite Hv.
Qed.

(** C4 (invalid-date sentinel): when the DateTimeOriginal entry of
    [metadata['Exif']] is a UTF-8-decodable byte string on which the
    parser raises a ValueError, [get_date_original] returns
    [datetime(1, 1, 1)] rather than raising, and
    [has_valid_date_original] is False.  In every state
    [has_valid_date_original] is True exactly when the membership test for
    the tag on [metadata['Exif']] is True and the entry under the tag is a
    byte string that decodes and parses as a datetime whose year is not 1.
    When [metadata['Exif']] is a tag dictionary, [has_date_original] is the
    presence of the key, and [has_valid_date_original] is True exactly when
    the dictionary holds under the tag a byte string that decodes and parses
    as a datetime whose year is not 1.  The same holds for
    DateTimeDigitized. *)
Theorem invalid_date_yields_sentinel (st : Manager) :
  (∀ b s e,
      tag_value st (py "Exif") piexif.ExifIFD.DateTimeOriginal = Ok (PBytes b) →
      utf8_decode b = Some s →
      str2datetime s (py ":") (py " ") (py ":") = Raise e →
      is_ValueError e = true →
      get_date_original st = Ok sentinel
      ∧ has_valid_date_original st = Ok false)
  ∧ (has_valid_date_original st = Ok true
     ↔ (∃ exif, py_getitem (metadata st) (KStr (py "Exif")) = Ok exif
                ∧ py_contains (KInt piexif.ExifIFD.DateTimeOriginal) exif = Ok true)
       ∧ ∃ v dt, tag_value st (py "Exif") piexif.ExifIFD.DateTimeOriginal = Ok v
                 ∧ parses_as v dt ∧ year dt ≠ 1)
  ∧ (∀ d, py_getitem (metadata st) (KStr (py "Exif")) = Ok (PDict d) →
          has_date_original st
          = Ok (bool_decide (is_Some (d !! KInt piexif.ExifIFD.DateTimeOriginal)))
          ∧ (has_valid_date_original st = Ok true
             ↔ ∃ v dt, d !! KInt piexif.ExifIFD.DateTimeOriginal = Some v
                       ∧ parses_as v dt ∧ year dt ≠ 1))
  ∧ (∀ b s e,
      tag_value st (py "Exif") piexif.ExifIFD.DateTimeDigitized = Ok (PBytes b) →
      utf8_decode b = Some s →
      str2datetime s (py ":") (py " ") (py ":") = Raise e →
      is_ValueError e = true →
      get_date_digitized st = Ok sentinel
      ∧ has_valid_date_digitized st = Ok false)
  ∧ (has_valid_date_digitized st = Ok true
     ↔ (∃ exif, py_getitem (metadata st) (KStr (py "Exif")) = Ok exif
                ∧ py_contains (KInt piexif.ExifIFD.DateTimeDigitized) exif = Ok true)
       ∧ ∃ v dt, tag_value st (py "Exif") piexif.ExifIFD.DateTimeDigitized = Ok v
                 ∧ parses_as v dt ∧ year dt ≠ 1)
  ∧ (∀ d, py_getitem (metadata st) (KStr (py "Exif")) = Ok (PDict d) →
          has_date_digitized st
          = Ok (bool_decide (is_Some (d !! KInt piexif.ExifIFD.DateTimeDigitized)))
          ∧ (has_valid_date_digitized st = Ok true
             ↔ ∃ v dt, d !! KInt piexif.ExifIFD.DateTimeDigitized = Some v
                       ∧ parses_as v dt ∧ year dt ≠ 1)).
Proof.
  split_and!.
  - intros b s e Hv Hb Hs He.
    assert (Hget : get_date_original st = Ok sentinel).
    { unfold get_date_original. rewrite Hv. simpl.
      by apply parse_date_sentinel with s e. }
    split; [exact Hget|].
    destruct (bytes_tag_contains_total _ _ _ Hv) as (exif & has & Hx & Hc).
    unfold has_valid_date_original, has_date_original.
    rewrite Hget, Hx. simpl. unfold_monad. rewrite Hc. by destruct has.
  - apply valid_date_cases.
  - intros d Hd. apply (valid_date_in_dict st d _ Hd).
  - intros b s e Hv Hb Hs He.
    assert (Hget : get_date_digitized st = Ok sentinel).
    { unfold get_date_digitized. rewrite Hv. simpl.
      by apply parse_date_sentinel with s e. }
    split; [exact Hget|].
    destruct (bytes_tag_contains_total _ _ _ Hv) as (exif & has & Hx & Hc).
    unfold has_valid_date_digitized, has_date_digitized.
    rewrite Hget, Hx. simpl. unfold_monad. rewrite Hc. by destruct has.
  - apply valid_date_cases.
  - intros d Hd. apply (valid_date_in_dict st d _ Hd).
Qed.

End DateClaims.

(** With the reference parser, the bytes "no date at all" are not a date:
    the tag is present, the getter returns the sentinel, and the date is not
    valid. *)
Lemma invalid_date_yields_sentinel_witness :
  get_date_original Samples.undated = Ok sentinel
  ∧ has_valid_date_original Samples.undated = Ok false
  ∧ has_date_original Samples.undated = Ok true.
Proof.
  destruct (invalid_date_yields_sentinel Samples.undated) as (H1 & _ & H3 & _).
  destruct (H1 (pyb "no date at all") (py "no date at all") ValueError)
    as [Ha Hb]; try (vm_compute; reflexivity).
  split; [exact Ha|]. split; [exact Hb|].
  edestruct H3 as [Hc _]; [vm_compute; reflexivity|].
  rewrite Hc. vm_compute. reflexivity.
Defined.

(* ===================================================================== *)
(** ** GPS data *)
(* ===================================================================== *)

Section GpsClaims.
Context {C : Convert} {P : Platform}.

Lemma truediv_ints n d :
  d ≠ 0 → py_truediv (PInt n) (PInt d) = Ok (Qred (inject_Z n / inject_Z d)).
Proof.
  intros Hd. unfold py_truediv. simpl.
  destruct (Qeq_bool (inject_Z d) 0) eqn:E; [|done].
  apply Qeq_bool_iff in E. unfold Qeq in E. simpl in E. lia.
Qed.

Lemma rational_shape v :
  is_rational v = true → ∃ n d, v = PTuple [PInt n; PInt d] ∧ d ≠ 0.
Proof.
  destruct v as [| | | | |l|]; try discriminate.
  destruct l as [|[| n | | | | |] [|[| d | | | | |] [|? ?]]]; try discriminate.
  simpl. intros H. exists n, d. split; [done|].
  apply andb_prop in H as [H _]. apply andb_prop in H as [_ H].
  apply negb_true_iff in H. lia.
Qed.

Lemma gps2val_total v zone_positive :
  is_rational3 v = true → ∃ q, _gps2val v zone_positive = Ok q.
Proof.
  destruct v as [| | | | |l|]; try discriminate.
  destruct l as [|a [|b [|c [|? ?]]]]; try discriminate.
  simpl. intros H.
  apply andb_prop in H as [H Hc]. apply andb_prop in H as [Ha Hb].
  apply rational_shape in Ha as (n1 & d1 & -> & ?).
  apply rational_shape in Hb as (n2 & d2 & -> & ?).
  apply rational_shape in Hc as (n3 & d3 & -> & ?).
  unfold _gps2val, getitem2. simpl. unfold_monad.
  rewrite !truediv_ints by done. eauto.
Qed.

Lemma altitude_total v :
  is_rational v = true →
  ∃ n d q, py_getitem v (KInt 0) = Ok n ∧ py_getitem v (KInt 1) = Ok d
           ∧ py_truediv n d = Ok q.
Proof.
  intros H. apply rational_shape in H as (n & d & -> & ?).
  exists (PInt n), (PInt d). eexists. repeat split. by apply truediv_ints.
Qed.

(** C7, as amended (presence check for GPS): on well-formed GPS metadata
    (the metadata is a dictionary; 'GPS', when present, is a tag
    dictionary; latitude and longitude, when present, are triples of
    rationals and the altitude a rational, all with non-zero
    denominators) [has_gps_data] returns, and it returns True if and only
    if the metadata contains the 'GPS' key and all six tags read by
    [get_gps_data] are present. *)
Theorem has_gps_data_on_well_formed_metadata (st : Manager) :
  gps_well_formed st = true →
  has_gps_data st = Ok (gps_tags_present st).
Proof.
  unfold gps_well_formed, gps_tags_present, has_gps_data, get_gps_data,
    tag_value, getitem2, check_tag, six_gps_tags.
  destruct (metadata st) as [| | | | | |m]; try discriminate.
  simpl. unfold_monad.
  destruct (m !! KStr (py "GPS")) as [g|]; simpl; [|done].
  destruct g as [| | | | | |d]; try discriminate. simpl.
  intros Hwf.
  apply andb_prop in Hwf as [Hwf Halt]. apply andb_prop in Hwf as [Hlat Hlon].
  destruct (d !! KInt piexif.GPSIFD.GPSLatitude) as [lat|]; simpl; [|done].
  destruct (d !! KInt piexif.GPSIFD.GPSLatitudeRef) as [latref|]; simpl; [|done].
  destruct (gps2val_total lat (eq_bytes latref (pyb "N")) Hlat) as [q1 ->].
  destruct (d !! KInt piexif.GPSIFD.GPSLongitude) as [lon|]; simpl; [|done].
  destruct (d !! KInt piexif.GPSIFD.GPSLongitudeRef) as [lonref|]; simpl; [|done].
  destruct (gps2val_total lon (eq_bytes lonref (pyb "E")) Hlon) as [q2 ->].
  destruct (d !! KInt piexif.GPSIFD.GPSAltitude) as [alt|]; simpl; [|done].
  destruct (d !! KInt piexif.GPSIFD.GPSAltitudeRef) as [altref|]; simpl; [|done].
  destruct (altitude_total alt Halt) as (n & dn & q3 & -> & -> & ->).
  done.
Qed.

Lemma bind_ok {A B} (m : M A) (k : A → M B) st st' b :
  (m ≫= k) st = (Ok b, st') →
  ∃ a st1, m st = (Ok a, st1) ∧ k a st1 = (Ok b, st').
Proof.
  unfold_monad. destruct (m st) as [[a|e] st1]; [eauto|discriminate].
Qed.

Lemma store_tag_preserves ifd tag v st tag' :
  tag' ≠ tag →
  tag_value (snd (store_tag ifd tag v st)) ifd tag' = tag_value st ifd tag'.
Proof.
  intros Hne.
  destruct (frame_store_tag ifd [tag] tag v st) as (_ & Hf & _);
    [apply list_elem_of_here|].
  apply Hf. rewrite list_elem_of_fmap. intros (t & [= <-] & Ht).
  apply list_elem_of_singleton in Ht. done.
Qed.

(** Whatever the conversion module computes, [set_gps_data] stores the
    two hemisphere references as strs, and [get_gps_data] compares them
    with bytes literals: both zone flags come out False. *)
Lemma set_gps_data_stores_str_zones lat lon alt msl st st' :
  set_gps_data lat lon alt msl st = (Ok tt, st') →
  ∃ lat_z lon_z,
    tag_value st' (py "GPS") piexif.GPSIFD.GPSLatitudeRef = Ok (PStr lat_z)
    ∧ tag_value st' (py "GPS") piexif.GPSIFD.GPSLongitudeRef = Ok (PStr lon_z)
    ∧ eq_bytes (PStr lat_z) (pyb "N") = false
    ∧ eq_bytes (PStr lon_z) (pyb "E") = false.
Proof.
  unfold set_gps_data.
  destruct (deg2dms_zone lat _) as [[[lat_d lat_m] lat_s] lat_z].
  destruct (deg2dms_zone lon _) as [[[lon_d lon_m] lon_s] lon_z].
  intros H. exists lat_z, lon_z.
  apply bind_ok in H as ([] & s1 & _ & H).
  apply bind_ok in H as ([] & s2 & _ & H).
  apply bind_ok in H as ([] & s3 & Hlat & H).
  apply bind_ok in H as ([] & s4 & Hlon & H).
  apply bind_ok in H as ([] & s5 & H5 & H).
  apply bind_ok in H as ([] & s6 & H6 & H).
  apply store_tag_read in Hlat as Rlat. apply store_tag_read in Hlon as Rlon.
  assert (E4 : s4 = snd (store_tag (py "GPS") piexif.GPSIFD.GPSLongitudeRef
                           (PStr lon_z) s3)) by (by rewrite Hlon).
  assert (E5 : s5 = snd (store_tag (py "GPS") piexif.GPSIFD.GPSLatitude
                           (PTuple [whole lat_d; whole lat_m; hundredths lat_s]) s4))
    by (by rewrite H5).
  assert (E6 : s6 = snd (store_tag (py "GPS") piexif.GPSIFD.GPSLongitude
                           (PTuple [whole lon_d; whole lon_m; hundredths lon_s]) s5))
    by (by rewrite H6).
  assert (E7 : st' = snd (store_tag (py "GPS") piexif.GPSIFD.GPSAltitude
                            (hundredths alt) s6)) by (by rewrite H).
  split; [|split; [|split; reflexivity]].
  - rewrite E7, store_tag_preserves by (compute; congruence).
    rewrite E6, store_tag_preserves by (compute; congruence).
    rewrite E5, store_tag_preserves by (compute; congruence).
    rewrite E4, store_tag_preserves by (compute; congruence). exact Rlat.
  - rewrite E7, store_tag_preserves by (compute; congruence).
    rewrite E6, store_tag_preserves by (compute; congruence).
    rewrite E5, store_tag_preserves by (compute; congruence). exact Rlon.
Qed.

End GpsClaims.

(** The sample with a position has all six tags, and the check says so. *)
Lemma has_gps_data_on_well_formed_metadata_witness :
  has_gps_data Samples.located = Ok true.
Proof.
  apply (has_gps_data_on_well_formed_metadata Samples.located).
  vm_compute. reflexivity.
Defined.

(** C7 as stated fails: all six tags are present, yet [has_gps_data]
    raises, because only KeyError is caught and a zero denominator raises
    ZeroDivisionError. *)
Lemma has_gps_data_raises_on_zero_denominator :
  gps_tags_present Samples.without_fix = true
  ∧ has_gps_data Samples.without_fix = Raise ZeroDivisionError.
Proof. split; vm_compute; reflexivity. Qed.

(** South of the equator and west of Greenwich the flags are right by
    accident, and the position comes back as it was set. *)
Example gps_round_trip_south_west :
  get_gps_data (snd (set_gps_data (-(21 # 2)) (-(20 # 1)) (-(529 # 100)) false
                       Samples.blank))
  = Ok ((-21 # 2)%Q, (-20 # 1)%Q, (-529 # 100)%Q, false).
Proof. vm_compute. reflexivity. Qed.

(** C1 (GPS round trip): the claim fails on the code.  On a manager whose
    metadata has the 'GPS' key, [set_gps_data(10.0, 20.0, 5.0, True)]
    returns and [get_gps_data] then returns (-10.0, -20.0, 5.0, True): the
    northern latitude and the eastern longitude come back negated, because
    the stored references 'N' and 'E' are strs and are compared with the
    bytes b'N' and b'E'. *)
Theorem gps_round_trip_negates_north_and_east :
  fst (set_gps_data (10 # 1) (20 # 1) (5 # 1) true Samples.blank) = Ok tt
  ∧ get_gps_data (snd (set_gps_data (10 # 1) (20 # 1) (5 # 1) true Samples.blank))
    = Ok ((-10 # 1)%Q, (-20 # 1)%Q, (5 # 1)%Q, true).
Proof. split; vm_compute; reflexivity. Qed.

(* ===================================================================== *)
(** ** Strings: join and split *)
(* ===================================================================== *)

Section Strings.

Lemma split_no_sep c (s : pystr) : c ∉ s → split c s = [s].
Proof.
  induction s as [|x s IH]; [done|].
  intros Hn. apply not_elem_of_cons in Hn as [Hx Hs]. simpl.
  destruct (N.eqb_spec x c) as [->|_]; [done|].
  by rewrite IH.
Qed.

Lemma split_app_sep c (x r : pystr) :
  c ∉ x → split c (x ++ c :: r) = x :: split c r.
Proof.
  induction x as [|y x IH]; intros Hn; simpl.
  - by rewrite N.eqb_refl.
  - apply not_elem_of_cons in Hn as [Hy Hx].
    destruct (N.eqb_spec y c) as [->|_]; [done|].
    by rewrite IH.
Qed.

Lemma split_join c (parts : list pystr) :
  parts ≠ [] → Forall (λ k, c ∉ k) parts → split c (join [c] parts) = parts.
Proof.
  intros Hne Hall. induction Hall as [|x l Hx Hl IH]; [done|].
  destruct l as [|y l].
  - simpl. by apply split_no_sep.
  - change (join [c] (x :: y :: l)) with (x ++ c :: join [c] (y :: l)).
    rewrite split_app_sep by done. by rewrite IH.
Qed.

Lemma split_once_no_sep c (s : pystr) : c ∉ s → split_once c s = [s].
Proof.
  induction s as [|x s IH]; [done|].
  intros Hn. apply not_elem_of_cons in Hn as [Hx Hs]. simpl.
  destruct (N.eqb_spec x c) as [->|_]; [done|].
  by rewrite IH.
Qed.

Lemma join_Forall (Q : N → Prop) (sep : pystr) (parts : list pystr) :
  Forall Q sep → Forall (Forall Q) parts → Forall Q (join sep parts).
Proof.
  intros Hsep Hall. induction Hall as [|x l Hx Hl IH]; [constructor|].
  destruct l as [|y l]; [done|].
  change (join sep (x :: y :: l)) with (x ++ sep ++ join sep (y :: l)).
  rewrite !Forall_app. auto.
Qed.

End Strings.

(* ===================================================================== *)
(** ** The UTF-16 codec round trip *)
(* ===================================================================== *)

Section Utf16.

Lemma to_N_byte_of n : Byte.to_N (byte_of n) = (n mod 256)%N.
Proof.
  unfold byte_of. destruct (Byte.of_N (n mod 256)) as [b|] eqn:E.
  - by apply Byte.to_of_N.
  - apply Byte.of_N_None_iff in E.
    pose proof (N.mod_upper_bound n 256). lia.
Qed.

Lemma unit_of_unit_bytes big u :
  (u < 65536)%N →
  ∃ b0 b1, unit_bytes big u = [b0; b1] ∧ unit_of big b0 b1 = u.
Proof.
  intros Hu. unfold unit_bytes, unit_of.
  destruct big; do 2 eexists; (split; [reflexivity|]);
    rewrite !to_N_byte_of;
    rewrite (N.mod_small (u / 256) 256) by (apply N.Div0.div_lt_upper_bound; lia);
    pose proof (N.Div0.div_mod u 256); lia.
Qed.

Lemma units_round_trip big us :
  Forall (λ u, (u < 65536)%N) us →
  units_of_bytes big (concat (map (unit_bytes big) us)) = Some us.
Proof.
  induction 1 as [|u us Hu _ IH]; [done|].
  destruct (unit_of_unit_bytes big u Hu) as (b0 & b1 & Hb & Hr).
  simpl. rewrite Hb. simpl. by rewrite IH, Hr.
Qed.

Lemma surrogate_classes u :
  is_surrogate u = false → is_high u = false ∧ is_low u = false.
Proof.
  unfold is_surrogate, is_high, is_low.
  destruct (N.leb_spec 0xD800 u), (N.leb_spec u 0xDFFF),
    (N.leb_spec u 0xDBFF), (N.leb_spec 0xDC00 u); simpl; intros; (done || lia).
Qed.

Lemma utf16_units_char_decodes c :
  scalar c →
  ∃ u, utf16_units_char c = Some u
       ∧ Forall (λ x, (x < 65536)%N) u
       ∧ ∀ r rest, utf16_points r = Some rest →
                   utf16_points (u ++ r) = Some (c :: rest).
Proof.
  intros [Hc Hs]. unfold utf16_units_char.
  destruct (N.ltb_spec c 0x10000) as [Hlt|Hge].
  - rewrite Hs. eexists. split; [reflexivity|]. split.
    + by repeat constructor.
    + intros r rest Hr. simpl.
      destruct (surrogate_classes c Hs) as [-> ->]. by rewrite Hr.
  - destruct (N.ltb_spec c 0x110000) as [_|?]; [|lia].
    pose proof (N.Div0.div_mod (c - 0x10000) 1024) as Hdm.
    assert (Hm : ((c - 0x10000) mod 1024 < 1024)%N)
      by (apply N.mod_upper_bound; lia).
    assert (Hq : ((c - 0x10000) / 1024 < 1024)%N)
      by (apply N.Div0.div_lt_upper_bound; lia).
    set (q := ((c - 0x10000) / 1024)%N) in *.
    set (m := ((c - 0x10000) mod 1024)%N) in *.
    clearbody q m.
    eexists. split; [reflexivity|]. split.
    + repeat constructor; lia.
    + intros r rest Hr. simpl.
      replace (is_high (0xD800 + q)) with true
        by (symmetry; unfold is_high; apply andb_true_intro;
            split; apply N.leb_le; lia).
      replace (is_low (0xDC00 + m)) with true
        by (symmetry; unfold is_low; apply andb_true_intro;
            split; apply N.leb_le; lia).
      rewrite Hr. simpl. do 2 f_equal. lia.
Qed.

Lemma utf16_units_round_trip s :
  Forall scalar s →
  ∃ us, utf16_units s = Some us
        ∧ Forall (λ x, (x < 65536)%N) us
        ∧ utf16_points us = Some s.
Proof.
  induction 1 as [|c s Hc _ (us & Hus & Hb & Hp)].
  - exists []. by repeat split.
  - destruct (utf16_units_char_decodes c Hc) as (u & Hu & Hub & Hdec).
    exists (u ++ us). simpl. rewrite Hu, Hus. split; [done|].
    split; [by apply Forall_app|]. by apply Hdec.
Qed.

(** Encoding a str of scalar values and decoding the bytes gives the str
    back, on either byte order (the decoder follows the byte-order
    mark). *)
Lemma utf16_round_trip big host s :
  Forall scalar s →
  ∃ b, utf16_encode big s = Some b ∧ utf16_decode host b = Some s.
Proof.
  intros Hs. destruct (utf16_units_round_trip s Hs) as (us & Hus & Hb & Hp).
  unfold utf16_encode. rewrite Hus. simpl. eexists. split; [reflexivity|].
  destruct big; simpl; rewrite units_round_trip by done; simpl; exact Hp.
Qed.

(** A lone surrogate cannot be encoded. *)
Lemma utf16_encode_surrogate big c s :
  is_surrogate c = true → utf16_encode big (c :: s) = None.
Proof.
  intros Hc. unfold utf16_encode. simpl. unfold utf16_units_char.
  destruct (N.ltb_spec c 0x10000) as [_|Hge].
  - by rewrite Hc.
  - unfold is_surrogate in Hc. apply andb_prop in Hc as [_ Hc].
    apply N.leb_le in Hc. lia.
Qed.

End Utf16.

(* ===================================================================== *)
(** ** Keywords and the other '0th' getters *)
(* ===================================================================== *)

Section KeywordClaims.
Context {C : Convert} {P : Platform}.

Lemma getitem_dict v k d :
  py_getitem v (KStr k) = Ok d → ∃ m, v = PDict m ∧ m !! KStr k = Some d.
Proof.
  destruct v as [| | | | | |m]; try discriminate. simpl.
  destruct (m !! KStr k) as [x|] eqn:E; [|discriminate].
  intros [= ->]. eauto.
Qed.

Lemma has_0th_tag_dict st m d tag :
  metadata st = PDict m → m !! KStr (py "0th") = Some (PDict d) →
  has_0th_tag st tag = Ok (bool_decide (is_Some (d !! KInt tag))).
Proof.
  intros Hmd Hd. unfold has_0th_tag. rewrite Hmd. simpl. unfold_monad.
  rewrite Hd. by rewrite bool_decide_eq_true_2 by eauto.
Qed.

Lemma tag_value_dict st m d ifd tag :
  metadata st = PDict m → m !! KStr ifd = Some (PDict d) →
  tag_value st ifd tag = of_option KeyError (d !! KInt tag).
Proof.
  intros Hmd Hd. unfold tag_value, getitem2. rewrite Hmd. simpl.
  unfold_monad. by rewrite Hd.
Qed.

Lemma seq_index_raises {A} (l : list A) i e :
  seq_index l i = Raise e → e = IndexError.
Proof.
  unfold seq_index. repeat case_match; try (by intros [= <-]);
    destruct (l !! _); simpl; (discriminate || by intros [= <-]).
Qed.

(** A missing '0th' entry or a missing tag makes the presence test
    False. *)
Lemma absent_tag st tag :
  tag_value st (py "0th") tag = Raise KeyError → has_0th_tag st tag = Ok false.
Proof.
  unfold tag_value, getitem2, has_0th_tag.
  destruct (metadata st) as [| | | | | |m]; try discriminate. simpl.
  unfold_monad. destruct (m !! KStr (py "0th")) as [x|] eqn:E.
  - rewrite bool_decide_eq_true_2 by eauto.
    destruct x as [| | |s|b|l|d]; simpl; try discriminate.
    + destruct (seq_index s tag) as [?|e] eqn:Hi; [discriminate|].
      apply seq_index_raises in Hi as ->. discriminate.
    + destruct (seq_index b tag) as [?|e] eqn:Hi; [discriminate|].
      apply seq_index_raises in Hi as ->. discriminate.
    + destruct (seq_index l tag) as [?|e] eqn:Hi; [discriminate|].
      apply seq_index_raises in Hi as ->. discriminate.
    + destruct (d !! KInt tag) eqn:E'; [discriminate|].
      intros _. rewrite bool_decide_eq_false_2; [done|].
      by intros [? ?].
  - intros _. rewrite bool_decide_eq_false_2; [done|]. by intros [? ?].
Qed.

(** On a well-formed '0th' entry the presence test returns, and a tag it
    finds can be read. *)
Lemma present_tag st tag :
  ifd0_well_formed st = true →
  has_0th_tag st tag = Ok false
  ∨ (has_0th_tag st tag = Ok true ∧ ∃ v, tag_value st (py "0th") tag = Ok v).
Proof.
  unfold ifd0_well_formed.
  destruct (metadata st) as [| | | | | |m] eqn:Hmd; try discriminate.
  destruct (m !! KStr (py "0th")) as [x|] eqn:E.
  - destruct x as [| | | | | |d]; try discriminate. intros _.
    rewrite (has_0th_tag_dict st m d tag Hmd E),
      (tag_value_dict st m d _ tag Hmd E).
    destruct (d !! KInt tag) as [v|] eqn:E'.
    + right. rewrite bool_decide_eq_true_2 by eauto. eauto.
    + left. rewrite bool_decide_eq_false_2; [done|]. by intros [? ?].
  - intros _. left. unfold has_0th_tag. rewrite Hmd. simpl. unfold_monad.
    rewrite E. rewrite bool_decide_eq_false_2; [done|]. by intros [? ?].
Qed.

Lemma split_once_head c (s : pystr) :
  ∃ h t, split_once c s = h :: t.
Proof.
  induction s as [|x s (h & t & IH)]; simpl; [eauto|].
  destruct (x =? c)%N; [eauto|]. rewrite IH. eauto.
Qed.

Lemma seq_index_head {A} (h : A) t : seq_index (h :: t) 0 = Ok h.
Proof.
  unfold seq_index.
  replace (0 <? Z.of_nat (length (h :: t))) with true; [done|].
  symmetry. apply Z.ltb_lt. simpl. lia.
Qed.

(** What [get_keywords] computes from an XPKeywords entry [v]. *)
Lemma get_keywords_present st v :
  has_0th_tag st piexif.ImageIFD.XPKeywords = Ok true →
  tag_value st (py "0th") piexif.ImageIFD.XPKeywords = Ok v →
  get_keywords st =
    (tags_bytes ← py_bytes v;
     decoded ← of_option UnicodeDecodeError (utf16_decode big_endian tags_bytes);
     tags_str ← seq_index (split_once 0%N decoded) 0;
     Ok (split 0x3B%N tags_str)).
Proof. intros Hh Hv. unfold get_keywords. by rewrite Hh, Hv. Qed.

Lemma get_keywords_decodes st b s :
  has_0th_tag st piexif.ImageIFD.XPKeywords = Ok true →
  tag_value st (py "0th") piexif.ImageIFD.XPKeywords = Ok (PBytes b) →
  utf16_decode big_endian b = Some s →
  0%N ∉ s →
  get_keywords st = Ok (split 0x3B%N s).
Proof.
  intros Hh Hv Hb Hs. rewrite (get_keywords_present st _ Hh Hv).
  simpl. unfold_monad. rewrite Hb. simpl.
  rewrite split_once_no_sep by done. by rewrite seq_index_head.
Qed.

(** After a successful [add_keywords] the entry is present and holds the
    encoded keywords. *)
Lemma add_keywords_stored kws ow st st' :
  add_keywords kws ow st = (Ok tt, st') →
  has_0th_tag st' piexif.ImageIFD.XPKeywords = Ok true
  ∧ ∃ b, tag_value st' (py "0th") piexif.ImageIFD.XPKeywords = Ok (PBytes b)
         ∧ utf16_encode big_endian
             (if negb ow
              then join (py ";")
                     (_temporal_keywords st
                        ++ filter (λ kwd, kwd ∉ _temporal_keywords st) kws)
              else join (py ";") kws) = Some b.
Proof.
  unfold add_keywords.
  destruct (utf16_encode _ _) as [b|] eqn:Hb; [|discriminate].
  intros Hst.
  destruct (store_tag_cases (py "0th") piexif.ImageIFD.XPKeywords (PBytes b) st)
    as [(m & d & Hmd & Hd & Heq)|[e He]]; [|congruence].
  rewrite Heq in Hst. injection Hst as <-. split.
  - erewrite has_0th_tag_dict; [|reflexivity|apply lookup_insert_eq].
    rewrite bool_decide_eq_true_2; [done|]. rewrite lookup_insert_eq. eauto.
  - exists b. split; [|done].
    erewrite tag_value_dict; [|reflexivity|apply lookup_insert_eq].
    by rewrite lookup_insert_eq.
Qed.

End KeywordClaims.

Section KeywordTheorems.
Context {C : Convert} {P : Platform}.

Lemma plain_keywords_join kws :
  Forall plain_keyword kws →
  Forall scalar (join (py ";") kws)
  ∧ (0%N ∉ join (py ";") kws)
  ∧ Forall (λ k : pystr, 0x3B%N ∉ k) kws.
Proof.
  intros Hall. rewrite Forall_forall in Hall. split; [|split].
  - apply join_Forall.
    + repeat constructor.
    + apply Forall_forall. intros k Hk. specialize (Hall k Hk).
      unfold plain_keyword in Hall. rewrite Forall_forall in Hall.
      apply Forall_forall. intros c Hc. by destruct (Hall c Hc).
  - assert (H0 : Forall (λ c, c ≠ 0%N) (join (py ";") kws)).
    { apply join_Forall.
      - repeat constructor. done.
      - apply Forall_forall. intros k Hk. specialize (Hall k Hk).
        unfold plain_keyword in Hall. rewrite Forall_forall in Hall.
        apply Forall_forall. intros c Hc. by destruct (Hall c Hc) as (_ & _ & ?). }
    rewrite Forall_forall in H0. intros Hin. by apply (H0 _ Hin).
  - apply Forall_forall. intros k Hk Hin. specialize (Hall k Hk).
    unfold plain_keyword in Hall. rewrite Forall_forall in Hall.
    by destruct (Hall _ Hin) as (_ & ? & _).
Qed.

(** C3, as amended (keyword list round trip): for every non-empty list of
    keywords, each a str of Unicode scalar values (no surrogate code
    points) containing neither ';' nor NUL, [add_keywords(keywords,
    overwrite=True)] on a manager whose metadata holds a tag dictionary
    under '0th' returns, and [get_keywords] then returns exactly the same
    list, in the same order. *)
Theorem keywords_round_trip (st : Manager) (d : pydict) (keywords : list pystr) :
  py_getitem (metadata st) (KStr (py "0th")) = Ok (PDict d) →
  keywords ≠ [] →
  Forall plain_keyword keywords →
  ∃ st', add_keywords keywords true st = (Ok tt, st')
         ∧ get_keywords st' = Ok keywords.
Proof.
  intros Hd Hne Hall.
  destruct (plain_keywords_join keywords Hall) as (Hsc & H0 & Hsep).
  destruct (utf16_round_trip big_endian big_endian _ Hsc) as (b & Hb & Hdec).
  destruct (store_tag_ok (py "0th") piexif.ImageIFD.XPKeywords (PBytes b) st d Hd)
    as [st' Hst].
  assert (Hadd : add_keywords keywords true st = (Ok tt, st')).
  { unfold add_keywords. simpl. by rewrite Hb. }
  exists st'. split; [exact Hadd|].
  destruct (add_keywords_stored _ _ _ _ Hadd) as (Hh & b' & Hv & Hb').
  simpl in Hb'. rewrite Hb in Hb'. injection Hb' as <-.
  rewrite (get_keywords_decodes st' b _ Hh Hv Hdec H0).
  change (py ";") with [0x3B%N]. by rewrite split_join.
Qed.

(** C10, as amended (absent-tag getters): when the metadata is a
    dictionary in which '0th', if present, is a tag dictionary,
    [get_camera_maker], [get_camera_model], [get_description] and
    [get_copyright] return, and so does [get_keywords] when the
    XPKeywords entry, if present, converts to well-formed UTF-16 bytes;
    when '0th' or the tag is absent each getter returns its empty default
    (the empty list for [get_keywords], the empty str for the others);
    and after [add_keywords([], overwrite=True)] has returned,
    [get_keywords] returns the one-element list holding the empty str. *)
Theorem getters_return_defaults (st : Manager) :
  (ifd0_well_formed st = true →
     (keywords_decodable st = true → is_Ok (get_keywords st))
     ∧ is_Ok (get_camera_maker st) ∧ is_Ok (get_camera_model st)
     ∧ is_Ok (get_description st) ∧ is_Ok (get_copyright st))
  ∧ (tag_value st (py "0th") piexif.ImageIFD.XPKeywords = Raise KeyError →
     get_keywords st = Ok [])
  ∧ (tag_value st (py "0th") piexif.ImageIFD.Make = Raise KeyError →
     get_camera_maker st = Ok (PStr []))
  ∧ (tag_value st (py "0th") piexif.ImageIFD.Model = Raise KeyError →
     get_camera_model st = Ok (PStr []))
  ∧ (tag_value st (py "0th") piexif.ImageIFD.ImageDescription = Raise KeyError →
     get_description st = Ok (PStr []))
  ∧ (tag_value st (py "0th") piexif.ImageIFD.Copyright = Raise KeyError →
     get_copyright st = Ok (PStr []))
  ∧ (∀ st', add_keywords [] true st = (Ok tt, st') →
            get_keywords st' = Ok [[]]).
Proof.
  split; [|repeat split].
  - intros Hwf.
    assert (Hget : ∀ tag,
               is_Ok (present ← has_0th_tag st tag;
                      if (present : bool) then tag_value st (py "0th") tag
                      else Ok (PStr []))).
    { intros tag. destruct (present_tag st tag Hwf) as [->|[-> [v ->]]];
        simpl; eexists; reflexivity. }
    split; [|repeat split; apply Hget].
    intros Hdec. unfold keywords_decodable in Hdec.
    destruct (present_tag st piexif.ImageIFD.XPKeywords Hwf) as [Hh|[Hh [v Hv]]].
    + unfold get_keywords. rewrite Hh. by eexists.
    + rewrite (get_keywords_present st v Hh Hv).
      unfold tag_value in Hv. rewrite Hv in Hdec.
      destruct (py_bytes v) as [b|]; [|discriminate]. simpl. unfold_monad.
      destruct (utf16_decode big_endian b) as [s|] eqn:Hs;
        [|by apply bool_decide_eq_true in Hdec as [? ?]].
      simpl. destruct (split_once_head 0%N s) as (h & t & ->).
      rewrite seq_index_head. by eexists.
  - intros H. unfold get_keywords. by rewrite (absent_tag _ _ H).
  - intros H. unfold get_camera_maker. by rewrite (absent_tag _ _ H).
  - intros H. unfold get_camera_model. by rewrite (absent_tag _ _ H).
  - intros H. unfold get_description. by rewrite (absent_tag _ _ H).
  - intros H. unfold get_copyright. by rewrite (absent_tag _ _ H).
  - intros st' Hadd.
    destruct (add_keywords_stored _ _ _ _ Hadd) as (Hh & b & Hv & Hb).
    simpl in Hb. unfold utf16_encode in Hb. simpl in Hb. injection Hb as <-.
    rewrite (get_keywords_decodes st' _ [] Hh Hv); [done| |apply not_elem_of_nil].
    rewrite app_nil_r. by destruct big_endian.
Qed.

End KeywordTheorems.

(** Two keywords on the metadata of a file without EXIF data. *)
Lemma keywords_round_trip_witness :
  ∃ st', add_keywords [py "sea"; py "sun"] true Samples.blank = (Ok tt, st')
         ∧ get_keywords st' = Ok [py "sea"; py "sun"].
Proof.
  apply (keywords_round_trip Samples.blank ∅ [py "sea"; py "sun"]).
  - vm_compute. reflexivity.
  - discriminate.
  - repeat constructor; (vm_compute; congruence).
Defined.

(** C3 as stated fails: a str may hold a lone surrogate, which is neither
    ';' nor NUL, and the UTF-16 codec refuses it: [add_keywords] raises
    UnicodeEncodeError and stores nothing. *)
Lemma keywords_with_a_lone_surrogate_are_refused :
  let keywords := [[0xD800%N]] in
  keywords ≠ []
  ∧ Forall (λ k, k ≠ [] ∧ pystr_ok k ∧ (0x3B%N ∉ k) ∧ (0%N ∉ k)) keywords
  ∧ add_keywords keywords true Samples.blank
    = (Raise UnicodeEncodeError, Samples.blank)
  ∧ ¬ ∃ st', add_keywords keywords true Samples.blank = (Ok tt, st')
             ∧ get_keywords st' = Ok keywords.
Proof.
  split; [discriminate|]. split; [|split].
  - repeat constructor; try done.
    + intros Hin. apply list_elem_of_singleton in Hin. discriminate.
    + intros Hin. apply list_elem_of_singleton in Hin. discriminate.
  - reflexivity.
  - intros (st' & Hadd & _). vm_compute in Hadd. discriminate.
Qed.

(** The sample without EXIF data is well formed and has no '0th' tags: the
    getters return, with their defaults. *)
Lemma getters_return_defaults_witness :
  is_Ok (get_keywords Samples.blank)
  ∧ get_keywords Samples.blank = Ok []
  ∧ get_camera_maker Samples.blank = Ok (PStr []).
Proof.
  destruct (getters_return_defaults Samples.blank) as (Htot & Hkw & Hmk & _).
  split; [|split].
  - apply Htot; vm_compute; reflexivity.
  - apply Hkw. vm_compute. reflexivity.
  - apply Hmk. vm_compute. reflexivity.
Defined.

(** C10 as stated fails: [get_keywords] raises on an XPKeywords entry with
    an odd number of bytes (UnicodeDecodeError), and [get_camera_maker]
    raises when '0th' is not a dictionary (TypeError). *)
Lemma getters_raise_on_malformed_entries :
  get_keywords Samples.truncated_keywords = Raise UnicodeDecodeError
  ∧ get_camera_maker Samples.textual_0th = Raise TypeError.
Proof. split; vm_compute; reflexivity. Qed.

(* ===================================================================== *)
(** ** The overwrite flag of add_keywords *)
(* ===================================================================== *)

Section OverwriteFlag.
Context {C : Convert} {P : Platform}.

Lemma store_tag_missing ifd tag v st m :
  metadata st = PDict m → m !! KStr ifd = None →
  store_tag ifd tag v st = (Raise KeyError, st).
Proof.
  intros Hmd Hk. unfold store_tag. rewrite Hmd. simpl. unfold_monad.
  by rewrite Hk.
Qed.

Lemma store_tag_dict ifd tag v st d :
  py_getitem (metadata st) (KStr ifd) = Ok (PDict d) →
  ∃ st', store_tag ifd tag v st = (Ok tt, st')
         ∧ py_getitem (metadata st') (KStr ifd) = Ok (PDict (<[KInt tag := v]> d))
         ∧ tag_value st' ifd tag = Ok v.
Proof.
  intros Hd. apply getitem_dict in Hd as (m & Hmd & Hm).
  destruct (store_tag_cases ifd tag v st) as [(m' & d' & Hmd' & Hd' & Heq)|[e He]].
  - rewrite Hmd in Hmd'. injection Hmd' as <-. rewrite Hm in Hd'.
    injection Hd' as <-. eexists. split; [exact Heq|]. split.
    + simpl. by rewrite lookup_insert_eq.
    + by apply store_tag_read in Heq.
  - exfalso. unfold store_tag in He. rewrite Hmd in He. simpl in He.
    unfold_monad. rewrite Hm in He. simpl in He. discriminate.
Qed.

(** C8 (the overwrite flag is inert): in every reachable state the
    temporal keywords are empty, so [add_keywords(keywords,
    overwrite=False)] behaves exactly as [add_keywords(keywords,
    overwrite=True)].  When '0th' is a tag dictionary and the keywords are
    made of Unicode scalar values, both calls return and leave under
    XPKeywords the UTF-16 bytes of the given keywords joined by ';', whatever
    was stored there before; and whenever the call returns, that is what
    XPKeywords holds. *)
Theorem overwrite_flag_is_inert (st : Manager) (keywords : list pystr) :
  reachable st →
  add_keywords keywords false st = add_keywords keywords true st
  ∧ (∀ d, py_getitem (metadata st) (KStr (py "0th")) = Ok (PDict d) →
          Forall (Forall scalar) keywords →
          ∃ st' b,
            add_keywords keywords false st = (Ok tt, st')
            ∧ utf16_encode big_endian (join (py ";") keywords) = Some b
            ∧ py_getitem (metadata st') (KStr (py "0th"))
              = Ok (PDict (<[KInt piexif.ImageIFD.XPKeywords := PBytes b]> d))
            ∧ tag_value st' (py "0th") piexif.ImageIFD.XPKeywords = Ok (PBytes b))
  ∧ (∀ st', add_keywords keywords false st = (Ok tt, st') →
      ∃ b, utf16_encode big_endian (join (py ";") keywords) = Some b
           ∧ tag_value st' (py "0th") piexif.ImageIFD.XPKeywords = Ok (PBytes b)).
Proof.
  intros Hr. apply reachable_no_temporal_keywords in Hr.
  assert (Heq : add_keywords keywords false st = add_keywords keywords true st).
  { unfold add_keywords. simpl. rewrite Hr. simpl.
    by rewrite filter_not_in_nil. }
  split; [exact Heq|]. split.
  - intros d Hd Hall.
    assert (Hsc : Forall scalar (join (py ";") keywords)).
    { apply join_Forall; [|done]. repeat constructor. }
    destruct (utf16_round_trip big_endian big_endian _ Hsc) as (b & Hb & _).
    destruct (store_tag_dict (py "0th") piexif.ImageIFD.XPKeywords (PBytes b) st d Hd)
      as (st' & Hst & Hd' & Hv).
    exists st', b. rewrite Heq. split; [|done].
    unfold add_keywords. simpl. by rewrite Hb.
  - intros st'. rewrite Heq. unfold add_keywords. simpl.
    destruct (utf16_encode _ _) as [b|]; [|discriminate].
    intros Hst. exists b. split; [done|].
    by apply store_tag_read in Hst.
Qed.

End OverwriteFlag.

(** A manager that has loaded a JPEG and stored the keyword "old" is a
    reachable state whose '0th' entry is a tag dictionary: with the flag off,
    [add_keywords] returns and XPKeywords holds the bytes of "sea;sun"
    alone. *)
Lemma overwrite_flag_is_inert_witness :
  ∃ st' b,
    add_keywords [py "sea"; py "sun"] false
      (snd (run_call (CallSetter (AddKeywords [py "old"] true))
              (snd (run_call (CallLoadFile Samples.jpeg_world Samples.photo)
                      (init true)))))
    = (Ok tt, st')
    ∧ utf16_encode big_endian (join (py ";") [py "sea"; py "sun"]) = Some b
    ∧ py_getitem (metadata st') (KStr (py "0th"))
      = Ok (PDict (<[KInt piexif.ImageIFD.XPKeywords := PBytes b]>
                     (<[KInt piexif.ImageIFD.XPKeywords :=
                          PBytes (bom false ++ pyb "o" ++ [x00] ++ pyb "l" ++ [x00]
                                    ++ pyb "d" ++ [x00])]>
                        {[ KInt piexif.ImageIFD.Make := PBytes (pyb "Canon") ]})))
    ∧ tag_value st' (py "0th") piexif.ImageIFD.XPKeywords = Ok (PBytes b).
Proof.
  eapply (proj1 (proj2 (overwrite_flag_is_inert _ [py "sea"; py "sun"]
                    (reach_call _ (CallSetter (AddKeywords [py "old"] true))
                       (reach_call _
                          (CallLoadFile Samples.jpeg_world Samples.photo)
                          (reach_init true)))))).
  - vm_compute. reflexivity.
  - scalar_values.
Defined.

(* ===================================================================== *)
(** ** Loading: the default keys and the merge of the 'exif' item *)
(* ===================================================================== *)

Section LoadClaims.
Context {C : Convert} {P : Platform}.

Lemma merge_items_dict (items : list (pykey * pyval)) (e : pydict) :
  merge_items items (PDict e)
  = Ok (PDict (foldl (λ acc kv, if bool_decide (kv.1 ≠ KStr (py "exif"))
                                then <[kv.1 := kv.2]> acc else acc) e items)).
Proof.
  revert e. induction items as [|[k v] items IH]; intros e; [done|].
  simpl. destruct (bool_decide _); simpl; apply IH.
Qed.

Lemma merge_fold_lookup (items : list (pykey * pyval)) (e : pydict) k :
  NoDup items.*1 →
  foldl (λ acc kv, if bool_decide (kv.1 ≠ KStr (py "exif"))
                   then <[kv.1 := kv.2]> acc else acc) e items !! k
  = if decide (k = KStr (py "exif")) then e !! k
    else match (list_to_map items : pydict) !! k with
         | Some v => Some v
         | None => e !! k
         end.
Proof.
  revert e. induction items as [|[k0 v0] items IH]; intros e Hnd.
  - simpl. rewrite lookup_empty. by destruct (decide _).
  - apply NoDup_cons in Hnd as [Hk0 Hnd]. simpl. rewrite IH by done.
    destruct (decide (k = KStr (py "exif"))) as [->|Hk].
    + case_bool_decide as Hb; [|done]. by rewrite lookup_insert_ne.
    + destruct (decide (k = k0)) as [->|Hne].
      * rewrite lookup_insert_eq.
        rewrite (not_elem_of_list_to_map_1 _ k0) by done.
        rewrite bool_decide_eq_true_2 by done. by rewrite lookup_insert_eq.
      * rewrite (lookup_insert_ne _ k0 k) by done.
        destruct (list_to_map items !! k); [done|].
        case_bool_decide; [by rewrite lookup_insert_ne|done].
Qed.

Lemma merge_items_other (items : list (pykey * pyval)) v v' :
  is_dict v = false → merge_items items v = Ok v' →
  v' = v ∧ ∀ kv, kv ∈ items → kv.1 = KStr (py "exif").
Proof.
  intros Hv. induction items as [|[k x] items IH]; simpl.
  - intros [= <-]. split; [done|]. by intros kv Hin%elem_of_nil.
  - case_bool_decide as Hb.
    + by destruct v.
    + intros Hm. destruct (IH Hm) as [-> Hall]. split; [done|].
      intros kv [->|Hin]%elem_of_cons; [|by apply Hall].
      simpl. by destruct (decide (k = KStr (py "exif"))).
Qed.

Lemma add_basic_dict (ks : list pystr) (e : pydict) :
  add_basic ks (PDict e)
  = Ok (PDict (foldl (λ acc k, if bool_decide (is_Some (acc !! KStr k)) then acc
                               else <[KStr k := PDict ∅]> acc) e ks)).
Proof.
  revert e. induction ks as [|k ks IH]; intros e; [done|].
  simpl. unfold_monad. destruct (bool_decide _); apply IH.
Qed.

Lemma add_basic_fold_lookup (ks : list pystr) (e : pydict) k :
  foldl (λ acc k, if bool_decide (is_Some (acc !! KStr k)) then acc
                  else <[KStr k := PDict ∅]> acc) e ks !! k
  = match e !! k with
    | Some v => Some v
    | None => if decide (k ∈ KStr <$> ks) then Some (PDict ∅) else None
    end.
Proof.
  revert e. induction ks as [|k0 ks IH]; intros e.
  - simpl. by destruct (e !! k).
  - cbn [foldl]. rewrite IH. case_bool_decide as Hb.
    + destruct (e !! k) eqn:Hk; [done|].
      destruct (decide (k = KStr k0)) as [->|Hne].
      * rewrite Hk in Hb. by destruct Hb.
      * destruct (decide (k ∈ KStr <$> ks)) as [Hin|Hin].
        -- rewrite decide_True; [done|]. by right.
        -- rewrite decide_False; [done|]. by intros [?|?]%elem_of_cons.
    + destruct (decide (k = KStr k0)) as [->|Hne].
      * rewrite lookup_insert_eq.
        destruct (e !! KStr k0) eqn:Hk; [by destruct Hb; eauto|].
        rewrite decide_True; [done|]. by left.
      * rewrite lookup_insert_ne by done.
        destruct (e !! k); [done|].
        destruct (decide (k ∈ KStr <$> ks)) as [Hin|Hin].
        -- rewrite decide_True; [done|]. by right.
        -- rewrite decide_False; [done|]. by intros [?|?]%elem_of_cons.
Qed.

Lemma add_basic_other (ks : list pystr) v v' :
  is_dict v = false → add_basic ks v = Ok v' →
  v' = v ∧ ∀ k, k ∈ ks → py_contains (KStr k) v = Ok true.
Proof.
  intros Hv. induction ks as [|k ks IH]; simpl.
  - intros [= <-]. split; [done|]. by intros k Hin%elem_of_nil.
  - unfold_monad. destruct (py_contains (KStr k) v) as [[|]|] eqn:Hc;
      [|by destruct v|discriminate].
    intros Hm. destruct (IH Hm) as [-> Hall]. split; [done|].
    intros k' [->|Hin]%elem_of_cons; [done|by apply Hall].
Qed.

Lemma bind_Ok {A B} (a : A) (k : A → result B) : (Ok a ≫= k) = k a.
Proof. reflexivity. Qed.

Lemma load_exif_data_unfold w file dd :
  _load_metadata w file = Ok dd →
  _load_exif_data w file true
  = (merge_items (map_to_list dd)
       (match dd !! KStr (py "exif") with Some v => v | None => PDict ∅ end)
     ≫= add_basic basic_keywords).
Proof. intros Hdd. unfold _load_exif_data. by rewrite Hdd. Qed.

(** The two ways in which [_load_exif_data] returns. *)
Lemma load_exif_data_cases w file dd md :
  _load_metadata w file = Ok dd →
  _load_exif_data w file true = Ok md →
  (∃ e, (dd !! KStr (py "exif") = Some (PDict e)
         ∨ (dd !! KStr (py "exif") = None ∧ e = ∅))
        ∧ ∃ final, md = PDict final ∧ ∀ k, final !! k = merged_lookup dd e k)
  ∨ (∃ v, dd !! KStr (py "exif") = Some v ∧ is_dict v = false ∧ md = v
          ∧ (∀ k x, dd !! k = Some x → k = KStr (py "exif"))
          ∧ ∀ k, k ∈ basic_keywords → py_contains (KStr k) v = Ok true).
Proof.
  intros Hdd. rewrite (load_exif_data_unfold w file dd Hdd).
  assert (Hdict : ∀ e,
    (merge_items (map_to_list dd) (PDict e) ≫= add_basic basic_keywords) = Ok md →
    ∃ final, md = PDict final ∧ ∀ k, final !! k = merged_lookup dd e k).
  { intros e. rewrite merge_items_dict, bind_Ok, add_basic_dict.
    match goal with |- Ok (PDict ?X) = _ → _ => set (final := X) end.
    intros Heq. exists final. split; [congruence|]. intros k. subst final.
    rewrite add_basic_fold_lookup, merge_fold_lookup
      by apply NoDup_fst_map_to_list.
    rewrite list_to_map_to_list. unfold merged_lookup.
    destruct (decide (k = KStr (py "exif"))); done. }
  destruct (dd !! KStr (py "exif")) as [v|] eqn:Hx.
  - destruct (is_dict v) eqn:Hv.
    + destruct v; try discriminate. intros H. left. eauto.
    + intros H. right. exists v.
      destruct (merge_items (map_to_list dd) v) as [v1|] eqn:Hm; [|discriminate].
      rewrite bind_Ok in H.
      destruct (merge_items_other _ _ _ Hv Hm) as [-> Hkeys].
      destruct (add_basic_other _ _ _ Hv H) as [-> Hc].
      repeat split; try done.
      intros k x Hk. apply elem_of_map_to_list in Hk. by apply Hkeys in Hk.
  - intros H. left. exists ∅. split; [by right|]. by apply Hdict.
Qed.

Lemma load_file_ok w file st st' :
  load_file w file st = (Ok tt, st') →
  ∃ md, _load_exif_data w file true = Ok md ∧ metadata st' = md
        ∧ _filepath st' = Some file ∧ _temporal_keywords st' = [].
Proof.
  unfold load_file. destruct (negb _); [discriminate|].
  destruct (_load_exif_data w file true) as [md|]; [|discriminate].
  intros [= <-]. eauto.
Qed.


End LoadClaims.



(* ===================================================================== *)
(** * Further properties of the manager *)
(* ===================================================================== *)

Section Utf8.

Lemma to_N_byte_of_small n : (n < 256)%N → Byte.to_N (byte_of n) = n.
Proof. intros H. rewrite to_N_byte_of. by apply N.mod_small. Qed.

Lemma in_range_byte_of lo hi n :
  (lo ≤ n)%N → (n ≤ hi)%N → (hi < 256)%N → in_range lo hi (byte_of n) = true.
Proof.
  intros H1 H2 H3. unfold in_range. rewrite to_N_byte_of_small by lia.
  apply andb_true_intro. split; apply N.leb_le; lia.
Qed.

Lemma not_in_range_byte_of lo hi n :
  (n < lo ∨ hi < n)%N → (n < 256)%N → in_range lo hi (byte_of n) = false.
Proof.
  intros H1 H3. unfold in_range. rewrite to_N_byte_of_small by lia.
  apply andb_false_iff. destruct H1; [left|right]; apply N.leb_gt; lia.
Qed.

Lemma utf8_char_round_trip c :
  scalar c →
  ∃ bs, utf8_encode_char c = Some bs
        ∧ ∀ r rest, utf8_decode r = Some rest →
                    utf8_decode (bs ++ r) = Some (c :: rest).
Proof.
  intros [Hc Hs]. unfold utf8_encode_char.
  pose proof (N.Div0.div_mod c 64) as D1.
  assert (M1 : (c mod 64 < 64)%N) by (apply N.mod_upper_bound; lia).
  pose proof (N.Div0.div_mod (c / 64) 64) as D2.
  assert (M2 : ((c / 64) mod 64 < 64)%N) by (apply N.mod_upper_bound; lia).
  pose proof (N.Div0.div_mod (c / 64 / 64) 64) as D3.
  assert (M3 : ((c / 64 / 64) mod 64 < 64)%N) by (apply N.mod_upper_bound; lia).
  replace (c / 4096)%N with (c / 64 / 64)%N by (rewrite N.Div0.div_div; done).
  replace (c / 262144)%N with (c / 64 / 64 / 64)%N
    by (rewrite !N.Div0.div_div; done).
  set (q1 := (c / 64)%N) in *. set (r1 := (c mod 64)%N) in *.
  set (q2 := (q1 / 64)%N) in *. set (r2 := (q1 mod 64)%N) in *.
  set (q3 := (q2 / 64)%N) in *. set (r3 := (q2 mod 64)%N) in *.
  clearbody q1 r1 q2 r2 q3 r3.
  destruct (N.ltb_spec c 0x80) as [H1|H1].
  { eexists. split; [reflexivity|]. intros r rest Hr. simpl.
    rewrite (to_N_byte_of_small c) by lia.
    replace (c <? 128)%N with true by (symmetry; apply N.ltb_lt; lia).
    by rewrite Hr. }
  destruct (N.ltb_spec c 0x800) as [H2|H2].
  { eexists. split; [reflexivity|]. intros r rest Hr. simpl.
    rewrite (in_range_byte_of 0xC2 0xDF (192 + q1)) by lia.
    rewrite (in_range_byte_of 0x80 0xBF (128 + r1)) by lia.
    unfold cont. rewrite (to_N_byte_of_small (192 + q1)) by lia.
    rewrite (to_N_byte_of_small (128 + r1)) by lia.
    replace (192 + q1 <? 128)%N with false by (symmetry; apply N.ltb_ge; lia).
    rewrite Hr. simpl. do 2 f_equal. lia. }
  destruct (N.ltb_spec c 0x10000) as [H3|H3].
  { rewrite Hs. eexists. split; [reflexivity|]. intros r rest Hr. simpl.
    assert (Hsur : (c < 0xD800 ∨ 0xDFFF < c)%N).
    { unfold is_surrogate in Hs. apply andb_false_iff in Hs as [H|H];
        [left; apply N.leb_gt in H|right; apply N.leb_gt in H]; lia. }
    rewrite (not_in_range_byte_of 0xC2 0xDF (224 + q2)) by lia.
    rewrite (in_range_byte_of 0xE0 0xEF (224 + q2)) by lia.
    rewrite (in_range_byte_of 0x80 0xBF (128 + r1)) by lia.
    unfold cont. rewrite (to_N_byte_of_small (224 + q2)) by lia.
    rewrite (to_N_byte_of_small (128 + r1)) by lia.
    rewrite (to_N_byte_of_small (128 + r2)) by lia.
    replace (224 + q2 <? 128)%N with false by (symmetry; apply N.ltb_ge; lia).
    replace (if (224 + q2 =? 224)%N
             then in_range 160 191 (byte_of (128 + r2))
             else if (224 + q2 =? 237)%N
                  then in_range 128 159 (byte_of (128 + r2))
                  else in_range 128 191 (byte_of (128 + r2))) with true.
    2:{ symmetry. destruct (N.eqb_spec (224 + q2) 224).
        - apply in_range_byte_of; lia.
        - destruct (N.eqb_spec (224 + q2) 237); apply in_range_byte_of; lia. }
    simpl. rewrite Hr. simpl. do 2 f_equal. lia. }
  destruct (N.ltb_spec c 0x110000) as [_|?]; [|lia].
  eexists. split; [reflexivity|]. intros r rest Hr. simpl.
  rewrite (not_in_range_byte_of 0xC2 0xDF (240 + q3)) by lia.
  rewrite (not_in_range_byte_of 0xE0 0xEF (240 + q3)) by lia.
  rewrite (in_range_byte_of 0xF0 0xF4 (240 + q3)) by lia.
  rewrite (in_range_byte_of 0x80 0xBF (128 + r1)) by lia.
  rewrite (in_range_byte_of 0x80 0xBF (128 + r2)) by lia.
  unfold cont. rewrite (to_N_byte_of_small (240 + q3)) by lia.
  rewrite (to_N_byte_of_small (128 + r1)) by lia.
  rewrite (to_N_byte_of_small (128 + r2)) by lia.
  rewrite (to_N_byte_of_small (128 + r3)) by lia.
  replace (240 + q3 <? 128)%N with false by (symmetry; apply N.ltb_ge; lia).
  replace (if (240 + q3 =? 240)%N
           then in_range 144 191 (byte_of (128 + r3))
           else if (240 + q3 =? 244)%N
                then in_range 128 143 (byte_of (128 + r3))
                else in_range 128 191 (byte_of (128 + r3))) with true.
  2:{ symmetry. destruct (N.eqb_spec (240 + q3) 240).
      - apply in_range_byte_of; lia.
      - destruct (N.eqb_spec (240 + q3) 244); apply in_range_byte_of; lia. }
  simpl. rewrite Hr. simpl. do 2 f_equal. lia.
Qed.

Lemma utf8_round_trip s :
  Forall scalar s → ∃ b, utf8_encode s = Some b ∧ utf8_decode b = Some s.
Proof.
  induction 1 as [|c s Hc _ (b & Hb & Hd)].
  - exists []. done.
  - destruct (utf8_char_round_trip c Hc) as (bs & Hbs & Hdec).
    exists (bs ++ b). simpl. rewrite Hbs, Hb. split; [done|]. by apply Hdec.
Qed.

End Utf8.

Section SetterOutcomes.
Context {C : Convert} {P : Platform}.

Lemma utf8_encode_scalar s b : utf8_encode s = Some b → Forall scalar s.
Proof.
  revert b. induction s as [|c s IH]; intros b; [constructor|].
  simpl. destruct (utf8_encode_char c) as [u|] eqn:Hc; [|discriminate].
  destruct (utf8_encode s) as [br|]; [|discriminate]. intros _.
  constructor; [|by eapply IH]. unfold utf8_encode_char, scalar in *.
  destruct (N.ltb_spec c 0x80).
  { split; [lia|]. unfold is_surrogate. apply andb_false_iff. left.
    apply N.leb_gt. lia. }
  destruct (N.ltb_spec c 0x800).
  { split; [lia|]. unfold is_surrogate. apply andb_false_iff. left.
    apply N.leb_gt. lia. }
  destruct (N.ltb_spec c 0x10000).
  { destruct (is_surrogate c); [discriminate|]. split; [lia|done]. }
  destruct (N.ltb_spec c 0x110000); [|discriminate]. split; [done|].
  unfold is_surrogate. apply andb_false_iff. right. apply N.leb_gt. lia.
Qed.

Lemma encode_utf8_of_scalar s :
  Forall scalar s → ∃ b, py_encode_utf8 s = Ok (PBytes b) ∧ utf8_encode s = Some b.
Proof.
  intros Hs. destruct (utf8_round_trip s Hs) as (b & Hb & _).
  exists b. unfold py_encode_utf8. by rewrite Hb.
Qed.

Lemma encode_utf8_of_other s :
  ¬ Forall scalar s → py_encode_utf8 s = Raise UnicodeEncodeError.
Proof.
  intros Hs. unfold py_encode_utf8.
  destruct (utf8_encode s) as [b|] eqn:Hb; [|done].
  destruct Hs. by eapply utf8_encode_scalar.
Qed.

Lemma utf16_units_scalar s us :
  utf16_units s = Some us → Forall scalar s.
Proof.
  revert us. induction s as [|c s IH]; intros us; [constructor|].
  simpl. destruct (utf16_units_char c) as [u|] eqn:Hc; [|discriminate].
  destruct (utf16_units s) as [ur|]; [|discriminate]. intros _.
  constructor; [|by eapply IH]. unfold utf16_units_char, scalar in *.
  destruct (N.ltb_spec c 0x10000).
  - destruct (is_surrogate c); [discriminate|]. split; [lia|done].
  - destruct (N.ltb_spec c 0x110000); [|discriminate]. split; [done|].
    unfold is_surrogate. apply andb_false_iff. right. apply N.leb_gt. lia.
Qed.

Lemma encode_utf16_of_other big s :
  ¬ Forall scalar s → utf16_encode big s = None.
Proof.
  intros Hs. unfold utf16_encode.
  destruct (utf16_units s) as [us|] eqn:Hu; [|done].
  destruct Hs. by eapply utf16_units_scalar.
Qed.

(** One store on a tag dictionary. *)
Lemma store_on_dict ifd tag v st d :
  py_getitem (metadata st) (KStr ifd) = Ok (PDict d) →
  ∃ st', store_tag ifd tag v st = (Ok tt, st')
         ∧ py_getitem (metadata st') (KStr ifd) = Ok (PDict (<[KInt tag := v]> d))
         ∧ _temporal_keywords st' = _temporal_keywords st.
Proof.
  intros Hd. destruct (store_tag_dict ifd tag v st d Hd) as (st' & Hst & Hd' & _).
  exists st'. split; [done|]. split; [done|].
  destruct (frame_store_tag ifd [tag] tag v st) as (_ & _ & _ & _ & _ & Ht);
    [set_solver|].
  by rewrite Hst in Ht.
Qed.

(** A setter that encodes [a] and stores the bytes under [tag]. *)
Lemma text_setter_outcome ifd tag a st d :
  py_getitem (metadata st) (KStr ifd) = Ok (PDict d) →
  (Forall scalar a →
   ∃ st' d', (v ← lift (py_encode_utf8 a); store_tag ifd tag v) st = (Ok tt, st')
             ∧ py_getitem (metadata st') (KStr ifd) = Ok (PDict d')
             ∧ (∀ t, t ∈ [tag] → is_Some (d' !! KInt t))
             ∧ (∀ k, k ∉ KInt <$> [tag] → d' !! k = d !! k))
  ∧ (¬ Forall scalar a →
     (v ← lift (py_encode_utf8 a); store_tag ifd tag v) st
     = (Raise UnicodeEncodeError, st)).
Proof.
  intros Hd. split.
  - intros Hs. destruct (encode_utf8_of_scalar a Hs) as (b & Hb & _).
    destruct (store_on_dict ifd tag (PBytes b) st d Hd) as (st' & Hst & Hd' & _).
    exists st', (<[KInt tag := PBytes b]> d). unfold_monad. rewrite Hb.
    split; [done|]. split; [done|]. split.
    + intros t Ht%list_elem_of_singleton. subst t. rewrite lookup_insert_eq. eauto.
    + intros k Hk. rewrite lookup_insert_ne; [done|]. set_solver.
  - intros Hs. unfold_monad. by rewrite (encode_utf8_of_other a Hs).
Qed.

(** A date setter: the SubSecTime tag [sub] is stored before the date is
    encoded. *)
Lemma date_setter_outcome sub tag a st d :
  py_getitem (metadata st) (KStr (py "Exif")) = Ok (PDict d) →
  (Forall scalar a →
   ∃ st' d', (store_tag (py "Exif") sub (PBytes (pyb "00"));;
              v ← lift (py_encode_utf8 a);
              store_tag (py "Exif") tag v) st = (Ok tt, st')
             ∧ py_getitem (metadata st') (KStr (py "Exif")) = Ok (PDict d')
             ∧ (∀ t, t ∈ [sub; tag] → is_Some (d' !! KInt t))
             ∧ (∀ k, k ∉ KInt <$> [sub; tag] → d' !! k = d !! k))
  ∧ (¬ Forall scalar a →
     ∃ st', (store_tag (py "Exif") sub (PBytes (pyb "00"));;
             v ← lift (py_encode_utf8 a);
             store_tag (py "Exif") tag v) st = (Raise UnicodeEncodeError, st')).
Proof.
  intros Hd.
  destruct (store_on_dict (py "Exif") sub (PBytes (pyb "00")) st d Hd)
    as (s1 & H1 & Hd1 & _).
  split.
  - intros Hs. destruct (encode_utf8_of_scalar a Hs) as (b & Hb & _).
    destruct (store_on_dict (py "Exif") tag (PBytes b) s1 _ Hd1)
      as (s2 & H2 & Hd2 & _).
    exists s2, (<[KInt tag := PBytes b]> (<[KInt sub := PBytes (pyb "00")]> d)).
    unfold_monad. rewrite H1, Hb. split; [done|]. split; [done|]. split.
    + intros t Ht. rewrite !lookup_insert_is_Some'.
      apply elem_of_cons in Ht as [->|Ht%list_elem_of_singleton].
      * right. by left.
      * left. by subst t.
    + intros k Hk.
      rewrite !lookup_insert_ne; [done| |]; intros <-; apply Hk;
        apply list_elem_of_fmap; eexists; (split; [done|]);
        [apply list_elem_of_here|apply list_elem_of_further, list_elem_of_here].
  - intros Hs. exists s1. unfold_monad.
    by rewrite H1, (encode_utf8_of_other a Hs).
Qed.

(** X5 (setters on a tag dictionary): when its target IFD is a tag
    dictionary, a setter other than [set_gps_data] returns exactly when the
    str it encodes is made of Unicode scalar values, and raises
    UnicodeEncodeError otherwise.  When it returns, the target IFD is a tag
    dictionary that holds each of the setter's own tags and every other
    entry as before; when it raises, the manager is as it was, unless the
    setter is a date setter, which has stored the SubSecTime tag by then. *)
Theorem setter_on_tag_dictionary (s : Setter) (st : Manager) (d : pydict) :
  py_getitem (metadata st) (KStr (target_ifd s)) = Ok (PDict d) →
  target_ifd s ≠ py "GPS" →
  (Forall scalar (encoded_text s st) →
   ∃ st' d', run_setter s st = (Ok tt, st')
             ∧ py_getitem (metadata st') (KStr (target_ifd s)) = Ok (PDict d')
             ∧ (∀ t, t ∈ own_tags s → is_Some (d' !! KInt t))
             ∧ (∀ k, k ∉ KInt <$> own_tags s → d' !! k = d !! k))
  ∧ (¬ Forall scalar (encoded_text s st) →
     ∃ st', run_setter s st = (Raise UnicodeEncodeError, st')
            ∧ (stores_first s = false → st' = st)).
Proof.
  intros Hd Hgps.
  destruct s as [dt|dt|a|a|a|a|a|a|o|lat lon alt msl|kws ow]; simpl in *;
    try (match goal with
         | |- (_ → ∃ st' d', _ ?a ?st = _ ∧ _ ∧ (∀ t, t ∈ [?tag] → _) ∧ _) ∧ _ =>
             destruct (text_setter_outcome _ tag a st d Hd) as [H1 H2]; split;
             [exact H1|intros Hs; exists st; split; [exact (H2 Hs)|done]]
         end).
  - destruct (date_setter_outcome piexif.ExifIFD.SubSecTimeOriginal
                piexif.ExifIFD.DateTimeOriginal
                (datetime2str dt (py ":") (py " ") (py ":")) st d Hd) as [H1 H2].
    split; [exact H1|]. intros Hs. destruct (H2 Hs) as (st' & Hst).
    exists st'. by split.
  - destruct (date_setter_outcome piexif.ExifIFD.SubSecTimeDigitized
                piexif.ExifIFD.DateTimeDigitized
                (datetime2str dt (py ":") (py " ") (py ":")) st d Hd) as [H1 H2].
    split; [exact H1|]. intros Hs. destruct (H2 Hs) as (st' & Hst).
    exists st'. by split.
  - split; [|intros Hs; destruct Hs; constructor]. intros _.
    destruct (store_on_dict (py "0th") piexif.ImageIFD.Orientation (PInt o) st d Hd)
      as (st' & Hst & Hd' & _).
    exists st', (<[KInt piexif.ImageIFD.Orientation := PInt o]> d).
    split; [done|]. split; [done|]. split.
    + intros t Ht%list_elem_of_singleton. subst t. rewrite lookup_insert_eq. eauto.
    + intros k Hk. rewrite lookup_insert_ne; [done|]. set_solver.
  - done.
  - unfold add_keywords. split.
    + intros Hs.
      destruct (utf16_round_trip big_endian big_endian _ Hs) as (b & Hb & _).
      rewrite Hb.
      destruct (store_on_dict (py "0th") piexif.ImageIFD.XPKeywords (PBytes b) st d Hd)
        as (st' & Hst & Hd' & _).
      exists st', (<[KInt piexif.ImageIFD.XPKeywords := PBytes b]> d).
      split; [done|]. split; [done|]. split.
      * intros t Ht%list_elem_of_singleton. subst t. rewrite lookup_insert_eq. eauto.
      * intros k Hk. rewrite lookup_insert_ne; [done|]. set_solver.
    + intros Hs. exists st. by rewrite (encode_utf16_of_other _ _ Hs).
Qed.

(** X6 (setters on a missing IFD): when the metadata is a dictionary without
    the target IFD key (a fresh manager, or after [clear_metadata]), a setter
    other than [set_gps_data] raises and leaves the manager as it was.  The
    exception is UnicodeEncodeError when the setter encodes before it stores
    and its str holds a code point that is not a Unicode scalar value, and
    KeyError in every other case. *)
Theorem setter_on_missing_ifd (s : Setter) (st : Manager) (m : pydict) :
  metadata st = PDict m →
  m !! KStr (target_ifd s) = None →
  target_ifd s ≠ py "GPS" →
  (stores_first s = true ∨ Forall scalar (encoded_text s st) →
   run_setter s st = (Raise KeyError, st))
  ∧ (stores_first s = false → ¬ Forall scalar (encoded_text s st) →
     run_setter s st = (Raise UnicodeEncodeError, st)).
Proof.
  intros Hmd Hk Hgps.
  assert (Hst : ∀ tag v, store_tag (target_ifd s) tag v st = (Raise KeyError, st))
    by (intros; by apply store_tag_missing with m).
  destruct s as [dt|dt|a|a|a|a|a|a|o|lat lon alt msl|kws ow]; simpl in *;
    try (split;
         [intros [?|Hs]; [done|];
          destruct (encode_utf8_of_scalar a Hs) as (b & Hb & _);
          unfold set_artist, set_camera_maker, set_camera_model, set_copyright,
            set_exif_version, set_software; unfold_monad; by rewrite Hb, Hst
         |intros _ Hs;
          unfold set_artist, set_camera_maker, set_camera_model, set_copyright,
            set_exif_version, set_software; unfold_monad;
          by rewrite (encode_utf8_of_other a Hs)]).
  - split; [|done]. intros _. unfold set_date_original. unfold_monad.
    by rewrite Hst.
  - split; [|done]. intros _. unfold set_date_digitized. unfold_monad.
    by rewrite Hst.
  - split; [|intros _ Hs; destruct Hs; constructor]. intros _.
    unfold set_orientation. by rewrite Hst.
  - done.
  - unfold add_keywords. split.
    + intros [?|Hs]; [done|].
      destruct (utf16_round_trip big_endian big_endian _ Hs) as (b & Hb & _).
      by rewrite Hb, Hst.
    + intros _ Hs. by rewrite (encode_utf16_of_other _ _ Hs).
Qed.

End SetterOutcomes.

Section RoundTrips.
Context {C : Convert} {P : Platform}.

Lemma store_0th_present tag v st st' :
  store_tag (py "0th") tag v st = (Ok tt, st') →
  has_0th_tag st' tag = Ok true ∧ tag_value st' (py "0th") tag = Ok v.
Proof.
  intros Hst.
  destruct (store_tag_cases (py "0th") tag v st)
    as [(m & d & Hmd & Hd & Heq)|[e He]]; [|congruence].
  rewrite Heq in Hst. injection Hst as <-. split.
  - erewrite has_0th_tag_dict; [|reflexivity|apply lookup_insert_eq].
    rewrite bool_decide_eq_true_2; [done|]. rewrite lookup_insert_eq. eauto.
  - erewrite tag_value_dict; [|reflexivity|apply lookup_insert_eq].
    by rewrite lookup_insert_eq.
Qed.

(** what a text setter followed by the getter of the same tag gives *)
Lemma text_round_trip tag s st d :
  py_getitem (metadata st) (KStr (py "0th")) = Ok (PDict d) →
  Forall scalar s →
  ∃ st' b, (v ← lift (py_encode_utf8 s); store_tag (py "0th") tag v) st = (Ok tt, st')
           ∧ (present ← has_0th_tag st' tag;
              if (present : bool) then tag_value st' (py "0th") tag
              else Ok (PStr [])) = Ok (PBytes b)
           ∧ utf8_decode b = Some s.
Proof.
  intros Hd Hs. destruct (utf8_round_trip s Hs) as (b & Hb & Hdec).
  destruct (store_tag_dict (py "0th") tag (PBytes b) st d Hd) as (st' & Hst & _).
  exists st', b. split; [|split; [|exact Hdec]].
  - unfold_monad. unfold py_encode_utf8. rewrite Hb. exact Hst.
  - destruct (store_0th_present _ _ _ _ Hst) as [-> ->]. done.
Qed.

(** X4 (text round trip): after [set_camera_maker], [set_camera_model] or
    [set_copyright] with a str of Unicode scalar values on a '0th' tag
    dictionary, the getter of the same tag returns a bytes object, the UTF-8
    encoding of the str, not the str. *)
Theorem text_setters_round_trip (st : Manager) (d : pydict) (s : pystr) :
  py_getitem (metadata st) (KStr (py "0th")) = Ok (PDict d) →
  Forall scalar s →
  (∃ st' b, set_camera_maker s st = (Ok tt, st')
            ∧ get_camera_maker st' = Ok (PBytes b) ∧ utf8_decode b = Some s)
  ∧ (∃ st' b, set_camera_model s st = (Ok tt, st')
              ∧ get_camera_model st' = Ok (PBytes b) ∧ utf8_decode b = Some s)
  ∧ (∃ st' b, set_copyright s st = (Ok tt, st')
              ∧ get_copyright st' = Ok (PBytes b) ∧ utf8_decode b = Some s).
Proof.
  intros Hd Hs. repeat split.
  - exact (text_round_trip piexif.ImageIFD.Make s st d Hd Hs).
  - exact (text_round_trip piexif.ImageIFD.Model s st d Hd Hs).
  - exact (text_round_trip piexif.ImageIFD.Copyright s st d Hd Hs).
Qed.

Lemma date_round_trip sub tag (dt : datetime) st d :
  sub ≠ tag →
  py_getitem (metadata st) (KStr (py "Exif")) = Ok (PDict d) →
  Forall scalar (datetime2str dt (py ":") (py " ") (py ":")) →
  str2datetime (datetime2str dt (py ":") (py " ") (py ":")) (py ":") (py " ") (py ":")
  = Ok dt →
  ∃ st', (store_tag (py "Exif") sub (PBytes (pyb "00"));;
          v ← lift (py_encode_utf8 (datetime2str dt (py ":") (py " ") (py ":")));
          store_tag (py "Exif") tag v) st = (Ok tt, st')
         ∧ (dttkn ← tag_value st' (py "Exif") tag; parse_date dttkn) = Ok dt
         ∧ (exif ← py_getitem (metadata st') (KStr (py "Exif"));
            py_contains (KInt tag) exif) = Ok true
         ∧ tag_value st' (py "Exif") sub = Ok (PBytes (pyb "00")).
Proof.
  intros Hne Hd Hs Hparse. destruct (utf8_round_trip _ Hs) as (b & Hb & Hdec).
  destruct (store_tag_dict (py "Exif") sub (PBytes (pyb "00")) st d Hd)
    as (s1 & H1 & Hd1 & Hr1).
  destruct (store_tag_dict (py "Exif") tag (PBytes b) s1 _ Hd1)
    as (s2 & H2 & Hd2 & Hr2).
  exists s2. split; [|split; [|split]].
  - unfold_monad. rewrite H1. unfold py_encode_utf8. rewrite Hb. simpl. exact H2.
  - rewrite Hr2. simpl. unfold parse_date. simpl. rewrite Hdec. simpl.
    unfold_monad. by rewrite Hparse.
  - rewrite Hd2. simpl. unfold_monad.
    rewrite bool_decide_eq_true_2; [done|]. rewrite lookup_insert_eq. eauto.
  - assert (s2 = snd (store_tag (py "Exif") tag (PBytes b) s1)) as ->
      by (by rewrite H2).
    rewrite store_tag_preserves by done. exact Hr1.
Qed.

(** X1 (date round trip): when the conversion module writes a date as a str of
    Unicode scalar values and parses that str back to the date,
    [set_date_original] on an 'Exif' tag dictionary returns,
    [get_date_original] then returns the date, the tag is present, the
    SubSecTime tag holds b'00', and the date counts as valid unless its year
    is 1.  The same holds for the digitized date. *)
Theorem dates_round_trip (st : Manager) (d : pydict) (dt : datetime) :
  py_getitem (metadata st) (KStr (py "Exif")) = Ok (PDict d) →
  Forall scalar (datetime2str dt (py ":") (py " ") (py ":")) →
  str2datetime (datetime2str dt (py ":") (py " ") (py ":")) (py ":") (py " ") (py ":")
  = Ok dt →
  (∃ st', set_date_original dt st = (Ok tt, st')
          ∧ get_date_original st' = Ok dt
          ∧ has_date_original st' = Ok true
          ∧ has_valid_date_original st' = Ok (negb (year dt =? 1))
          ∧ tag_value st' (py "Exif") piexif.ExifIFD.SubSecTimeOriginal
            = Ok (PBytes (pyb "00")))
  ∧ (∃ st', set_date_digitized dt st = (Ok tt, st')
            ∧ get_date_digitized st' = Ok dt
            ∧ has_date_digitized st' = Ok true
            ∧ has_valid_date_digitized st' = Ok (negb (year dt =? 1))
            ∧ tag_value st' (py "Exif") piexif.ExifIFD.SubSecTimeDigitized
              = Ok (PBytes (pyb "00"))).
Proof.
  intros Hd Hs Hp. split.
  - destruct (date_round_trip piexif.ExifIFD.SubSecTimeOriginal
                piexif.ExifIFD.DateTimeOriginal dt st d) as (st' & H1 & H2 & H3 & H4);
      [by compute|done..|].
    exists st'. repeat split; try done.
    unfold has_valid_date_original, has_date_original, get_date_original.
    rewrite H3. simpl. by rewrite H2.
  - destruct (date_round_trip piexif.ExifIFD.SubSecTimeDigitized
                piexif.ExifIFD.DateTimeDigitized dt st d) as (st' & H1 & H2 & H3 & H4);
      [by compute|done..|].
    exists st'. repeat split; try done.
    unfold has_valid_date_digitized, has_date_digitized, get_date_digitized.
    rewrite H3. simpl. by rewrite H2.
Qed.

End RoundTrips.

Section DateEdges.
Context {C : Convert} {P : Platform}.

(** X2 (date entries of another shape): a DateTimeOriginal entry that is a
    bytes object but not valid UTF-8 gives the sentinel as well
    (UnicodeDecodeError is a ValueError); an entry that is not a bytes object
    makes [get_date_original] raise AttributeError. *)
Theorem date_entry_of_another_shape (st : Manager) (v : pyval) :
  tag_value st (py "Exif") piexif.ExifIFD.DateTimeOriginal = Ok v →
  (∀ b, v = PBytes b → utf8_decode b = None →
        get_date_original st = Ok sentinel)
  ∧ ((∀ b, v ≠ PBytes b) → get_date_original st = Raise AttributeError).
Proof.
  intros Hv. unfold get_date_original. rewrite Hv. simpl. split.
  - intros b -> Hb. by apply parse_date_undecodable.
  - intros Hn. unfold parse_date. destruct v; try done. by destruct (Hn b).
Qed.

(** X3 (presence checks on missing keys): when the metadata is a dictionary
    without the 'Exif' key, the date checks and the date getters raise
    KeyError; without the 'GPS' key, [has_gps_data] returns False and
    [get_gps_data] raises KeyError. *)
Theorem checks_on_missing_keys (st : Manager) (m : pydict) :
  metadata st = PDict m →
  (m !! KStr (py "Exif") = None →
     has_date_original st = Raise KeyError
     ∧ has_date_digitized st = Raise KeyError
     ∧ has_valid_date_original st = Raise KeyError
     ∧ has_valid_date_digitized st = Raise KeyError
     ∧ get_date_original st = Raise KeyError
     ∧ get_date_digitized st = Raise KeyError)
  ∧ (m !! KStr (py "GPS") = None →
       has_gps_data st = Ok false ∧ get_gps_data st = Raise KeyError).
Proof.
  intros Hmd. split.
  - intros Hk.
    unfold has_valid_date_original, has_valid_date_digitized, has_date_original,
      has_date_digitized, get_date_original, get_date_digitized, tag_value, getitem2.
    rewrite Hmd. simpl. unfold_monad. by rewrite Hk.
  - intros Hk.
    assert (Hg : get_gps_data st = Raise KeyError).
    { unfold get_gps_data, tag_value, getitem2. rewrite Hmd. simpl.
      unfold_monad. by rewrite Hk. }
    split; [|done]. unfold has_gps_data. by rewrite Hg.
Qed.

End DateEdges.

Section LoadExtras.
Context {C : Convert} {P : Platform}.

Lemma load_file_on_readable (w : World) (file : Path) (st : Manager) :
  upper (drop 1 (suffix file)) ∈ READABLE_EXTENSIONS →
  let st' := snd (load_file w file st) in
  _filepath st' = Some file
  ∧ _temporal_keywords st' = []
  ∧ (∀ e, _load_exif_data w file true = Raise e →
          fst (load_file w file st) = Raise e ∧ metadata st' = metadata st)
  ∧ (∀ md, _load_exif_data w file true = Ok md →
           fst (load_file w file st) = Ok tt ∧ metadata st' = md).
Proof.
  intros Hext. unfold load_file.
  rewrite bool_decide_eq_true_2 by exact Hext. simpl.
  destruct (_load_exif_data w file true) as [md|e]; simpl.
  - split; [done|]. split; [done|]. split; [done|].
    intros md' [= <-]. done.
  - split; [done|]. split; [done|]. split; [|done].
    intros e' [= <-]. split; [done|]. by destruct (_log_enabled st).
Qed.

(** X7 (a failed load): with a readable extension, [load_file] replaces the
    file path and empties the temporal keywords before it loads; the metadata
    is replaced only when loading returns, so after a load that raises the
    manager names the new file and holds the metadata of the old one. *)
Theorem load_file_is_not_atomic (w : World) (file : Path) (st : Manager) :
  upper (drop 1 (suffix file)) ∈ READABLE_EXTENSIONS →
  let st' := snd (load_file w file st) in
  _filepath st' = Some file
  ∧ _temporal_keywords st' = []
  ∧ (∀ e, _load_exif_data w file true = Raise e →
          fst (load_file w file st) = Raise e ∧ metadata st' = metadata st)
  ∧ (∀ md, _load_exif_data w file true = Ok md →
           fst (load_file w file st) = Ok tt ∧ metadata st' = md).
Proof. exact (load_file_on_readable w file st). Qed.

Lemma load_items_cons_some (w : World) (k : pystr) (raw : pyval)
  (rest : list (pystr * pyval)) (acc : pydict) (v : pyval) :
  item_value w raw = Some v →
  load_items w ((k, raw) :: rest) acc = load_items w rest (<[KStr k := v]> acc).
Proof.
  unfold item_value. simpl. destruct (piexif_load w raw) as [loaded|e].
  - by intros [= ->].
  - destruct (is_OSError e || is_TypeError e || is_ValueError e).
    + by intros [= ->].
    + destruct (is_StructError e); [by intros [= <-]|discriminate].
Qed.

Lemma load_items_cons_none (w : World) (k : pystr) (raw : pyval)
  (rest : list (pystr * pyval)) (acc : pydict) :
  item_value w raw = None →
  ∃ e, load_items w ((k, raw) :: rest) acc = Raise e.
Proof.
  unfold item_value. simpl. destruct (piexif_load w raw) as [loaded|e]; [discriminate|].
  destruct (is_OSError e || is_TypeError e || is_ValueError e); [discriminate|].
  destruct (is_StructError e); [discriminate|]. eauto.
Qed.

Lemma load_items_ok (w : World) (items : list (pystr * pyval)) (acc : pydict) :
  is_Ok (load_items w items acc) ↔ Forall (λ kv, is_Some (item_value w kv.2)) items.
Proof.
  revert acc. induction items as [|[k raw] items IH]; intros acc.
  - split; [constructor|]. intros _. by eexists.
  - destruct (item_value w raw) as [v|] eqn:Hv.
    + rewrite (load_items_cons_some _ _ _ _ _ _ Hv), IH, Forall_cons. simpl.
      rewrite Hv. split; [by split|by intros [_ ?]].
    + destruct (load_items_cons_none w k raw items acc Hv) as [e ->].
      rewrite Forall_cons. simpl. rewrite Hv. split.
      * by intros [? ?].
      * by intros [[? ?] _].
Qed.

Lemma load_items_lookup (w : World) (items : list (pystr * pyval)) (acc dd : pydict) :
  load_items w items acc = Ok dd →
  (∀ key, (∀ k raw, (k, raw) ∈ items → key ≠ KStr k) → dd !! key = acc !! key)
  ∧ (NoDup items.*1 →
     ∀ k raw, (k, raw) ∈ items → dd !! KStr k = item_value w raw).
Proof.
  revert acc. induction items as [|[k0 raw0] items IH]; intros acc Hload.
  - simpl in Hload. injection Hload as <-.
    split; [done|]. intros _ k raw Hin. by apply not_elem_of_nil in Hin.
  - destruct (item_value w raw0) as [v|] eqn:Hv.
    2:{ destruct (load_items_cons_none w k0 raw0 items acc Hv) as [e He].
        congruence. }
    rewrite (load_items_cons_some _ _ _ _ _ _ Hv) in Hload.
    destruct (IH _ Hload) as [IH1 IH2]. split.
    + intros key Hkey. rewrite IH1.
      * rewrite lookup_insert_ne; [done|]. intros <-.
        apply (Hkey k0 raw0); [by left|done].
      * intros k raw Hin. apply (Hkey k raw). by right.
    + intros Hnd k raw Hin. apply NoDup_cons in Hnd as [Hk0 Hnd].
      apply elem_of_cons in Hin as [[= -> ->]|Hin].
      * rewrite IH1, lookup_insert_eq; [done|].
        intros k raw Hin [= <-]. apply Hk0.
        apply list_elem_of_fmap. by exists (k0, raw).
      * by apply IH2.
Qed.

(** X8 (items of the image info): [_load_metadata] returns exactly when no
    item of [img.info] makes piexif raise an exception outside the handled
    classes; each item is then stored under its key (as loaded by piexif, raw,
    or as an empty dictionary after [struct.error]), and no other key is
    stored. *)
Theorem load_metadata_keeps_every_item
  (w : World) (file : Path) (items : list (pystr * pyval)) :
  image_open w file = Ok items →
  NoDup items.*1 →
  (is_Ok (_load_metadata w file)
   ↔ Forall (λ kv, is_Some (item_value w kv.2)) items)
  ∧ ∀ dd, _load_metadata w file = Ok dd →
      (∀ k raw, (k, raw) ∈ items → dd !! KStr k = item_value w raw)
      ∧ (∀ key v, dd !! key = Some v → ∃ k raw, key = KStr k ∧ (k, raw) ∈ items).
Proof.
  intros Hopen Hnd. unfold _load_metadata. rewrite Hopen. simpl.
  change (Ok items ≫= λ info, load_items w info ∅) with (load_items w items ∅).
  split; [apply load_items_ok|].
  intros dd Hload. destruct (load_items_lookup _ _ _ _ Hload) as [H1 H2].
  split; [by apply H2|].
  intros key v Hv.
  destruct (decide (key ∈ KStr <$> items.*1)) as [Hin|Hn].
  - apply list_elem_of_fmap in Hin as (k & -> & Hin).
    apply list_elem_of_fmap in Hin as ([k' raw] & -> & Hin). eauto.
  - rewrite H1, lookup_empty in Hv; [done|].
    intros k raw Hin ->. apply Hn. apply list_elem_of_fmap. exists k.
    split; [done|]. apply list_elem_of_fmap. by exists (k, raw).
Qed.

Lemma merge_items_raw (items : list (pykey * pyval)) v :
  is_dict v = false →
  merge_items items v = Ok v ∨ merge_items items v = Raise TypeError.
Proof.
  intros Hv. induction items as [|[k x] items IH]; simpl; [by left|].
  case_bool_decide; [|done]. right. by destruct v.
Qed.

(** X9 (unparsed EXIF block): when piexif could not parse the 'exif' item and
    [_load_metadata] kept it as raw bytes, [load_file] raises TypeError and
    the metadata is not replaced. *)
Theorem load_file_fails_on_raw_exif
  (w : World) (file : Path) (st : Manager) (dd : pydict) (b : list byte) :
  upper (drop 1 (suffix file)) ∈ READABLE_EXTENSIONS →
  _load_metadata w file = Ok dd →
  dd !! KStr (py "exif") = Some (PBytes b) →
  fst (load_file w file st) = Raise TypeError
  ∧ metadata (snd (load_file w file st)) = metadata st.
Proof.
  intros Hext Hdd Hx.
  assert (He : _load_exif_data w file true = Raise TypeError).
  { rewrite (load_exif_data_unfold w file dd Hdd), Hx.
    destruct (merge_items_raw (map_to_list dd) (PBytes b) eq_refl) as [->| ->];
      reflexivity. }
  destruct (load_file_on_readable w file st Hext) as (_ & _ & Hraise & _).
  exact (Hraise _ He).
Qed.

(** X10 (no other key): after [load_file] has returned, a key that is not one
    of the four basic keys, not an item of the image info and not an entry of
    the 'exif' sub-dictionary is missing from the metadata, and the 'exif'
    item itself is not carried to the top level. *)
Theorem load_file_invents_no_key
  (w : World) (file : Path) (st st' : Manager) (dd e : pydict) :
  load_file w file st = (Ok tt, st') →
  _load_metadata w file = Ok dd →
  (dd !! KStr (py "exif") = Some (PDict e)
   ∨ (dd !! KStr (py "exif") = None ∧ e = ∅)) →
  (∀ k, k ∉ KStr <$> basic_keywords → dd !! k = None → e !! k = None →
        py_getitem (metadata st') k = Raise KeyError)
  ∧ py_getitem (metadata st') (KStr (py "exif"))
    = of_option KeyError (e !! KStr (py "exif")).
Proof.
  intros Hload Hdd He.
  destruct (load_file_ok _ _ _ _ Hload) as (md & Hmd & -> & _).
  destruct (load_exif_data_cases w file dd md Hdd Hmd)
    as [(e' & He' & final & -> & Hfinal)|(v & Hx & Hv & _)].
  - assert (e' = e) as ->.
    { destruct He as [He|[He ->]], He' as [He'|[He' ->]]; congruence. }
    split.
    + intros k Hk Hdk Hek. simpl. rewrite Hfinal. unfold merged_lookup.
      rewrite Hdk, Hek.
      destruct (decide (k = KStr (py "exif"))); by rewrite decide_False by exact Hk.
    + simpl. rewrite Hfinal. unfold merged_lookup.
      rewrite decide_True by done.
      destruct (e !! KStr (py "exif")); [done|].
      rewrite decide_False; [done|]. by_evaluation.
  - exfalso. destruct He as [He|[He _]]; [|congruence].
    rewrite He in Hx. injection Hx as <-. discriminate.
Qed.

End LoadExtras.

Section SaveAndInvariants.
Context {C : Convert} {P : Platform}.

Lemma save_file_keeps_the_manager_aux
  (w : World) (filename : pystr) (overwrite : bool) (st : Manager) :
  let st' := snd (save_file w filename overwrite st) in
  metadata st' = metadata st
  ∧ _filepath st' = _filepath st
  ∧ _temporal_keywords st' = _temporal_keywords st
  ∧ _log_enabled st' = _log_enabled st
  ∧ (log st' = log st
     ∨ ∃ n p, _log_enabled st = true ∧ log st' = log st ++ [LogWriting n p]).
Proof.
  unfold save_file. destruct (_filepath st) as [fp|] eqn:Hfp; simpl;
    [|repeat split; auto].
  destruct (negb _); simpl; [repeat split; auto|].
  destruct (piexif_dump w (metadata st)); simpl; [|repeat split; auto].
  destruct (_log_enabled st) eqn:Hl; simpl; repeat split; auto.
  right. eauto.
Qed.

(** X13 (saving leaves the manager alone): [save_file] never changes the
    metadata, the file path or the temporal keywords; the log grows by at most
    the record of the write; and on a manager that has loaded no file it
    raises a bare AssertionError in every world. *)
Theorem save_file_keeps_the_manager
  (w : World) (filename : pystr) (overwrite : bool) (st : Manager) :
  let st' := snd (save_file w filename overwrite st) in
  metadata st' = metadata st
  ∧ _filepath st' = _filepath st
  ∧ _temporal_keywords st' = _temporal_keywords st
  ∧ _log_enabled st' = _log_enabled st
  ∧ (log st' = log st
     ∨ ∃ n p, _log_enabled st = true ∧ log st' = log st ++ [LogWriting n p])
  ∧ (_filepath st = None →
     save_file w filename overwrite st = (Raise (AssertionError []), st)).
Proof.
  destruct (save_file_keeps_the_manager_aux w filename overwrite st)
    as (H1 & H2 & H3 & H4 & H5).
  repeat split; try done.
  intros Hfp. unfold save_file. by rewrite Hfp.
Qed.

Lemma run_call_invariants c st :
  (∀ f, _filepath st = Some f → upper (drop 1 (suffix f)) ∈ READABLE_EXTENSIONS) →
  (_log_enabled st = false → log st = []) →
  let st' := snd (run_call c st) in
  (∀ f, _filepath st' = Some f → upper (drop 1 (suffix f)) ∈ READABLE_EXTENSIONS)
  ∧ (_log_enabled st' = false → log st' = [])
  ∧ _log_enabled st' = _log_enabled st.
Proof.
  intros Hf Hl. destruct c as [s|w file|w filename overwrite| |md]; simpl.
  - destruct (run_setter_frame s st) as (_ & _ & -> & -> & -> & _). auto.
  - unfold load_file.
    destruct (decide (upper (drop 1 (suffix file)) ∈ READABLE_EXTENSIONS)) as [Hin|Hn].
    + rewrite bool_decide_eq_true_2 by done. simpl.
      destruct (_load_exif_data w file true); simpl;
        destruct (_log_enabled st) eqn:E; simpl;
        (split; [by intros f [= <-]|split; [intros E'; (congruence || auto)|done]]).
    + rewrite bool_decide_eq_false_2 by done. simpl.
      destruct (_log_enabled st) eqn:E; simpl;
        (split; [done|split; [intros E'; (congruence || auto)|done]]).
  - destruct (save_file_keeps_the_manager_aux w filename overwrite st)
      as (_ & -> & _ & He & Hlog). rewrite He. repeat split; auto.
    intros E. destruct Hlog as [->|(n & p & E' & _)]; [auto|congruence].
  - auto.
  - auto.
Qed.

(** X14 (invariants of the manager): in every reachable state the file path,
    when there is one, has a readable extension, and a manager created without
    a logger has an empty log. *)
Theorem reachable_file_path_is_readable (st : Manager) :
  reachable st →
  (∀ f, _filepath st = Some f → upper (drop 1 (suffix f)) ∈ READABLE_EXTENSIONS)
  ∧ (_log_enabled st = false → log st = []).
Proof.
  induction 1 as [logger|st c Hr [IH1 IH2]].
  - split; [discriminate|done].
  - destruct (run_call_invariants c st IH1 IH2) as (H1 & H2 & _). by split.
Qed.

End SaveAndInvariants.

Section KeywordExtras.

Lemma split_nonempty c (s : pystr) : ∃ h t, split c s = h :: t.
Proof.
  induction s as [|x s (h & t & IH)]; simpl; [eauto|].
  destruct (x =? c)%N; [eauto|]. rewrite IH. eauto.
Qed.

Lemma split_app c (x y : pystr) :
  split c (x ++ c :: y) = split c x ++ split c y.
Proof.
  induction x as [|a x IH]; simpl.
  - by rewrite N.eqb_refl.
  - destruct (a =? c)%N.
    + by rewrite IH.
    + rewrite IH. by destruct (split_nonempty c x) as (h & t & ->).
Qed.

Lemma split_join_concat c (parts : list pystr) :
  parts ≠ [] → split c (join [c] parts) = concat (map (split c) parts).
Proof.
  induction parts as [|x l IH]; [done|]. intros _.
  destruct l as [|y l].
  - simpl. by rewrite app_nil_r.
  - change (join [c] (x :: y :: l)) with (x ++ c :: join [c] (y :: l)).
    rewrite split_app, IH by done. done.
Qed.

Lemma utf16_decode_without_mark big b0 b1 r :
  (b0, b1) ≠ (xff, xfe) → (b0, b1) ≠ (xfe, xff) →
  utf16_decode big (b0 :: b1 :: r)
  = units_of_bytes big (b0 :: b1 :: r) ≫= utf16_points.
Proof.
  intros H1 H2. unfold utf16_decode.
  destruct b0; try reflexivity; destruct b1; try reflexivity; congruence.
Qed.

Lemma split_once_app c (s rest : pystr) :
  c ∉ s → split_once c (s ++ c :: rest) = [s; rest].
Proof.
  induction s as [|x s IH]; intros Hn; simpl.
  - by rewrite N.eqb_refl.
  - apply not_elem_of_cons in Hn as [Hx Hs].
    destruct (N.eqb_spec x c) as [->|_]; [done|]. by rewrite IH.
Qed.

Lemma first_unit_is_no_mark c s us :
  utf16_units (c :: s) = Some us → c ≠ 0xFEFF%N → c ≠ 0xFFFE%N →
  ∃ u us', us = u :: us' ∧ u ≠ 0xFEFF%N ∧ u ≠ 0xFFFE%N ∧ (u < 65536)%N.
Proof.
  simpl. unfold utf16_units_char.
  destruct (N.ltb_spec c 0x10000) as [Hlt|Hge].
  - destruct (is_surrogate c); [discriminate|].
    destruct (utf16_units s) as [ur|]; [|discriminate].
    intros [= <-] H1 H2. simpl. eauto 10.
  - destruct (N.ltb_spec c 0x110000) as [Hlt|?]; [|discriminate].
    destruct (utf16_units s) as [ur|]; [|discriminate].
    intros [= <-] _ _. simpl.
    assert (Hq : ((c - 0x10000) / 1024 < 1024)%N)
      by (apply N.Div0.div_lt_upper_bound; lia).
    set (q := ((c - 0x10000) / 1024)%N) in *. clearbody q.
    do 2 eexists. split; [reflexivity|]. lia.
Qed.

Lemma unit_bytes_are_no_mark big u :
  (u < 65536)%N → u ≠ 0xFEFF%N → u ≠ 0xFFFE%N →
  ∃ b0 b1, unit_bytes big u = [b0; b1]
           ∧ (b0, b1) ≠ (xff, xfe) ∧ (b0, b1) ≠ (xfe, xff).
Proof.
  intros Hu H1 H2. destruct (unit_of_unit_bytes big u Hu) as (b0 & b1 & Hb & Hr).
  exists b0, b1. split; [done|]. unfold unit_of in Hr.
  split; intros [= -> ->]; destruct big; simpl in Hr; lia.
Qed.

Section WithPlatform.
Context {P : Platform}.

(** X15 (keywords without a byte-order mark): [get_keywords] reads keywords
    stored without a byte-order mark in the host's byte order (the first code
    point being neither U+FEFF nor U+FFFE), and ignores everything from the
    first NUL on. *)
Theorem get_keywords_reads_unmarked_text
  (st : Manager) (d : pydict) (v : pyval) (s rest : pystr) (us : list N) :
  py_getitem (metadata st) (KStr (py "0th")) = Ok (PDict d) →
  d !! KInt piexif.ImageIFD.XPKeywords = Some v →
  utf16_units (s ++ 0%N :: rest) = Some us →
  py_bytes v = Ok (concat (map (unit_bytes big_endian) us)) →
  0%N ∉ s →
  (∀ c s', s = c :: s' → c ≠ 0xFEFF%N ∧ c ≠ 0xFFFE%N) →
  get_keywords st = Ok (split 0x3B%N s).
Proof.
  intros Hd Hv Hus Hb H0 Hmark.
  apply getitem_dict in Hd as (m & Hmd & Hm).
  assert (Hh : has_0th_tag st piexif.ImageIFD.XPKeywords = Ok true).
  { rewrite (has_0th_tag_dict st m d _ Hmd Hm).
    rewrite bool_decide_eq_true_2; [done|]. eauto. }
  assert (Ht : tag_value st (py "0th") piexif.ImageIFD.XPKeywords = Ok v).
  { rewrite (tag_value_dict st m d _ _ Hmd Hm). by rewrite Hv. }
  rewrite (get_keywords_present st v Hh Ht), Hb. simpl.
  unfold mbind at 1, result_bind at 1, rbind.
  assert (Hdec : utf16_decode big_endian (concat (map (unit_bytes big_endian) us))
                 = Some (s ++ 0%N :: rest)).
  { destruct (utf16_units_round_trip _ (utf16_units_scalar _ _ Hus))
      as (us' & Hus' & Hlt & Hp).
    rewrite Hus in Hus'. injection Hus' as <-.
    assert (∃ c s', s ++ 0%N :: rest = c :: s' ∧ c ≠ 0xFEFF%N ∧ c ≠ 0xFFFE%N)
      as (c & s' & Hcs & Hc1 & Hc2).
    { destruct s as [|c s'].
      - exists 0%N, rest. done.
      - exists c, (s' ++ 0%N :: rest). destruct (Hmark c s' eq_refl). done. }
    rewrite Hcs in Hus.
    destruct (first_unit_is_no_mark c s' us Hus Hc1 Hc2)
      as (u & ur & -> & Hu1 & Hu2 & Hu).
    destruct (unit_bytes_are_no_mark big_endian u Hu Hu1 Hu2)
      as (b0 & b1 & Hbs & Hn1 & Hn2).
    pose proof (units_round_trip big_endian (u :: ur) Hlt) as Hunits.
    assert (Hcat : concat (map (unit_bytes big_endian) (u :: ur))
                   = b0 :: b1 :: concat (map (unit_bytes big_endian) ur)).
    { change (concat (map (unit_bytes big_endian) (u :: ur)))
        with (unit_bytes big_endian u ++ concat (map (unit_bytes big_endian) ur)).
      by rewrite Hbs. }
    rewrite Hcat in Hunits |- *.
    rewrite utf16_decode_without_mark by done.
    rewrite Hunits. exact Hp. }
  rewrite Hdec. simpl. rewrite split_once_app by done.
  by rewrite seq_index_head.
Qed.

End WithPlatform.

(** keywords written on one host and read on another *)
Lemma keywords_written_and_read (P1 P2 : Platform)
  (st : Manager) (d : pydict) (keywords : list pystr) :
  py_getitem (metadata st) (KStr (py "0th")) = Ok (PDict d) →
  Forall (Forall scalar) keywords →
  0%N ∉ join (py ";") keywords →
  ∃ st', add_keywords (P := P1) keywords true st = (Ok tt, st')
         ∧ get_keywords (P := P2) st' = Ok (split 0x3B%N (join (py ";") keywords)).
Proof.
  intros Hd Hall H0.
  assert (Hsc : Forall scalar (join (py ";") keywords)).
  { apply join_Forall; [|done]. repeat constructor. }
  destruct (utf16_round_trip (@big_endian P1) (@big_endian P2) _ Hsc)
    as (b & Hb & Hdec).
  destruct (store_tag_ok (py "0th") piexif.ImageIFD.XPKeywords (PBytes b) st d Hd)
    as [st' Hst].
  assert (Hadd : add_keywords (P := P1) keywords true st = (Ok tt, st')).
  { unfold add_keywords. simpl. by rewrite Hb. }
  exists st'. split; [exact Hadd|].
  destruct (add_keywords_stored (P := P1) _ _ _ _ Hadd) as (Hh & b' & Hv & Hb').
  simpl in Hb'. rewrite Hb in Hb'. injection Hb' as <-.
  exact (get_keywords_decodes (P := P2) st' b _ Hh Hv Hdec H0).
Qed.

Lemma no_nul_in_join (keywords : list pystr) :
  Forall (λ k : pystr, 0%N ∉ k) keywords → 0%N ∉ join (py ";") keywords.
Proof.
  intros Hall.
  assert (H0 : Forall (λ c, c ≠ 0%N) (join (py ";") keywords)).
  { apply join_Forall.
    - repeat constructor. done.
    - apply Forall_forall. intros k Hk. rewrite Forall_forall in Hall.
      apply Forall_forall. intros c Hc ->. by apply (Hall k Hk). }
  rewrite Forall_forall in H0. intros Hin. by apply (H0 _ Hin).
Qed.

(** X16 (keywords across byte orders): keywords stored by [add_keywords] on a
    host of one byte order are read back by [get_keywords] on a host of the
    other: the byte-order mark that is written decides how the bytes are
    decoded. *)
Theorem keywords_round_trip_across_hosts (P1 P2 : Platform)
  (st : Manager) (d : pydict) (keywords : list pystr) :
  py_getitem (metadata st) (KStr (py "0th")) = Ok (PDict d) →
  keywords ≠ [] →
  Forall plain_keyword keywords →
  ∃ st', add_keywords (P := P1) keywords true st = (Ok tt, st')
         ∧ get_keywords (P := P2) st' = Ok keywords.
Proof.
  intros Hd Hne Hall.
  destruct (plain_keywords_join keywords Hall) as (_ & H0 & Hsep).
  destruct (keywords_written_and_read P1 P2 st d keywords Hd) as (st' & H1 & H2);
    [|exact H0|].
  { apply Forall_forall. intros k Hk. rewrite Forall_forall in Hall.
    specialize (Hall k Hk). unfold plain_keyword in Hall.
    rewrite Forall_forall in Hall. apply Forall_forall. intros c Hc.
    by destruct (Hall c Hc). }
  exists st'. split; [exact H1|]. rewrite H2.
  change (py ";") with [0x3B%N]. by rewrite split_join.
Qed.

(** X17 (keywords are not escaped): for keywords of Unicode scalar values
    without NUL, [get_keywords] after [add_keywords(keywords, overwrite=True)]
    returns the pieces of each keyword between its ';' characters: a keyword
    that contains ';' comes back as several keywords. *)
Theorem keywords_are_cut_at_semicolons {P : Platform}
  (st : Manager) (d : pydict) (keywords : list pystr) :
  py_getitem (metadata st) (KStr (py "0th")) = Ok (PDict d) →
  keywords ≠ [] →
  Forall (Forall scalar) keywords →
  Forall (λ k : pystr, 0%N ∉ k) keywords →
  ∃ st', add_keywords keywords true st = (Ok tt, st')
         ∧ get_keywords st' = Ok (concat (map (split 0x3B%N) keywords)).
Proof.
  intros Hd Hne Hall H0.
  destruct (keywords_written_and_read P P st d keywords Hd Hall
              (no_nul_in_join keywords H0)) as (st' & H1 & H2).
  exists st'. split; [exact H1|]. rewrite H2.
  change (py ";") with [0x3B%N]. by rewrite split_join_concat.
Qed.

End KeywordExtras.

Section GpsExtras.
Context {C : Convert} {P : Platform}.

Lemma tag_value_of_dict st ifd d tag :
  py_getitem (metadata st) (KStr ifd) = Ok (PDict d) →
  tag_value st ifd tag = of_option KeyError (d !! KInt tag).
Proof. intros Hd. unfold tag_value, getitem2. by rewrite Hd. Qed.

Lemma gps2val_of_pairs n1 d1 n2 d2 n3 d3 zone_positive :
  d1 ≠ 0 → d2 ≠ 0 → d3 ≠ 0 →
  _gps2val (PTuple [PTuple [PInt n1; PInt d1]; PTuple [PInt n2; PInt d2];
                    PTuple [PInt n3; PInt d3]]) zone_positive
  = Ok (dms_zone2deg (Qred (inject_Z n1 / inject_Z d1))
          (Qred (inject_Z n2 / inject_Z d2))
          (Qred (inject_Z n3 / inject_Z d3)) zone_positive).
Proof.
  intros H1 H2 H3. unfold _gps2val, getitem2. simpl. unfold_monad.
  by rewrite !truediv_ints by done.
Qed.

Lemma set_gps_data_stores lat lon alt msl st d :
  py_getitem (metadata st) (KStr (py "GPS")) = Ok (PDict d) →
  ∃ st' lat_d lat_m lat_s lat_z lon_d lon_m lon_s lon_z,
    deg2dms_zone lat (py "N", py "S") = (lat_d, lat_m, lat_s, lat_z)
    ∧ deg2dms_zone lon (py "E", py "W") = (lon_d, lon_m, lon_s, lon_z)
    ∧ set_gps_data lat lon alt msl st = (Ok tt, st')
    ∧ py_getitem (metadata st') (KStr (py "GPS")) =
      Ok (PDict
            (<[KInt piexif.GPSIFD.GPSAltitude := hundredths alt]>
            (<[KInt piexif.GPSIFD.GPSLongitude :=
                 PTuple [whole lon_d; whole lon_m; hundredths lon_s]]>
            (<[KInt piexif.GPSIFD.GPSLatitude :=
                 PTuple [whole lat_d; whole lat_m; hundredths lat_s]]>
            (<[KInt piexif.GPSIFD.GPSLongitudeRef := PStr lon_z]>
            (<[KInt piexif.GPSIFD.GPSLatitudeRef := PStr lat_z]>
            (<[KInt piexif.GPSIFD.GPSAltitudeRef := PInt (if msl then 1 else 0)]>
            (<[KInt piexif.GPSIFD.GPSVersionID :=
                 PTuple [PInt 2; PInt 2; PInt 0; PInt 0]]> d)))))))).
Proof.
  intros Hd. unfold set_gps_data.
  destruct (deg2dms_zone lat _) as [[[lat_d lat_m] lat_s] lat_z].
  destruct (deg2dms_zone lon _) as [[[lon_d lon_m] lon_s] lon_z].
  destruct (store_tag_dict (py "GPS") piexif.GPSIFD.GPSVersionID
              (PTuple [PInt 2; PInt 2; PInt 0; PInt 0]) st _ Hd) as (s1 & E1 & D1 & _).
  destruct (store_tag_dict (py "GPS") piexif.GPSIFD.GPSAltitudeRef
              (PInt (if msl then 1 else 0)) s1 _ D1) as (s2 & E2 & D2 & _).
  destruct (store_tag_dict (py "GPS") piexif.GPSIFD.GPSLatitudeRef
              (PStr lat_z) s2 _ D2) as (s3 & E3 & D3 & _).
  destruct (store_tag_dict (py "GPS") piexif.GPSIFD.GPSLongitudeRef
              (PStr lon_z) s3 _ D3) as (s4 & E4 & D4 & _).
  destruct (store_tag_dict (py "GPS") piexif.GPSIFD.GPSLatitude
              (PTuple [whole lat_d; whole lat_m; hundredths lat_s]) s4 _ D4)
    as (s5 & E5 & D5 & _).
  destruct (store_tag_dict (py "GPS") piexif.GPSIFD.GPSLongitude
              (PTuple [whole lon_d; whole lon_m; hundredths lon_s]) s5 _ D5)
    as (s6 & E6 & D6 & _).
  destruct (store_tag_dict (py "GPS") piexif.GPSIFD.GPSAltitude
              (hundredths alt) s6 _ D6) as (s7 & E7 & D7 & _).
  exists s7, lat_d, lat_m, lat_s, lat_z, lon_d, lon_m, lon_s, lon_z.
  split; [done|]. split; [done|]. split; [|exact D7].
  unfold_monad. by rewrite E1, E2, E3, E4, E5, E6.
Qed.

Lemma int_of_float_whole (x : Q) (n : Z) :
  (x == inject_Z n)%Q → int_of_float x = n.
Proof.
  intros Hx. unfold int_of_float. destruct x as [a b]. unfold Qeq in Hx.
  simpl in *. rewrite Z.mul_1_r in Hx. rewrite Hx. by apply Z.quot_mul.
Qed.

Lemma hundredths_whole (x : Q) (n : Z) :
  (x * inject_Z 100 == inject_Z n)%Q → hundredths x = PTuple [PInt n; PInt 100].
Proof. intros Hx. unfold hundredths. by rewrite (int_of_float_whole _ n Hx). Qed.

(** X18 (altitude round trip): let the degrees and minutes that the
    conversion module returns be whole numbers below 2^53, and let the
    seconds it returns and the altitude be floats whose hundredfold is a
    whole number below 2^53 (so that the products by 100 are exact in
    floating point).  Then [set_gps_data] on a 'GPS' tag dictionary returns
    and stores the altitude as (100 * alt, 100); [has_gps_data] is then True
    and [get_gps_data] returns the sea-level flag as it was set and the
    altitude itself. *)
Theorem altitude_round_trip
  (st : Manager) (d : pydict) (lat lon alt : Q) (mean_sea_level : bool)
  (lat_d lat_m : Z) (lat_s : Q) (lat_z : pystr)
  (lon_d lon_m : Z) (lon_s : Q) (lon_z : pystr) (n_lat n_lon n_alt : Z) :
  py_getitem (metadata st) (KStr (py "GPS")) = Ok (PDict d) →
  deg2dms_zone lat (py "N", py "S") = (lat_d, lat_m, lat_s, lat_z) →
  deg2dms_zone lon (py "E", py "W") = (lon_d, lon_m, lon_s, lon_z) →
  Forall (λ z, Z.abs z < 2 ^ 53) [lat_d; lat_m; lon_d; lon_m] →
  exact_hundredths lat_s n_lat →
  exact_hundredths lon_s n_lon →
  exact_hundredths alt n_alt →
  ∃ st' lat' lon' alt',
    set_gps_data lat lon alt mean_sea_level st = (Ok tt, st')
    ∧ tag_value st' (py "GPS") piexif.GPSIFD.GPSAltitude
      = Ok (PTuple [PInt n_alt; PInt 100])
    ∧ get_gps_data st' = Ok (lat', lon', alt', mean_sea_level)
    ∧ has_gps_data st' = Ok true
    ∧ (alt' == alt)%Q.
Proof.
  intros Hd Hlat Hlon _ (_ & Hnlat & _) (_ & Hnlon & _) (_ & Hnalt & _).
  destruct (set_gps_data_stores lat lon alt mean_sea_level st d Hd)
    as (st' & lat_d' & lat_m' & lat_s' & lat_z' & lon_d' & lon_m' & lon_s' & lon_z'
        & Hlat' & Hlon' & Hset & Hgps).
  rewrite Hlat in Hlat'. injection Hlat' as <- <- <- <-.
  rewrite Hlon in Hlon'. injection Hlon' as <- <- <- <-.
  rewrite (hundredths_whole _ _ Hnlat), (hundredths_whole _ _ Hnlon),
    (hundredths_whole _ _ Hnalt) in Hgps.
  assert (Halt : tag_value st' (py "GPS") piexif.GPSIFD.GPSAltitude
                 = Ok (PTuple [PInt n_alt; PInt 100])).
  { rewrite (tag_value_of_dict st' _ _ _ Hgps). by rewrite lookup_insert_eq. }
  assert (Hget : ∃ lat' lon', get_gps_data st'
            = Ok (lat', lon', Qred (inject_Z n_alt / inject_Z 100), mean_sea_level)).
  { unfold get_gps_data. rewrite !(tag_value_of_dict st' _ _ _ Hgps).
    repeat (rewrite lookup_insert_eq
            || rewrite lookup_insert_ne by (compute; congruence)).
    cbn [of_option]. unfold whole.
    rewrite !bind_Ok. cbv zeta. rewrite gps2val_of_pairs by done.
    rewrite !bind_Ok. cbv zeta. rewrite gps2val_of_pairs by done.
    rewrite !bind_Ok.
    change (py_getitem (PTuple [PInt n_alt; PInt 100]) (KInt 0))
      with (Ok (PInt n_alt)).
    change (py_getitem (PTuple [PInt n_alt; PInt 100]) (KInt 1))
      with (Ok (PInt 100)).
    rewrite !bind_Ok, truediv_ints by done. rewrite bind_Ok.
    do 2 eexists. do 2 f_equal. by destruct mean_sea_level. }
  destruct Hget as (lat' & lon' & Hget).
  exists st', lat', lon', (Qred (inject_Z n_alt / inject_Z 100)).
  split; [exact Hset|]. split; [exact Halt|]. split; [exact Hget|].
  split; [unfold has_gps_data; by rewrite Hget|].
  rewrite Qred_correct, <- Hnalt. field.
Qed.

(** X19 (zero denominators): when the 'GPS' tag dictionary holds a latitude
    reference and a latitude made of three pairs of 32-bit ints one of which
    has a zero denominator, [get_gps_data] and [has_gps_data] raise
    ZeroDivisionError. *)
Theorem zero_denominator_raises
  (st : Manager) (d : pydict) (ref : pyval) (n1 d1 n2 d2 n3 d3 : Z) :
  py_getitem (metadata st) (KStr (py "GPS")) = Ok (PDict d) →
  d !! KInt piexif.GPSIFD.GPSLatitude
  = Some (PTuple [PTuple [PInt n1; PInt d1]; PTuple [PInt n2; PInt d2];
                  PTuple [PInt n3; PInt d3]]) →
  d !! KInt piexif.GPSIFD.GPSLatitudeRef = Some ref →
  Forall (λ z, Z.abs z < 2 ^ 32) [n1; d1; n2; d2; n3; d3] →
  d1 = 0 ∨ d2 = 0 ∨ d3 = 0 →
  get_gps_data st = Raise ZeroDivisionError
  ∧ has_gps_data st = Raise ZeroDivisionError.
Proof.
  intros Hd Hlat Href _ Hz.
  assert (Hget : get_gps_data st = Raise ZeroDivisionError).
  { unfold get_gps_data. rewrite !(tag_value_of_dict st _ _ _ Hd), Hlat, Href.
    simpl. unfold _gps2val, getitem2. simpl. unfold_monad.
    destruct (Z.eq_dec d1 0) as [->|H1]; [reflexivity|].
    rewrite (truediv_ints n1 d1) by done.
    destruct (Z.eq_dec d2 0) as [->|H2]; [reflexivity|].
    rewrite (truediv_ints n2 d2) by done.
    destruct (Z.eq_dec d3 0) as [->|H3]; [reflexivity|]. lia. }
  split; [exact Hget|]. unfold has_gps_data. by rewrite Hget.
Qed.

End GpsExtras.

Section ExtensionExtras.
Context {C : Convert} {P : Platform}.

Lemma load_file_rejects_ext (w : World) (file : Path) (st : Manager) :
  upper (drop 1 (suffix file)) ∉ READABLE_EXTENSIONS →
  ∃ st', load_file w file st = (Raise (AssertionError (reading_err_msg file)), st')
         ∧ log st' = (if _log_enabled st then log st ++ [LogLoading file] else log st)
         ∧ metadata st' = metadata st
         ∧ _filepath st' = _filepath st
         ∧ _temporal_keywords st' = _temporal_keywords st.
Proof.
  intros Hext. unfold load_file.
  rewrite bool_decide_eq_false_2 by exact Hext. simpl.
  eexists. split; [reflexivity|]. by destruct (_log_enabled st).
Qed.

Lemma rfind_from_absent i c (s : pystr) : c ∉ s → rfind_from i c s = -1.
Proof.
  revert i. induction s as [|x s IH]; intros i Hn; [done|].
  apply not_elem_of_cons in Hn as [Hx Hs]. simpl. rewrite IH by done. simpl.
  destruct (N.eqb_spec x c); [congruence|done].
Qed.

Lemma rfind_from_last i c (stem ext : pystr) :
  0 ≤ i → c ∉ ext →
  rfind_from i c (stem ++ c :: ext) = i + Z.of_nat (length stem).
Proof.
  revert i. induction stem as [|x stem IH]; intros i Hi Hn.
  - simpl. rewrite rfind_from_absent by done. simpl. rewrite N.eqb_refl. lia.
  - cbn [app rfind_from]. rewrite IH by (done || lia).
    replace (0 <=? i + 1 + Z.of_nat (length stem)) with true
      by (symmetry; apply Z.leb_le; lia).
    cbn [length]. lia.
Qed.

Lemma suffix_of_name dir (stem ext : pystr) :
  stem ≠ [] → ext ≠ [] → 0x2E%N ∉ ext →
  suffix (mkPath dir (stem ++ 0x2E%N :: ext)) = 0x2E%N :: ext.
Proof.
  intros Hs He Hn. unfold suffix. cbn [name].
  rewrite rfind_from_last by (done || lia).
  rewrite length_app. cbn [length].
  destruct stem as [|x stem]; [done|]. destruct ext as [|y ext]; [done|].
  cbn [length].
  replace (0 <? 0 + Z.of_nat (S (length stem))) with true
    by (symmetry; apply Z.ltb_lt; lia).
  replace (0 + Z.of_nat (S (length stem))
           <? Z.of_nat (S (length stem) + S (S (length ext))) - 1) with true
    by (symmetry; apply Z.ltb_lt; lia).
  cbn [andb]. rewrite Z.add_0_l, Nat2Z.id.
  change (S (length stem)) with (length (x :: stem)).
  by rewrite drop_app_length.
Qed.

Lemma suffix_missing dir (fname : pystr) :
  0x2E%N ∉ fname
  ∨ (∃ rest, fname = 0x2E%N :: rest ∧ 0x2E%N ∉ rest)
  ∨ (∃ stem, fname = stem ++ [0x2E%N]) →
  suffix (mkPath dir fname) = [].
Proof.
  unfold suffix. cbn [name].
  intros [Hn|[(rest & -> & Hn)|(stem & ->)]].
  - by rewrite rfind_from_absent.
  - pose proof (rfind_from_last 0 0x2E%N [] rest (Z.le_refl 0) Hn) as H.
    cbn [app] in H. rewrite H. done.
  - rewrite (rfind_from_last 0 _ stem []) by (lia || apply not_elem_of_nil).
    rewrite length_app. cbn [length].
    replace (0 + Z.of_nat (length stem) <? Z.of_nat (length stem + 1) - 1)
      with false by (symmetry; apply Z.ltb_ge; lia).
    by rewrite andb_false_r.
Qed.

(** X11 (extension check): [load_file] looks at the part of the file name
    after its last dot, whatever its case: a name with a non-empty stem and
    extension passes the check when the upper-cased extension is JPG, JPEG or
    PNG, and is refused with the manager's file path unchanged otherwise. *)
Theorem load_file_checks_the_last_extension
  (w : World) (dir stem ext : pystr) (st : Manager) :
  stem ≠ [] → ext ≠ [] → 0x2E%N ∉ ext →
  let file := mkPath dir (stem ++ 0x2E%N :: ext) in
  (upper ext ∈ READABLE_EXTENSIONS →
     _filepath (snd (load_file w file st)) = Some file)
  ∧ (upper ext ∉ READABLE_EXTENSIONS →
       fst (load_file w file st) = Raise (AssertionError (reading_err_msg file))
       ∧ _filepath (snd (load_file w file st)) = _filepath st).
Proof.
  intros Hs He Hn file.
  assert (Hsfx : upper (drop 1 (suffix file)) = upper ext).
  { unfold file. by rewrite suffix_of_name. }
  split; intros Hext; rewrite <- Hsfx in Hext.
  - by destruct (load_file_on_readable w file st Hext).
  - destruct (load_file_rejects_ext w file st Hext) as (st' & Hl & _ & _ & Hf & _).
    rewrite Hl. by split.
Qed.

(** X12 (names without a suffix): a file name without a dot, with only a
    leading dot, or ending in a dot has no suffix, and [load_file] refuses it,
    leaving the file path and the metadata as they were. *)
Theorem load_file_refuses_names_without_suffix
  (w : World) (dir name : pystr) (st : Manager) :
  0x2E%N ∉ name
  ∨ (∃ rest, name = 0x2E%N :: rest ∧ 0x2E%N ∉ rest)
  ∨ (∃ stem, name = stem ++ [0x2E%N]) →
  fst (load_file w (mkPath dir name) st)
  = Raise (AssertionError (reading_err_msg (mkPath dir name)))
  ∧ _filepath (snd (load_file w (mkPath dir name) st)) = _filepath st
  ∧ metadata (snd (load_file w (mkPath dir name) st)) = metadata st.
Proof.
  intros Hname.
  assert (Hext : upper (drop 1 (suffix (mkPath dir name))) ∉ READABLE_EXTENSIONS).
  { rewrite (suffix_missing dir name Hname). by_evaluation. }
  destruct (load_file_rejects_ext w _ st Hext) as (st' & Hl & _ & Hm & Hf & _).
  rewrite Hl. by repeat split.
Qed.

End ExtensionExtras.

(** X1 at a sample input. *)
Lemma dates_round_trip_witness :
  ∃ st', set_date_original MoreSamples.leap_day Samples.blank = (Ok tt, st')
         ∧ get_date_original st' = Ok MoreSamples.leap_day
         ∧ has_date_original st' = Ok true
         ∧ has_valid_date_original st' = Ok true
         ∧ tag_value st' (py "Exif") piexif.ExifIFD.SubSecTimeOriginal
           = Ok (PBytes (pyb "00")).
Proof.
  apply (proj1 (dates_round_trip Samples.blank ∅ MoreSamples.leap_day
                  ltac:(vm_compute; reflexivity)
                  ltac:(scalar_values)
                  ltac:(vm_compute; reflexivity))).
Defined.

(** X4 at a sample input. *)
Lemma text_setters_round_trip_witness :
  ∃ st' b, set_camera_maker MoreSamples.accented Samples.blank = (Ok tt, st')
           ∧ get_camera_maker st' = Ok (PBytes b)
           ∧ utf8_decode b = Some MoreSamples.accented.
Proof.
  apply (proj1 (text_setters_round_trip Samples.blank ∅ MoreSamples.accented
                  ltac:(vm_compute; reflexivity)
                  ltac:(scalar_values))).
Defined.

(** X5 at a sample input: an accented name is stored, a lone surrogate is
    refused. *)
Lemma setter_on_tag_dictionary_witness :
  (∃ st' d', run_setter (SetArtist MoreSamples.accented) Samples.blank = (Ok tt, st')
             ∧ py_getitem (metadata st') (KStr (py "0th")) = Ok (PDict d')
             ∧ (∀ t, t ∈ [piexif.ImageIFD.Artist] → is_Some (d' !! KInt t))
             ∧ (∀ k, k ∉ KInt <$> [piexif.ImageIFD.Artist] → d' !! k = (∅ : pydict) !! k))
  ∧ (∃ st', run_setter (SetArtist [0xD800%N]) Samples.blank
            = (Raise UnicodeEncodeError, st')
            ∧ (false = false → st' = Samples.blank)).
Proof.
  split.
  - apply (proj1 (setter_on_tag_dictionary (SetArtist MoreSamples.accented)
                    Samples.blank ∅ ltac:(vm_compute; reflexivity)
                    ltac:(by_evaluation))).
    scalar_values.
  - apply (proj2 (setter_on_tag_dictionary (SetArtist [0xD800%N])
                    Samples.blank ∅ ltac:(vm_compute; reflexivity)
                    ltac:(by_evaluation))).
    intros H. apply Forall_inv in H as [_ H]. discriminate H.
Defined.

(** X6 at a sample input: on a fresh manager an encodable name meets the
    missing key, a lone surrogate the encoder. *)
Lemma setter_on_missing_ifd_witness :
  run_setter (SetArtist (py "Ansel")) (init false) = (Raise KeyError, init false)
  ∧ run_setter (SetArtist [0xD800%N]) (init false)
    = (Raise UnicodeEncodeError, init false).
Proof.
  split.
  - apply (proj1 (setter_on_missing_ifd (SetArtist (py "Ansel")) (init false) ∅
                    eq_refl eq_refl ltac:(by_evaluation))).
    right. scalar_values.
  - apply (proj2 (setter_on_missing_ifd (SetArtist [0xD800%N]) (init false) ∅
                    eq_refl eq_refl ltac:(by_evaluation))); [reflexivity|].
    intros H. apply Forall_inv in H as [_ H]. discriminate H.
Defined.

(** X2 at a sample input. *)
Lemma date_entry_of_another_shape_witness :
  get_date_original MoreSamples.textual_date = Raise AttributeError.
Proof.
  apply (proj2 (date_entry_of_another_shape MoreSamples.textual_date
                  (PStr (py "2020:02:29 10:11:12"))
                  ltac:(vm_compute; reflexivity))).
  discriminate.
Defined.

(** X3 at a sample input. *)
Lemma checks_on_missing_keys_witness :
  has_date_original (init false) = Raise KeyError
  ∧ has_gps_data (init false) = Ok false.
Proof.
  destruct (checks_on_missing_keys (init false) ∅ eq_refl) as [H1 H2].
  split; [apply H1|apply H2]; reflexivity.
Defined.

(** X7 at a sample input. *)
Lemma load_file_is_not_atomic_witness :
  let st' := snd (load_file MoreSamples.missing_world Samples.photo Samples.located) in
  fst (load_file MoreSamples.missing_world Samples.photo Samples.located)
  = Raise OSError
  ∧ _filepath st' = Some Samples.photo
  ∧ metadata st' = metadata Samples.located.
Proof.
  destruct (load_file_is_not_atomic MoreSamples.missing_world Samples.photo
              Samples.located ltac:(by_evaluation)) as (H1 & _ & H3 & _).
  destruct (H3 OSError ltac:(vm_compute; reflexivity)) as [H4 H5].
  by repeat split.
Defined.

(** X8 at a sample input. *)
Lemma load_metadata_keeps_every_item_witness :
  is_Ok (_load_metadata Samples.jpeg_world Samples.photo)
  ↔ Forall (λ kv, is_Some (item_value Samples.jpeg_world kv.2))
      [(py "jfif", PInt 257); (py "exif", PBytes (pyb "Exif"))].
Proof.
  apply (proj1 (load_metadata_keeps_every_item Samples.jpeg_world Samples.photo
                  [(py "jfif", PInt 257); (py "exif", PBytes (pyb "Exif"))]
                  eq_refl ltac:(by_evaluation))).
Defined.

(** X9 at a sample input. *)
Lemma load_file_fails_on_raw_exif_witness :
  fst (load_file MoreSamples.corrupt_world Samples.photo Samples.blank)
  = Raise TypeError
  ∧ metadata (snd (load_file MoreSamples.corrupt_world Samples.photo Samples.blank))
    = metadata Samples.blank.
Proof.
  apply (load_file_fails_on_raw_exif MoreSamples.corrupt_world Samples.photo
           Samples.blank
           (<[KStr (py "jfif") := PInt 257]>
              (<[KStr (py "exif") := PBytes (pyb "Exif")]> ∅))
           (pyb "Exif")).
  - by_evaluation.
  - vm_compute. reflexivity.
  - vm_compute. reflexivity.
Defined.

(** X10 at a sample input. *)
Lemma load_file_invents_no_key_witness :
  py_getitem
    (metadata (snd (load_file Samples.bare_world Samples.scan (init false))))
    (KStr (py "exif"))
  = Raise KeyError.
Proof.
  apply (proj2 (load_file_invents_no_key Samples.bare_world Samples.scan
                  (init false)
                  (snd (load_file Samples.bare_world Samples.scan (init false)))
                  {[ KStr (py "dpi") := PTuple [PInt 72; PInt 72] ]} ∅
                  ltac:(vm_compute; reflexivity) ltac:(vm_compute; reflexivity)
                  ltac:(right; split; [vm_compute; reflexivity|reflexivity]))).
Defined.

(** X13 at a sample input. *)
Lemma save_file_keeps_the_manager_witness :
  save_file Samples.jpeg_world [] false (init true)
  = (Raise (AssertionError []), init true).
Proof.
  destruct (save_file_keeps_the_manager Samples.jpeg_world [] false (init true))
    as (_ & _ & _ & _ & _ & H).
  apply H. reflexivity.
Defined.

(** X14 at a sample input. *)
Lemma reachable_file_path_is_readable_witness :
  _filepath (snd (load_file Samples.jpeg_world Samples.photo (init true)))
  = Some Samples.photo
  ∧ upper (drop 1 (suffix Samples.photo)) ∈ READABLE_EXTENSIONS.
Proof.
  split; [vm_compute; reflexivity|].
  apply (proj1 (reachable_file_path_is_readable
                  (snd (load_file Samples.jpeg_world Samples.photo (init true)))
                  (reach_call (init true)
                     (CallLoadFile Samples.jpeg_world Samples.photo)
                     (reach_init true))) Samples.photo).
  vm_compute; reflexivity.
Defined.

(** X15 at a sample input. *)
Lemma get_keywords_reads_unmarked_text_witness :
  get_keywords MoreSamples.windows_keywords = Ok [py "sea"; py "sun"].
Proof.
  apply (get_keywords_reads_unmarked_text MoreSamples.windows_keywords
           {[ KInt piexif.ImageIFD.XPKeywords :=
                PTuple (map PInt [115; 0; 101; 0; 97; 0; 59; 0;
                                  115; 0; 117; 0; 110; 0; 0; 0]) ]}
           (PTuple (map PInt [115; 0; 101; 0; 97; 0; 59; 0;
                              115; 0; 117; 0; 110; 0; 0; 0]))
           (py "sea;sun") [] (py "sea;sun" ++ [0%N])).
  - vm_compute. reflexivity.
  - vm_compute. reflexivity.
  - vm_compute. reflexivity.
  - vm_compute. reflexivity.
  - by_evaluation.
  - intros c s' [= <- _]. split; discriminate.
Defined.

(** X16 at a sample input. *)
Lemma keywords_round_trip_across_hosts_witness :
  ∃ st', add_keywords (P := MoreSamples.big_endian_host)
           [py "sea"; py "sun"] true Samples.blank = (Ok tt, st')
         ∧ get_keywords (P := little_endian_host) st' = Ok [py "sea"; py "sun"].
Proof.
  apply (keywords_round_trip_across_hosts MoreSamples.big_endian_host
           little_endian_host Samples.blank ∅ [py "sea"; py "sun"]).
  - vm_compute. reflexivity.
  - discriminate.
  - repeat constructor; (vm_compute; congruence).
Defined.

(** X17 at a sample input. *)
Lemma keywords_are_cut_at_semicolons_witness :
  ∃ st', add_keywords [py "sea;sun"; py "sky"] true Samples.blank = (Ok tt, st')
         ∧ get_keywords st' = Ok [py "sea"; py "sun"; py "sky"].
Proof.
  apply (keywords_are_cut_at_semicolons Samples.blank ∅ [py "sea;sun"; py "sky"]).
  - vm_compute. reflexivity.
  - discriminate.
  - scalar_values.
  - repeat constructor; by_evaluation.
Defined.

(** X18 at a sample input: 10 degrees north, 20 degrees east, altitude
    372.5. *)
Lemma altitude_round_trip_witness :
  ∃ st' lat' lon' alt',
    set_gps_data (10 # 1) (20 # 1) (745 # 2) false Samples.blank = (Ok tt, st')
    ∧ tag_value st' (py "GPS") piexif.GPSIFD.GPSAltitude
      = Ok (PTuple [PInt 37250; PInt 100])
    ∧ get_gps_data st' = Ok (lat', lon', alt', false)
    ∧ has_gps_data st' = Ok true
    ∧ (alt' == 745 # 2)%Q.
Proof.
  apply (altitude_round_trip Samples.blank ∅ (10 # 1) (20 # 1) (745 # 2) false
           10 0 0 (py "N") 20 0 0 (py "E") 0 0 37250).
  - vm_compute. reflexivity.
  - vm_compute. reflexivity.
  - vm_compute. reflexivity.
  - repeat constructor.
  - split; [exists 0, 0; by vm_compute|]. split; by vm_compute.
  - split; [exists 0, 0; by vm_compute|]. split; by vm_compute.
  - split; [exists 745, (-1); by vm_compute|]. split; by vm_compute.
Defined.

(** X19 at a sample input. *)
Lemma zero_denominator_raises_witness :
  get_gps_data Samples.without_fix = Raise ZeroDivisionError
  ∧ has_gps_data Samples.without_fix = Raise ZeroDivisionError.
Proof.
  apply (zero_denominator_raises Samples.without_fix
           (<[KInt piexif.GPSIFD.GPSLatitudeRef := PBytes (pyb "N")]>
           (<[KInt piexif.GPSIFD.GPSLatitude :=
                PTuple [Samples.rational 0 0; Samples.rational 0 0;
                        Samples.rational 0 0]]>
           (<[KInt piexif.GPSIFD.GPSLongitudeRef := PBytes (pyb "E")]>
           (<[KInt piexif.GPSIFD.GPSLongitude :=
                PTuple [Samples.rational 0 0; Samples.rational 0 0;
                        Samples.rational 0 0]]>
           (<[KInt piexif.GPSIFD.GPSAltitudeRef := PInt 0]>
           (<[KInt piexif.GPSIFD.GPSAltitude := Samples.rational 0 0]> ∅))))))
           (PBytes (pyb "N")) 0 0 0 0 0 0).
  - vm_compute. reflexivity.
  - vm_compute. reflexivity.
  - vm_compute. reflexivity.
  - repeat constructor.
  - by left.
Defined.

(** X11 at a sample input. *)
Lemma load_file_checks_the_last_extension_witness :
  _filepath (snd (load_file Samples.jpeg_world
                    (mkPath (py "/photos") (py "trip.2020" ++ 0x2E%N :: py "JpEg"))
                    (init false)))
  = Some (mkPath (py "/photos") (py "trip.2020" ++ 0x2E%N :: py "JpEg")).
Proof.
  apply (proj1 (load_file_checks_the_last_extension Samples.jpeg_world
                  (py "/photos") (py "trip.2020") (py "JpEg") (init false)
                  ltac:(discriminate) ltac:(discriminate) ltac:(by_evaluation))).
  by_evaluation.
Defined.

(** X12 at a sample input. *)
Lemma load_file_refuses_names_without_suffix_witness :
  fst (load_file Samples.jpeg_world (mkPath (py "/photos") (py ".jpg")) (init false))
  = Raise (AssertionError (reading_err_msg (mkPath (py "/photos") (py ".jpg")))).
Proof.
  apply (load_file_refuses_names_without_suffix Samples.jpeg_world
           (py "/photos") (py ".jpg") (init false)).
  right. left. exists (py "jpg"). split; [reflexivity|by_evaluation].
Defined.
